(** * manage_certs: certificate management for an haproxy load balancer

    A shallow embedding of [templates/manage_certs.py] and the properties
    of its functions.  Python exceptions are carried by an explicit
    [result] type, the file system and the record of external calls by a
    [world] that is threaded through the effectful functions. *)

From Stdlib Require Import Ascii String.
From stdpp Require Import base option list strings gmap sets.

Open Scope string_scope.

(** ** Python exceptions *)

(** The exception classes that the script and the library calls it makes
    can raise. *)
Inductive exn_class :=
| Exception
| OSError
| FileNotFoundError
| PermissionError
| IsADirectoryError
| ConnectionRefusedError
| ConnectionResetError
| gaierror
| SSLError
| SSLCertVerificationError
| ValueError
| UnicodeError
| KeyError
| CryptoError.   (* OpenSSL.crypto.Error *)

Global Instance exn_class_eq_dec : EqDecision exn_class.
Proof. solve_decision. Defined.

(** Direct base classes, as in the Python class hierarchy
    ([ssl.SSLCertVerificationError] derives from both [ssl.SSLError] and
    [ValueError]). *)
Definition bases (c : exn_class) : list exn_class :=
  match c with
  | Exception => []
  | OSError => [Exception]
  | FileNotFoundError => [OSError]
  | PermissionError => [OSError]
  | IsADirectoryError => [OSError]
  | ConnectionRefusedError => [OSError]
  | ConnectionResetError => [OSError]
  | gaierror => [OSError]
  | SSLError => [OSError]
  | SSLCertVerificationError => [SSLError; ValueError]
  | ValueError => [Exception]
  | UnicodeError => [ValueError]
  | KeyError => [Exception]
  | CryptoError => [Exception]
  end.

Fixpoint issubclass_fuel (n : nat) (c k : exn_class) : bool :=
  bool_decide (c = k) ||
  match n with
  | O => false
  | S n' => existsb (fun b => issubclass_fuel n' b k) (bases c)
  end.

(** The hierarchy above has depth 3. *)
Definition issubclass (c k : exn_class) : bool := issubclass_fuel 3 c k.

Record exn := mk_exn { exn_cls : exn_class; exn_msg : string }.

Global Instance exn_eq_dec : EqDecision exn.
Proof. solve_decision. Defined.

(** [except k:] catches [e]. *)
Definition isinstance (e : exn) (k : exn_class) : bool :=
  issubclass (exn_cls e) k.

Inductive result (A : Type) :=
| Ok (a : A)
| Raise (e : exn).
Arguments Ok {A} a.
Arguments Raise {A} e.

Definition is_ok {A} (r : result A) : bool :=
  match r with Ok _ => true | Raise _ => false end.

(** ** Python strings

    A [str] is modelled by a [string] whose characters are the code
    points below 256. *)

(** [str.isspace] on one character: the ASCII white space of CPython
    (TAB, LF, VT, FF, CR, FS, GS, RS, US, space) and, above 127, NEL and
    the no-break space. *)
Definition isspace (c : ascii) : bool :=
  let n := nat_of_ascii c in
  (Nat.leb 9 n && Nat.leb n 13) || (Nat.leb 28 n && Nat.leb n 32)
  || Nat.eqb n 133 || Nat.eqb n 160.

Fixpoint lstrip (s : string) : string :=
  match s with
  | String c r => if isspace c then lstrip r else s
  | EmptyString => EmptyString
  end.

Fixpoint rstrip (s : string) : string :=
  match s with
  | String c r =>
      match rstrip r with
      | EmptyString => if isspace c then EmptyString else String c EmptyString
      | r' => String c r'
      end
  | EmptyString => EmptyString
  end.

(** [s.strip()] *)
Definition strip (s : string) : string := rstrip (lstrip s).

(** [s.startswith(p)] *)
Fixpoint startswith (s p : string) : bool :=
  match p, s with
  | EmptyString, _ => true
  | String a p', String b s' => bool_decide (a = b) && startswith s' p'
  | String _ _, EmptyString => false
  end.

(** The longest prefix without white space, and what follows it. *)
Fixpoint span_word (s : string) : string * string :=
  match s with
  | String c r =>
      if isspace c then (EmptyString, s)
      else let '(w, rest) := span_word r in (String c w, rest)
  | EmptyString => (EmptyString, EmptyString)
  end.

(** [s.split(None, 1)]: leading white space is skipped, the first word is
    cut off, the white space after it is skipped, and what remains (if
    anything) is the second and last item. *)
Definition split_none_1 (s : string) : list string :=
  match lstrip s with
  | EmptyString => []
  | s' =>
      let '(w, rest) := span_word s' in
      match lstrip rest with
      | EmptyString => [w]
      | rest' => [w; rest']
      end
  end.

(** [c in s] for a one-character needle. *)
Fixpoint contains_char (c : ascii) (s : string) : bool :=
  match s with
  | String a r => bool_decide (a = c) || contains_char c r
  | EmptyString => false
  end.

(** The message of the [ValueError] that unpacking into two names raises
    for a sequence of [got] items, [got < 2]. *)
Definition unpack_error (got : nat) : exn :=
  mk_exn ValueError
    ("not enough values to unpack (expected 2, got "
       ++ (match got with O => "0" | _ => "1" end) ++ ")").

(** [a, b = l] *)
Definition unpack2 (l : list string) : result (string * string) :=
  match l with
  | [a; b] => Ok (a, b)
  | [] => Raise (unpack_error 0)
  | [_] => Raise (unpack_error 1)
  | _ => Raise (mk_exn ValueError "too many values to unpack (expected 2)")
  end.

(** ** Ordered dictionaries

    [collections.OrderedDict] and [dict] keep their keys in insertion
    order, and assigning to a key that is present keeps its position: an
    association list with distinct keys. *)
Definition odict (V : Type) := list (string * V).

(** [d.get(k)] *)
Fixpoint od_get {V} (d : odict V) (k : string) : option V :=
  match d with
  | [] => None
  | (k', v) :: d' => if bool_decide (k' = k) then Some v else od_get d' k
  end.

(** [d[k] = v] *)
Fixpoint od_set {V} (d : odict V) (k : string) (v : V) : odict V :=
  match d with
  | [] => [(k, v)]
  | (k', v') :: d' =>
      if bool_decide (k' = k) then (k, v) :: d' else (k', v') :: od_set d' k v
  end.

(** Iterating over the dictionary yields its keys. *)
Definition od_keys {V} (d : odict V) : list string := d.*1.

(** [d.values()] *)
Definition od_values {V} (d : odict V) : list V := d.*2.

(** ** Configuration *)

Record config := mk_config {
  server_ip : string;
  haproxy_backend_map : string;
  haproxy_certs_dir : string;
  contact_email : string;
  letsencrypt_use_staging : bool;
  letsencrypt_fake_cert : option string;
}.

(** ** get_all_domains *)

(** The body of the loop over the lines of the backend map. *)
Definition add_line (domains : odict string) (line : string)
  : result (odict string) :=
  let line := strip line in
  if negb (bool_decide (line = "")) && negb (startswith line "#") then
    match unpack2 (split_none_1 line) with
    | Ok (domain, backend) => Ok (od_set domains domain backend)
    | Raise e => Raise e
    end
  else Ok domains.

Fixpoint add_lines (domains : odict string) (lines : list string)
  : result (odict string) :=
  match lines with
  | [] => Ok domains
  | line :: rest =>
      match add_line domains line with
      | Ok domains' => add_lines domains' rest
      | Raise e => Raise e
      end
  end.

(** ** The world the script runs in *)

(** An entry of [X509.get_extension]: its short name and, for a
    subjectAltName extension, the text OpenSSL prints for it (what
    [_subjectAltNameString] returns). *)
Record x509_extension := mk_ext {
  get_short_name : string;
  subjectAltNameString : string;
}.

(** The outcome of [value.decode("utf8")] for the value of a component
    of the subject: the text, or for bytes that are not valid UTF-8 the
    message of the [UnicodeDecodeError]. *)
Inductive decoded :=
| Text (text : string)
| Undecodable (message : string).

(** A certificate as [get_dns_names] sees it. *)
Record x509 := mk_x509 {
  get_extensions : list x509_extension;
  get_subject_components : list (string * decoded);
}.

(** A regular file: bytes that OpenSSL loads as a PEM certificate; other
    bytes, with the text of the error list that OpenSSL reports when it
    is asked to load them; or a file of such bytes that the process has
    no permission to read. *)
Inductive content :=
| Pem (cert : x509)
| Bytes (raw : string) (errors : string)
| Unreadable (held : content).

(** [pathlib.Path(parent, name)] *)
Definition path := (string * string)%type.

Definition parent_of (p : path) : string := p.1.
Definition name_of (p : path) : string := p.2.

Inductive event :=
| Resolve (domain : string)           (* socket.gethostbyname *)
| Connect (anchors : list string) (domain : string)
                                      (* TLS connection to localhost:443 *)
| Run (command : list string).        (* subprocess.run *)

(** The regular files, the directories whose entries the process may not
    change, the memoised SSL context ([get_ssl_context.ctx], by the files
    of trust anchors loaded into it with [load_verify_locations]), the
    external calls made so far, oldest first, and the paths that are
    directories, which a listing of their parent shows and which cannot
    be read as a file. *)
Record world := mk_world {
  fs : gmap path content;
  readonly : gset string;
  ssl_ctx : option (list string);
  log : list event;
  dirs : gset path;
}.

Definition set_fs (w : world) (f : gmap path content) : world :=
  mk_world f (readonly w) (ssl_ctx w) (log w) (dirs w).
Definition set_ctx (w : world) (c : option (list string)) : world :=
  mk_world (fs w) (readonly w) c (log w) (dirs w).
Definition add_event (w : world) (e : event) : world :=
  mk_world (fs w) (readonly w) (ssl_ctx w) (log w ++ [e]) (dirs w).

(** Effectful code: a state transformer that returns or raises. *)
Definition M (A : Type) : Type := world -> world * result A.

Definition ret {A} (a : A) : M A := fun w => (w, Ok a).
Definition raise {A} (e : exn) : M A := fun w => (w, Raise e).
Definition bind {A B} (m : M A) (k : A -> M B) : M B :=
  fun w =>
    match m w with
    | (w', Ok a) => k a w'
    | (w', Raise e) => (w', Raise e)
    end.
Definition lift {A} (r : result A) : M A := fun w => (w, r).

(** [try: m  except k: h] *)
Definition try_except {A} (m : M A) (k : exn_class) (h : exn -> M A) : M A :=
  fun w =>
    match m w with
    | (w', Ok a) => (w', Ok a)
    | (w', Raise e) => if isinstance e k then h e w' else (w', Raise e)
    end.

Declare Scope M_scope.
Delimit Scope M_scope with M.
Notation "x <- m ;; k" := (bind m (fun x => k))
  (at level 100, m at next level, right associativity) : M_scope.
Notation "m ;;; k" := (bind m (fun _ => k))
  (at level 100, right associativity) : M_scope.
Open Scope M_scope.

(** ** Paths *)

(** [name.rpartition(".")] when [name] has a dot: what stands before the
    last dot and what stands after it. *)
Fixpoint split_last_dot (s : string) : option (string * string) :=
  match s with
  | EmptyString => None
  | String c r =>
      match split_last_dot r with
      | Some (before, after) => Some (String c before, after)
      | None => if bool_decide (c = "."%char) then Some (EmptyString, r) else None
      end
  end.

(** [PurePath.stem]: the name without its suffix, which starts at the last
    dot when that is neither the first nor the last character. *)
Definition stem (name : string) : string :=
  match split_last_dot name with
  | Some (String b before, String _ _) => String b before
  | _ => name
  end.

(** [PurePath.with_suffix], for a suffix that is well formed: the old
    suffix is cut off and the new one put in its place. *)
Definition with_suffix (p : path) (sfx : string) : path :=
  (parent_of p, stem (name_of p) ++ sfx).

(** [s.endswith(p)], which is how the pattern ["*.pem"] matches a name. *)
Fixpoint endswith (s p : string) : bool :=
  bool_decide (s = p) ||
  match s with
  | String _ r => endswith r p
  | EmptyString => false
  end.

(** ** File system operations *)

(** [str(p)] in quotes, as the message of an [OSError] shows the file
    name it is about. *)
Definition quoted (p : path) : string := "'" ++ p.1 ++ "/" ++ p.2 ++ "'".

(** The [OSError]s of the calls below, with the text that [str] gives for
    them: the error number, its description and the file name; for
    [rename], both file names. *)
Definition permission_denied (p : path) : exn :=
  mk_exn PermissionError ("[Errno 13] Permission denied: " ++ quoted p).
Definition no_such_file (p : path) : exn :=
  mk_exn FileNotFoundError
    ("[Errno 2] No such file or directory: " ++ quoted p).
Definition is_a_directory (p : path) : exn :=
  mk_exn IsADirectoryError ("[Errno 21] Is a directory: " ++ quoted p).
Definition rename_denied (p q : path) : exn :=
  mk_exn PermissionError
    ("[Errno 13] Permission denied: " ++ quoted p ++ " -> " ++ quoted q).
Definition rename_no_such_file (p q : path) : exn :=
  mk_exn FileNotFoundError
    ("[Errno 2] No such file or directory: " ++ quoted p ++ " -> " ++ quoted q).

(** [p.read_bytes()]: a directory cannot be opened as a file, a file that
    is not there cannot be opened, and a file without read permission
    cannot be opened. *)
Definition read_bytes (p : path) : M content :=
  fun w =>
    if bool_decide (p ∈ dirs w) then (w, Raise (is_a_directory p))
    else
      match fs w !! p with
      | Some (Unreadable _) => (w, Raise (permission_denied p))
      | Some c => (w, Ok c)
      | None => (w, Raise (no_such_file p))
      end.

(** [p.is_file()] *)
Definition is_file (p : path) : M bool :=
  fun w => (w, Ok (bool_decide (is_Some (fs w !! p)))).

(** [p.unlink()] *)
Definition unlink (p : path) : M unit :=
  fun w =>
    match fs w !! p with
    | None =>
        (w, Raise (if bool_decide (p ∈ dirs w) then is_a_directory p
                   else no_such_file p))
    | Some _ =>
        if bool_decide (parent_of p ∈ readonly w)
        then (w, Raise (permission_denied p))
        else (set_fs w (delete p (fs w)), Ok tt)
    end.

(** [p.rename(q)]: on POSIX a file at [q] is replaced. *)
Definition rename (p q : path) : M unit :=
  fun w =>
    match fs w !! p with
    | None => (w, Raise (rename_no_such_file p q))
    | Some c =>
        if bool_decide (parent_of p ∈ readonly w)
           || bool_decide (parent_of q ∈ readonly w)
        then (w, Raise (rename_denied p q))
        else (set_fs w (<[q := c]> (delete p (fs w))), Ok tt)
    end.

(** [OpenSSL.crypto.load_certificate(FILETYPE_PEM, data)]: for bytes that
    are not a PEM certificate, [OpenSSL.crypto.Error] with the errors
    that OpenSSL reports.  What is loaded depends on the bytes alone. *)
Fixpoint load_certificate (data : content) : result x509 :=
  match data with
  | Pem cert => Ok cert
  | Bytes _ errors => Raise (mk_exn CryptoError errors)
  | Unreadable held => load_certificate held
  end.

(** ** get_dns_names *)

(** Put [c] in front of the first item. *)
Definition cons_head (c : ascii) (items : list string) : list string :=
  match items with
  | h :: t => String c h :: t
  | [] => [String c EmptyString]
  end.

(** [s.split(", ")] *)
Fixpoint split_comma_space (s : string) : list string :=
  match s with
  | EmptyString => [EmptyString]
  | String c r =>
      match r with
      | String c2 r2 =>
          if bool_decide (c = ","%char) && bool_decide (c2 = " "%char)
          then EmptyString :: split_comma_space r2
          else cons_head c (split_comma_space r)
      | EmptyString => cons_head c (split_comma_space r)
      end
  end.

(** [s.split(":", 1)] *)
Fixpoint split_colon_1 (s : string) : list string :=
  match s with
  | EmptyString => [EmptyString]
  | String c r =>
      if bool_decide (c = ":"%char) then [EmptyString; r]
      else cons_head c (split_colon_1 r)
  end.

(** The loop over the components of a subjectAltName string. *)
Fixpoint san_dns_names (components : list string) (dns_names : list string)
  : result (list string) :=
  match components with
  | [] => Ok dns_names
  | component :: rest =>
      match unpack2 (split_colon_1 component) with
      | Raise e => Raise e
      | Ok (name_type, name) =>
          if bool_decide (name_type = "DNS")
          then san_dns_names rest (dns_names ++ [name])
          else san_dns_names rest dns_names
      end
  end.

(** The first extension called subjectAltName, if there is one. *)
Fixpoint find_san (exts : list x509_extension) : option x509_extension :=
  match exts with
  | [] => None
  | ext :: rest =>
      if bool_decide (get_short_name ext = "subjectAltName") then Some ext
      else find_san rest
  end.

(** The loop over the components of the subject. *)
Fixpoint common_name (components : list (string * decoded))
  : result (list string) :=
  match components with
  | [] =>
      Raise (mk_exn ValueError
               ("the certificate does not contain a valid Common Name, "
                  ++ "nor valid Subject Alternative Names"))
  | (label, value) :: rest =>
      if bool_decide (label = "CN") then
        match value with
        | Text text => Ok [text]
        | Undecodable message => Raise (mk_exn UnicodeError message)
        end
      else common_name rest
  end.

Definition get_dns_names (cert : x509) : result (list string) :=
  match find_san (get_extensions cert) with
  | Some ext =>
      san_dns_names (split_comma_space (subjectAltNameString ext)) []
  | None => common_name (get_subject_components cert)
  end.

(** ** remove_cert *)

Definition renewal_dir : string := "/etc/letsencrypt/renewal".

Definition remove_cert (cert_path : path) : M unit :=
  unlink cert_path ;;;
  let renewal_config : path := (renewal_dir, stem (name_of cert_path) ++ ".conf") in
  b <- is_file renewal_config ;;
  if b then rename renewal_config (with_suffix renewal_config ".disabled")
  else ret tt.

(** ** clean_up_certs *)

(** [any("*" in name for name in dns_names)] *)
Definition has_wildcard (dns_names : gset string) : bool :=
  existsb (contains_char "*"%char) (elements dns_names).

(** [a.isdisjoint(b)] *)
Definition isdisjoint (a b : gset string) : bool := bool_decide (a ## b).

(** The body of the loop over the certificate files. *)
Definition clean_up_cert (active_domains : gset string) (cert_path : path)
  : M unit :=
  data <- read_bytes cert_path ;;
  cert <- lift (load_certificate data) ;;
  match get_dns_names cert with
  | Raise e =>
      if isinstance e ValueError then ret tt   (* continue *)
      else raise e
  | Ok names =>
      let dns_names : gset string := list_to_set names in
      if has_wildcard dns_names then ret tt    (* continue *)
      else if isdisjoint dns_names active_domains then remove_cert cert_path
      else ret tt
  end.

Fixpoint for_each {A} (body : A -> M unit) (l : list A) : M unit :=
  match l with
  | [] => ret tt
  | x :: rest => body x ;;; for_each body rest
  end.

(** [clean_up_certs], for the file names that the glob of ["*.pem"] in
    the certificate directory yields, in the order it yields them. *)
Definition clean_up_certs (cfg : config) (all_domains : odict string)
    (globbed : list string) : M unit :=
  let active_domains : gset string := list_to_set (od_keys all_domains) in
  for_each (fun name => clean_up_cert active_domains (haproxy_certs_dir cfg, name))
           globbed.

(** ** The outside of the process *)

(** What the calls that leave the process answer: reading the lines of a
    text file, the resolver, the TLS server on localhost:443 (asked with
    the trust anchors of the context and the SNI host name), the
    letsencrypt client (which may change files), the order in which the
    operating system lists the names of a directory, loading a file of
    trust anchors into an SSL context (which fails for a file that is not
    there or holds no certificate) and wrapping a socket for a server
    host name (which the ssl module refuses for some names, such as the
    empty one). *)
Record env := mk_env {
  open_lines : string -> result (list string);
  gethostbyname : string -> result string;
  connect_localhost_443 : list string -> string -> result unit;
  subprocess_run : list string -> gmap path content
                   -> gmap path content * result Z;
  scandir : string -> list string;
  load_verify_locations : string -> result unit;
  wrap_socket : list string -> string -> result unit;
}.

Section Script.

Variable E : env.

Definition get_all_domains (cfg : config) : M (odict string) :=
  lines <- lift (open_lines E (haproxy_backend_map cfg)) ;;
  lift (add_lines [] lines).

Definition system_ca_bundle : string := "/etc/ssl/certs/ca-certificates.crt".

(** [get_ssl_context.ctx.load_verify_locations(cafile)]: the file is
    added to what the memoised context has loaded, or the call raises and
    the context stays as it is. *)
Definition load_into_ctx (cafile : string) : M unit :=
  fun w =>
    match load_verify_locations E cafile with
    | Ok _ =>
        (set_ctx w (match ssl_ctx w with
                    | Some loaded => Some (loaded ++ [cafile])%list
                    | None => None
                    end), Ok tt)
    | Raise e => (w, Raise e)
    end.

(** The context is created once and kept in [get_ssl_context.ctx].  It is
    stored there before the trust anchors are loaded into it, so it stays
    there when loading them raises; and a context that is there is
    returned as it is. *)
Definition get_ssl_context (cfg : config) : M (list string) :=
  fun w =>
    match ssl_ctx w with
    | Some ctx => (w, Ok ctx)
    | None =>
        ((fun w => (set_ctx w (Some []), Ok tt)) ;;;
         load_into_ctx system_ca_bundle ;;;
         (match letsencrypt_use_staging cfg, letsencrypt_fake_cert cfg with
          | true, Some fake => load_into_ctx fake
          | _, _ => ret tt
          end) ;;;
         (fun w => (w, Ok (default [] (ssl_ctx w))))) w
    end.

(** [ctx.wrap_socket(socket.socket(socket.AF_INET), server_hostname=domain)],
    which is called before the [try] and opens no connection. *)
Definition wrap (ctx : list string) (domain : string) : M unit :=
  lift (wrap_socket E ctx domain).

(** [conn.connect(("localhost", 443))] on the socket that [wrap_socket]
    returned, which sets up the connection and performs the handshake.  A
    certificate that does not verify or does not match the host name
    makes it raise [ssl.SSLCertVerificationError] (Python 3.7 and
    later). *)
Definition connect (ctx : list string) (domain : string) : M unit :=
  fun w => (add_event w (Connect ctx domain), connect_localhost_443 E ctx domain).

Definition has_valid_cert (cfg : config) (domain : string)
    (ctx : option (list string)) : M bool :=
  ctx <- match ctx with
         | None => get_ssl_context cfg
         | Some c => ret c
         end ;;
  wrap ctx domain ;;;
  try_except (connect ctx domain ;;; ret true) SSLError (fun _ => ret false).

Definition has_valid_dns_record (cfg : config) (domain : string) : M bool :=
  r <- try_except
         (fun w => (add_event w (Resolve domain),
                    match gethostbyname E domain with
                    | Ok ip => Ok (Some ip)
                    | Raise e => Raise e
                    end))
         gaierror (fun _ => ret None) ;;
  match r with
  | None => ret false
  | Some domain_ip => ret (bool_decide (domain_ip = server_ip cfg))
  end.

(** The condition of the list comprehension of [get_certless_domains]:
    [has_valid_dns_record(config, domain) and not has_valid_cert(config,
    domain)], where [and] evaluates its right side only if the left one
    holds. *)
Definition certless_condition (cfg : config) (domain : string) : M bool :=
  dns <- has_valid_dns_record cfg domain ;;
  if dns then valid <- has_valid_cert cfg domain None ;; ret (negb valid)
  else ret false.

(** The list comprehension. *)
Fixpoint certless (cfg : config) (domains : list string) : M (list string) :=
  match domains with
  | [] => ret []
  | domain :: rest =>
      keep <- certless_condition cfg domain ;;
      tail <- certless cfg rest ;;
      ret (if keep then domain :: tail else tail)
  end.

Definition get_certless_domains (cfg : config) (all_domains : odict string)
  : M (list string) :=
  certless cfg (od_keys all_domains).

Definition request_cert_command (cfg : config) (domains : list string)
  : list string :=
  (["letsencrypt"; "certonly";
    "--email"; contact_email cfg;
    "--authenticator"; "standalone";
    "--standalone-supported-challenges"; "http-01";
    "--http-01-port"; "8080";
    "--non-interactive";
    "--agree-tos";
    "--keep";
    "--expand"]
   ++ (if letsencrypt_use_staging cfg then ["--staging"] else [])
   ++ concat (List.map (fun domain => ["-d"; domain]) domains))%list.

Definition request_cert (cfg : config) (domains : list string) : M Z :=
  fun w =>
    let command := request_cert_command cfg domains in
    let '(f, r) := subprocess_run E command (fs w) in
    (set_fs (add_event w (Run command)) f, r).

(** [d.setdefault(k, []).append(x)] *)
Definition setdefault_append (d : odict (list string)) (k x : string)
  : odict (list string) :=
  match od_get d k with
  | Some l => od_set d k (l ++ [x])%list
  | None => od_set d k [x]
  end.

(** The first loop of [request_new_certs]. *)
Fixpoint group_by_backend (all_domains : odict string)
    (certless_domains : list string) (domains_by_backend : odict (list string))
  : result (odict (list string)) :=
  match certless_domains with
  | [] => Ok domains_by_backend
  | domain :: rest =>
      match od_get all_domains domain with
      | None => Raise (mk_exn KeyError ("'" ++ domain ++ "'"))
      | Some backend =>
          group_by_backend all_domains rest
            (setdefault_append domains_by_backend backend domain)
      end
  end.

Definition request_new_certs (cfg : config) (all_domains : odict string)
  : M unit :=
  certless_domains <- get_certless_domains cfg all_domains ;;
  domains_by_backend <- lift (group_by_backend all_domains certless_domains []) ;;
  for_each
    (fun domains =>
       try_except (request_cert cfg domains ;;; ret tt) Exception
                  (fun _ => ret tt))
    (od_values domains_by_backend).

(** [config.haproxy_certs_dir.glob("*.pem")]: the entries of the
    directory, files and directories alike, whose name the pattern
    matches, in the order in which the directory is listed. *)
Definition glob_pem (dir : string) : M (list string) :=
  fun w =>
    (w, Ok (List.filter
              (fun name => (bool_decide (is_Some (fs w !! (dir, name)))
                            || bool_decide ((dir, name) ∈ dirs w))
                           && endswith name ".pem")
              (scandir E dir))).

Definition main (cfg : config) : M unit :=
  all_domains <- get_all_domains cfg ;;
  request_new_certs cfg all_domains ;;;
  globbed <- glob_pem (haproxy_certs_dir cfg) ;;
  clean_up_certs cfg all_domains globbed.

End Script.

(** ** Notions used in the statements *)

(** The trust anchors of the context that [has_valid_cert] uses in world
    [w] when it gets one: the one passed in, else the memoised one, else
    a fresh one into which the trust anchors have been loaded. *)
Definition trust_anchors (cfg : config) (ctx : option (list string))
    (w : world) : list string :=
  match ctx, ssl_ctx w with
  | Some c, _ => c
  | None, Some c => c
  | None, None =>
      (system_ca_bundle ::
       match letsencrypt_use_staging cfg, letsencrypt_fake_cert cfg with
       | true, Some fake => [fake]
       | _, _ => []
       end)
  end.

(** The domain resolves, and to the configured address. *)
Definition resolves_to_self (E : env) (cfg : config) (domain : string) : Prop :=
  gethostbyname E domain = Ok (server_ip cfg).

(** The TLS connection for [domain] fails with an [ssl.SSLError]. *)
Definition handshake_rejected (E : env) (anchors : list string)
    (domain : string) : Prop :=
  exists e, connect_localhost_443 E anchors domain = Raise e
            /\ isinstance e SSLError = true.

(** Loading the trust anchors into a fresh context fails with [e]: the
    file of system trust anchors does not load, or it does and the
    configured file for the staging environment does not. *)
Definition loading_fails (E : env) (cfg : config) (e : exn) : Prop :=
  load_verify_locations E system_ca_bundle = Raise e
  \/ (load_verify_locations E system_ca_bundle = Ok tt
      /\ letsencrypt_use_staging cfg = true
      /\ exists fake, letsencrypt_fake_cert cfg = Some fake
                      /\ load_verify_locations E fake = Raise e).

(** The context that [has_valid_cert] works with in world [w]: the one
    passed in, else what [get_ssl_context] answers. *)
Definition context_for (E : env) (cfg : config) (ctx : option (list string))
    (w : world) : result (list string) :=
  match ctx with
  | Some c => Ok c
  | None => (get_ssl_context E cfg w).2
  end.

(** A connection for [domain] is attempted with the anchors [a]: the
    context is there and the socket has been wrapped. *)
Definition attempted (E : env) (context : result (list string))
    (domain : string) (a : list string) : Prop :=
  context = Ok a /\ wrap_socket E a domain = Ok tt.

(** The live certificate check, by the context it gets and by what
    wrapping the socket and the TLS server answer. *)
Definition live_check (E : env) (context : result (list string))
    (domain : string) : result bool :=
  match context with
  | Raise e => Raise e
  | Ok a =>
      match wrap_socket E a domain with
      | Raise e => Raise e
      | Ok _ =>
          match connect_localhost_443 E a domain with
          | Ok _ => Ok true
          | Raise e => if isinstance e SSLError then Ok false else Raise e
          end
      end
  end.

(** The condition of the comprehension in [get_certless_domains], by what
    the resolver answers and what the live certificate check gives. *)
Definition needs_certificate (E : env) (cfg : config)
    (context : result (list string)) (domain : string) : result bool :=
  match gethostbyname E domain with
  | Ok ip =>
      if bool_decide (ip = server_ip cfg) then
        match live_check E context domain with
        | Ok valid => Ok (negb valid)
        | Raise e => Raise e
        end
      else Ok false
  | Raise e => if isinstance e gaierror then Ok false else Raise e
  end.

(** The comprehension itself, by the same answers. *)
Fixpoint select_certless (E : env) (cfg : config)
    (context : result (list string)) (domains : list string)
  : result (list string) :=
  match domains with
  | [] => Ok []
  | domain :: rest =>
      match needs_certificate E cfg context domain with
      | Raise e => Raise e
      | Ok keep =>
          match select_certless E cfg context rest with
          | Raise e => Raise e
          | Ok tail => Ok (if keep then domain :: tail else tail)
          end
      end
  end.

(** The commands that have been run, oldest first. *)
Definition commands_run (w : world) : list (list string) :=
  omap (fun ev => match ev with Run command => Some command | _ => None end)
       (log w).

(** What stays as it is while domains are probed. *)
Definition probe_frame (w w' : world) : Prop :=
  fs w' = fs w /\ readonly w' = readonly w /\ dirs w' = dirs w
  /\ commands_run w' = commands_run w.

(** What a probe leaves for the probes after it, when it has returned:
    the same answer of [get_ssl_context] and the same trust anchors. *)
Definition same_context (E : env) (cfg : config) (w w1 : world) : Prop :=
  (get_ssl_context E cfg w1).2 = (get_ssl_context E cfg w).2
  /\ trust_anchors cfg None w1 = trust_anchors cfg None w.

(** [s] has a white space character. *)
Fixpoint has_space (s : string) : bool :=
  match s with
  | String c r => isspace c || has_space r
  | EmptyString => false
  end.

(** [s] consists of white space. *)
Fixpoint all_space (s : string) : bool :=
  match s with
  | String c r => isspace c && all_space r
  | EmptyString => true
  end.

(** A line of the backend map that is neither skipped nor has a
    separator between a domain and a backend. *)
Definition no_separator (line : string) : Prop :=
  strip line <> "" /\ startswith (strip line) "#" = false
  /\ has_space (strip line) = false.

(** [s] is [domain], a run of white space and [backend], where the run is
    the first white space of [s]. *)
Definition first_ws_split (s domain backend : string) : Prop :=
  exists ws,
    s = domain ++ ws ++ backend
    /\ domain <> "" /\ has_space domain = false
    /\ ws <> "" /\ all_space ws = true
    /\ backend <> "" /\ lstrip backend = backend.

(** A line of the backend map that gives an entry: without the white
    space around it, it is not empty, does not begin with ["#"] and
    splits into [domain] and [backend]. *)
Definition entry (line domain backend : string) : Prop :=
  strip line <> "" /\ startswith (strip line) "#" = false
  /\ first_ws_split (strip line) domain backend.

(** The entry that [add_line] stores for a line, if it stores one. *)
Definition line_entry (line : string) : option (string * string) :=
  let s := strip line in
  if negb (bool_decide (s = "")) && negb (startswith s "#") then
    match split_none_1 s with
    | [domain; backend] => Some (domain, backend)
    | _ => None
    end
  else None.

(** The backend of the last line with an entry for [domain]. *)
Fixpoint last_entry (lines : list string) (domain : string) : option string :=
  match lines with
  | [] => None
  | line :: rest =>
      match last_entry rest domain with
      | Some b => Some b
      | None =>
          match line_entry line with
          | Some (d, b) => if bool_decide (d = domain) then Some b else None
          | None => None
          end
      end
  end.

(** Why loading the backend map fails: the file cannot be opened, or the
    first line that cannot be unpacked has been reached. *)
Inductive load_failure (E : env) (cfg : config) : exn -> Prop :=
| cannot_open e :
    open_lines E (haproxy_backend_map cfg) = Raise e ->
    load_failure E cfg e
| malformed_line before line after :
    open_lines E (haproxy_backend_map cfg) = Ok (before ++ line :: after)%list ->
    is_ok (add_lines [] before) = true ->
    no_separator line ->
    load_failure E cfg (unpack_error 1).

(** The domains of [l] that the backend map sends to [backend]. *)
Definition backend_group (all_domains : odict string) (l : list string)
    (backend : string) : list string :=
  filter (fun d => od_get all_domains d = Some backend) l.

(** The dictionary [domains_by_backend] after the domains of [l] have been
    put into it: distinct backends, each with the domains of [l] that
    it serves, and every domain of [l] under its backend. *)
Definition groups_of (all_domains : odict string) (l : list string)
    (groups : odict (list string)) : Prop :=
  NoDup (od_keys groups)
  /\ (forall b g, od_get groups b = Some g ->
                  g <> [] /\ g = backend_group all_domains l b)
  /\ (forall d, d ∈ l ->
                exists b, od_get all_domains d = Some b
                          /\ is_Some (od_get groups b)).

(** The renewal configuration of a certificate file, and what it is
    renamed to. *)
Definition renewal_config (cert_path : path) : path :=
  (renewal_dir, stem (name_of cert_path) ++ ".conf").
Definition disabled_config (cert_path : path) : path :=
  (renewal_dir, stem (name_of cert_path) ++ ".disabled").

(** A path that the pattern ["*.pem"] matches. *)
Definition pem_path (p : path) : Prop := endswith (name_of p) ".pem" = true.

(** The certificate serves names, none of them has a ["*"] and none of
    them is an active domain. *)
Definition orphaned (active_domains : gset string) (cert : x509) : bool :=
  match get_dns_names cert with
  | Ok names =>
      negb (has_wildcard (list_to_set names))
      && isdisjoint (list_to_set names) active_domains
  | Raise _ => false
  end.

(** The files after [remove_cert] has gone through for [p]. *)
Definition remove_fs (p : path) (f : gmap path content) : gmap path content :=
  let f1 := delete p f in
  match f1 !! renewal_config p with
  | Some d => <[disabled_config p := d]> (delete (renewal_config p) f1)
  | None => f1
  end.

(** The files after the body of the loop of [clean_up_certs] has gone
    through for [p]. *)
Definition clean_fs (active_domains : gset string) (p : path)
    (f : gmap path content) : gmap path content :=
  match f !! p with
  | Some (Pem cert) =>
      if orphaned active_domains cert then remove_fs p f else f
  | _ => f
  end.

(** What can go wrong with one listed entry [p], and what it does to the
    pass: [None] when the pass goes on with the next entry, [Some (w', e)]
    when [e] is raised out of it in the state [w'].  The entry is a
    certificate from which no name can be taken; it cannot be read, being
    a directory, a file without read permission or a file that is no
    longer there; it is not a certificate; it is a certificate to be
    removed that cannot be unlinked; or its renewal configuration cannot
    be renamed. *)
Inductive file_failure (active_domains : gset string) (w : world) (p : path)
  : option (world * exn) -> Prop :=
| no_dns_names cert e :
    p ∉ dirs w ->
    fs w !! p = Some (Pem cert) ->
    get_dns_names cert = Raise e ->
    file_failure active_domains w p None
| is_directory :
    p ∈ dirs w ->
    file_failure active_domains w p (Some (w, is_a_directory p))
| cannot_read held :
    p ∉ dirs w ->
    fs w !! p = Some (Unreadable held) ->
    file_failure active_domains w p (Some (w, permission_denied p))
| not_there :
    p ∉ dirs w ->
    fs w !! p = None ->
    file_failure active_domains w p (Some (w, no_such_file p))
| not_a_certificate raw errors :
    p ∉ dirs w ->
    fs w !! p = Some (Bytes raw errors) ->
    file_failure active_domains w p (Some (w, mk_exn CryptoError errors))
| cannot_unlink cert :
    p ∉ dirs w ->
    fs w !! p = Some (Pem cert) ->
    orphaned active_domains cert = true ->
    parent_of p ∈ readonly w ->
    file_failure active_domains w p (Some (w, permission_denied p))
| cannot_rename cert d :
    p ∉ dirs w ->
    fs w !! p = Some (Pem cert) ->
    orphaned active_domains cert = true ->
    parent_of p ∉ readonly w ->
    delete p (fs w) !! renewal_config p = Some d ->
    renewal_dir ∈ readonly w ->
    file_failure active_domains w p
      (Some (set_fs w (delete p (fs w)),
             rename_denied (renewal_config p)
                           (with_suffix (renewal_config p) ".disabled"))).

(** The names of a subjectAltName extension, each with its type, and the
    text that pyOpenSSL prints for them: every name as [type:value], the
    names joined by [", "]. *)
Definition san_item (entry : string * string) : string :=
  entry.1 ++ ":" ++ entry.2.

Fixpoint join_comma_space (items : list string) : string :=
  match items with
  | [] => ""
  | [item] => item
  | item :: rest => item ++ ", " ++ join_comma_space rest
  end.

Definition render_san (entries : list (string * string)) : string :=
  join_comma_space (List.map san_item entries).

(** The values of the names of type DNS. *)
Definition dns_values (entries : list (string * string)) : list string :=
  (filter (fun entry => entry.1 = "DNS") entries).*2.

(** [", " in s] *)
Fixpoint has_comma_space (s : string) : bool :=
  match s with
  | String c r =>
      match r with
      | String c2 _ =>
          (bool_decide (c = ","%char) && bool_decide (c2 = " "%char))
          || has_comma_space r
      | EmptyString => false
      end
  | EmptyString => false
  end.

(** A name that is printed as one item [type:value]: no colon in the
    type and the separator [", "] nowhere in the item. *)
Definition plain_entry (entry : string * string) : Prop :=
  contains_char ":" entry.1 = false
  /\ has_comma_space (san_item entry) = false.

(** ** Sample data *)

Definition sample_config : config :=
  mk_config "192.0.2.10" "/etc/haproxy/backend.map" "/etc/haproxy/certs"
            "ops@example.org" false None.

Definition empty_world : world := mk_world ∅ ∅ None [] ∅.

(** The ssl module refuses the empty host name for a context that checks
    host names. *)
Definition wrap_named (anchors : list string) (domain : string) : result unit :=
  if bool_decide (domain = "")
  then Raise (mk_exn ValueError "check_hostname requires server_hostname")
  else Ok tt.

(** An environment given by the lines of the backend map, the resolver
    and the TLS server; the letsencrypt client succeeds and leaves the
    files alone, and the files of trust anchors load. *)
Definition sample_env (lines : list string)
    (dns : string -> result string)
    (tls : list string -> string -> result unit)
    (listing : list string) : env :=
  mk_env (fun _ => Ok lines) dns tls (fun _ f => (f, Ok 0%Z)) (fun _ => listing)
         (fun _ => Ok tt) wrap_named.

(** The same on a machine without the file of system trust anchors. *)
Definition no_ca_bundle : exn :=
  mk_exn FileNotFoundError "[Errno 2] No such file or directory".

Definition env_no_ca (E : env) : env :=
  mk_env (open_lines E) (gethostbyname E) (connect_localhost_443 E)
         (subprocess_run E) (scandir E)
         (fun _ => Raise no_ca_bundle) (wrap_socket E).

(** The text of the errors that OpenSSL reports for bytes without a PEM
    header. *)
Definition no_start_line : string :=
  "[('PEM routines', 'get_name', 'no start line')]".

Definition connection_refused : exn :=
  mk_exn ConnectionRefusedError "[Errno 111] Connection refused".

Definition verify_failed : exn :=
  mk_exn SSLCertVerificationError
         "[SSL: CERTIFICATE_VERIFY_FAILED] certificate verify failed".

(** Every name resolves to the address of [sample_config]. *)
Definition dns_self (domain : string) : result string := Ok "192.0.2.10".

(** The backend map of the scenario: two domains on backend [b1], one on
    [b2]. *)
Definition sample_domains : odict string :=
  [("a.example", "b1"); ("b.example", "b1"); ("c.example", "b2")].

(** Only [a.example] resolves to the server. *)
Definition dns_only_a (domain : string) : result string :=
  if bool_decide (domain = "a.example") then Ok "192.0.2.10"
  else Ok "198.51.100.7".

(** [a.example] resolves to the server; the resolver refuses every other
    name, as it does a name with an empty label. *)
Definition idna_error : exn :=
  mk_exn UnicodeError
    "encoding with 'idna' codec failed (UnicodeError: label empty or too long)".

Definition dns_a_or_error (domain : string) : result string :=
  if bool_decide (domain = "a.example") then Ok "192.0.2.10"
  else Raise idna_error.

Definition domains_bad_name : odict string :=
  [("a.example", "b1"); ("bad..example", "b1")].

(** No valid certificate is served for any name. *)
Definition tls_reject_all (anchors : list string) (domain : string)
  : result unit := Raise verify_failed.

(** A valid certificate is served for [c.example] only. *)
Definition tls_only_c (anchors : list string) (domain : string)
  : result unit :=
  if bool_decide (domain = "c.example") then Ok tt else Raise verify_failed.

(** A certificate for [old.example], which is not in the backend map of
    the scenario, and one for [a.example] and [c.example]. *)
Definition cert_old : x509 :=
  mk_x509 [mk_ext "basicConstraints" ""; mk_ext "subjectAltName" "DNS:old.example"]
          [("CN", Text "old.example")].
Definition cert_a_c : x509 :=
  mk_x509 [mk_ext "subjectAltName" "DNS:a.example, DNS:c.example"] [].

(** A certificate without subjectAltName extension and without Common
    Name. *)
Definition cert_nameless : x509 :=
  mk_x509 [mk_ext "basicConstraints" ""] [("O", Text "Example")].

Definition certs_dir : string := "/etc/haproxy/certs".

(** The certificate directory holds [old.pem], with a renewal
    configuration, and [live.pem]. *)
Definition world_old : world :=
  mk_world {[ (certs_dir, "old.pem") := Pem cert_old;
              (certs_dir, "live.pem") := Pem cert_a_c;
              (renewal_dir, "old.conf") := Bytes "renew old.example" no_start_line ]}
           ∅ None [] ∅.

(** The same with a file [bad.pem] that is not a certificate. *)
Definition world_bad : world :=
  set_fs world_old
         (<[(certs_dir, "bad.pem") := Bytes "garbage" no_start_line]>
            (fs world_old)).

(** The certificate directory with a file [anon.pem] whose certificate
    names nothing. *)
Definition world_nameless : world :=
  set_fs world_old
         (<[(certs_dir, "anon.pem") := Pem cert_nameless]> (fs world_old)).

(** A certificate whose subjectAltName extension has an IP address and
    no DNS name. *)
Definition cert_ip_only : x509 :=
  mk_x509 [mk_ext "subjectAltName" "IP Address:192.0.2.9"]
          [("CN", Text "a.example")].

(** A certificate whose subjectAltName extension has a directory name,
    which is printed with [", "] between its parts, in the certificate
    directory. *)
Definition cert_dirname : x509 :=
  mk_x509 [mk_ext "subjectAltName" "DirName:C = US, O = Example"]
          [("CN", Text "gone.example")].

Definition world_dirname : world :=
  mk_world {[ (certs_dir, "dirname.pem") := Pem cert_dirname ]} ∅ None [] ∅.

(** Two certificates for names that are not in the backend map, each
    with a renewal configuration, where the entries of the renewal
    directory cannot be changed. *)
Definition cert_older : x509 :=
  mk_x509 [mk_ext "subjectAltName" "DNS:older.example"] [].

Definition world_locked : world :=
  mk_world {[ (certs_dir, "old.pem") := Pem cert_old;
              (certs_dir, "older.pem") := Pem cert_older;
              (renewal_dir, "old.conf") := Bytes "renew old.example" no_start_line;
              (renewal_dir, "older.conf") :=
                Bytes "renew older.example" no_start_line ]}
           {[ renewal_dir ]} None [] ∅.

(** ** ArgumentParser.convert_arg_line_to_args *)

(** The word that [s] starts with (empty when [s] starts with white
    space) and the words after it. *)
Fixpoint split_words (s : string) : string * list string :=
  match s with
  | EmptyString => (EmptyString, [])
  | String c r =>
      let '(w, l) := split_words r in
      if isspace c
      then (EmptyString, match w with EmptyString => l | _ => w :: l end)
      else (String c w, l)
  end.

(** [s.split()]: the maximal runs of characters that are not white
    space. *)
Definition split_none (s : string) : list string :=
  let '(w, l) := split_words s in
  match w with EmptyString => l | _ => w :: l end.

Definition convert_arg_line_to_args (arg_line : string) : list string :=
  split_none arg_line.

(** [" ".join(words)] *)
Fixpoint join_space (words : list string) : string :=
  match words with
  | [] => ""
  | [word] => word
  | word :: rest => word ++ " " ++ join_space rest
  end.

(** ** Further notions used in the statements *)

(** [s] without its white space characters. *)
Fixpoint without_space (s : string) : string :=
  match s with
  | String c r => if isspace c then without_space r else String c (without_space r)
  | EmptyString => EmptyString
  end.

(** [s] is a word: not empty and free of white space. *)
Definition is_word (s : string) : Prop := s <> "" /\ has_space s = false.

(** What probing one domain adds to the record of external calls: the
    lookup of the name and, when it resolves to the configured address,
    the TLS connection. *)
Definition probe_events (E : env) (cfg : config) (anchors : list string)
    (domain : string) : list event :=
  Resolve domain ::
  match gethostbyname E domain with
  | Ok ip => if bool_decide (ip = server_ip cfg)
             then [Connect anchors domain] else []
  | Raise _ => []
  end.

(** [s] without its first [n] characters. *)
Fixpoint drop_chars (n : nat) (s : string) : string :=
  match n, s with
  | S n', String _ r => drop_chars n' r
  | _, _ => s
  end.

(** The name that an item of a printed subjectAltName gives: what
    follows ["DNS:"], for an item that begins with it. *)
Definition dns_name (item : string) : option string :=
  if startswith item "DNS:" then Some (drop_chars 4 item) else None.

(** The files that belong to the certificate file [p]: [p] itself, its
    renewal configuration and the disabled renewal configuration. *)
Definition cert_files (p q : path) : Prop :=
  q = p \/ q = renewal_config p \/ q = disabled_config p.

(** Between [w] and [w'] nothing happened but that files among [touched]
    were unlinked or renamed: no external call, the SSL context and the
    permissions as before, every other file as before, every content
    of [w'] a content of [w], and the directories as before. *)
Definition only_touches (touched : path -> Prop) (w w' : world) : Prop :=
  log w' = log w /\ ssl_ctx w' = ssl_ctx w /\ readonly w' = readonly w
  /\ (forall q, ~ touched q -> fs w' !! q = fs w !! q)
  /\ (forall q c, fs w' !! q = Some c -> exists q0, fs w !! q0 = Some c)
  /\ dirs w' = dirs w.

(** * Properties *)

(** ** Exceptions and the monad *)

Lemma issubclass_refl c : issubclass c c = true.
Proof. by destruct c. Qed.

Lemma issubclass_Exception c : issubclass c Exception = true.
Proof. by destruct c. Qed.

Lemma connection_refused_not_ssl :
  issubclass ConnectionRefusedError SSLError = false.
Proof. reflexivity. Qed.

Lemma verification_error_is_ssl :
  issubclass SSLCertVerificationError SSLError = true.
Proof. reflexivity. Qed.

Lemma bind_ok {A B} (m : M A) (k : A -> M B) w w' a :
  m w = (w', Ok a) -> bind m k w = k a w'.
Proof. unfold bind. by intros ->. Qed.

Lemma bind_raise {A B} (m : M A) (k : A -> M B) w w' e :
  m w = (w', Raise e) -> bind m k w = (w', Raise e).
Proof. unfold bind. by intros ->. Qed.

Lemma bind_inv_ok {A B} (m : M A) (k : A -> M B) w w' b :
  bind m k w = (w', Ok b) ->
  exists w1 a, m w = (w1, Ok a) /\ k a w1 = (w', Ok b).
Proof.
  unfold bind. destruct (m w) as [w1 [a|e]]; [eauto | intros [=]].
Qed.

Lemma for_each_app {A} (body : A -> M unit) l1 l2 w :
  for_each body (l1 ++ l2)%list w =
  match for_each body l1 w with
  | (w1, Ok _) => for_each body l2 w1
  | (w1, Raise e) => (w1, Raise e)
  end.
Proof.
  revert w. induction l1 as [|x l1 IH]; intros w; simpl; [done|].
  unfold bind. destruct (body x w) as [w1 [[]|e]]; [apply IH | done].
Qed.

(** ** get_ssl_context *)

(** What [get_ssl_context] does in every case. *)
Lemma get_ssl_context_run (E : env) cfg w :
  get_ssl_context E cfg w =
  match ssl_ctx w with
  | Some ctx => (w, Ok ctx)
  | None =>
      match load_verify_locations E system_ca_bundle with
      | Raise e => (set_ctx w (Some []), Raise e)
      | Ok _ =>
          match letsencrypt_use_staging cfg, letsencrypt_fake_cert cfg with
          | true, Some fake =>
              match load_verify_locations E fake with
              | Raise e => (set_ctx w (Some [system_ca_bundle]), Raise e)
              | Ok _ => (set_ctx w (Some [system_ca_bundle; fake]),
                         Ok [system_ca_bundle; fake])
              end
          | _, _ => (set_ctx w (Some [system_ca_bundle]), Ok [system_ca_bundle])
          end
      end
  end.
Proof.
  unfold get_ssl_context, bind, load_into_ctx, ret.
  destruct (ssl_ctx w) as [ctx|]; [done|]. simpl.
  destruct (load_verify_locations E system_ca_bundle) as [[]|e]; [|done]. simpl.
  destruct (letsencrypt_use_staging cfg); [|done].
  destruct (letsencrypt_fake_cert cfg) as [fake|]; [|done]. simpl.
  by destruct (load_verify_locations E fake) as [[]|e].
Qed.

Lemma get_ssl_context_frame (E : env) cfg w w1 r :
  get_ssl_context E cfg w = (w1, r) ->
  fs w1 = fs w /\ readonly w1 = readonly w /\ log w1 = log w
  /\ dirs w1 = dirs w
  /\ is_Some (ssl_ctx w1)
  /\ forall a, r = Ok a ->
       ssl_ctx w1 = Some a /\ a = trust_anchors cfg None w.
Proof.
  rewrite get_ssl_context_run. unfold trust_anchors.
  destruct (ssl_ctx w) as [ctx|] eqn:Hctx.
  { intros [= <- <-]. split_and!; try done. by intros a [= <-]. }
  destruct (load_verify_locations E system_ca_bundle) as [[]|e].
  2:{ intros [= <- <-]. by split_and!. }
  destruct (letsencrypt_use_staging cfg);
    [destruct (letsencrypt_fake_cert cfg) as [fake|];
     [destruct (load_verify_locations E fake) as [[]|e]|]|];
    intros [= <- <-]; split_and!; try done; by intros a [= <-].
Qed.

(** Once a context is memoised, every call returns it and changes
    nothing. *)
Lemma get_ssl_context_memo (E : env) cfg w ctx :
  ssl_ctx w = Some ctx -> get_ssl_context E cfg w = (w, Ok ctx).
Proof. intros H. by rewrite get_ssl_context_run, H. Qed.

(** ** has_valid_cert *)

(** What [has_valid_cert] does once it has a context. *)
Lemma has_valid_cert_run (E : env) cfg domain ctx w :
  has_valid_cert E cfg domain ctx w =
  match (match ctx with
         | Some c => (w, Ok c)
         | None => get_ssl_context E cfg w
         end) with
  | (w0, Raise e) => (w0, Raise e)
  | (w0, Ok a) =>
      match wrap_socket E a domain with
      | Raise e => (w0, Raise e)
      | Ok _ =>
          (add_event w0 (Connect a domain),
           match connect_localhost_443 E a domain with
           | Ok _ => Ok true
           | Raise e => if isinstance e SSLError then Ok false else Raise e
           end)
      end
  end.
Proof.
  unfold has_valid_cert, bind at 1.
  destruct ctx as [c|]; [unfold ret at 1|];
    [|destruct (get_ssl_context E cfg w) as [w0 [a|e]]; [|done]];
    unfold bind, wrap, lift, try_except, connect, ret;
    (destruct (wrap_socket E _ domain) as [[]|e]; [|done]);
    (destruct (connect_localhost_443 E _ domain) as [[]|e]; [done|]);
    by destruct (isinstance e SSLError).
Qed.

Lemma has_valid_cert_result (E : env) cfg domain ctx w :
  (has_valid_cert E cfg domain ctx w).2
  = live_check E (context_for E cfg ctx w) domain.
Proof.
  rewrite has_valid_cert_run. unfold live_check, context_for.
  destruct ctx as [c|]; [|destruct (get_ssl_context E cfg w) as [w0 [c|e]]; [|done]];
    simpl; by destruct (wrap_socket E c domain) as [[]|e].
Qed.

Lemma context_for_ok (E : env) cfg ctx w a :
  context_for E cfg ctx w = Ok a -> a = trust_anchors cfg ctx w.
Proof.
  unfold context_for. destruct ctx as [c|]; [by intros [= <-]|].
  destruct (get_ssl_context E cfg w) as [w1 r] eqn:Hrun. simpl. intros ->.
  by destruct (get_ssl_context_frame _ _ _ _ _ Hrun)
    as (_ & _ & _ & _ & _ & H); destruct (H a eq_refl).
Qed.

(** C3, as amended.  [has_valid_cert] answers [True] exactly when it has
    a context, the socket is wrapped and the connection with the
    verifying context is set up; it answers [False] exactly when, with
    the context there and the socket wrapped, setting up the connection
    raises an [ssl.SSLError] (which is what a certificate that is
    expired, issued for another name or by an untrusted issuer gives);
    and every other exception goes through to its caller: that of making
    the context, that of wrapping the socket, and that of a connection
    which fails with something else than an [ssl.SSLError].  The context
    it has, if any, holds the trust anchors of the one passed in, else of
    the memoised one, else of a fresh one. *)
Theorem has_valid_cert_outcomes (E : env) cfg domain ctx w :
  let r := (has_valid_cert E cfg domain ctx w).2 in
  let context := context_for E cfg ctx w in
  (r = Ok true <->
   exists a, attempted E context domain a
             /\ connect_localhost_443 E a domain = Ok tt)
  /\ (r = Ok false <->
      exists a, attempted E context domain a /\ handshake_rejected E a domain)
  /\ (forall e,
        r = Raise e <->
        context = Raise e
        \/ (exists a, context = Ok a /\ wrap_socket E a domain = Raise e)
        \/ (exists a, attempted E context domain a
                      /\ connect_localhost_443 E a domain = Raise e
                      /\ isinstance e SSLError = false))
  /\ (forall a, context = Ok a -> a = trust_anchors cfg ctx w).
Proof.
  cbv zeta. rewrite has_valid_cert_result.
  split; [|split; [|split; [|intros a; apply context_for_ok]]];
    unfold live_check, attempted, handshake_rejected;
    destruct (context_for E cfg ctx w) as [a|e0].
  - destruct (wrap_socket E a domain) as [[]|e1] eqn:Hwrap.
    + destruct (connect_localhost_443 E a domain) as [[]|e2] eqn:Htls.
      * split; [|done]. intros _. by exists a.
      * split; [by destruct (isinstance e2 SSLError)|].
        intros (a' & [[= <-] _] & ?). congruence.
    + split; [done|]. intros (a' & [[= <-] ?] & _). congruence.
  - split; [done|]. by intros (a' & [? _] & _).
  - destruct (wrap_socket E a domain) as [[]|e1] eqn:Hwrap.
    + destruct (connect_localhost_443 E a domain) as [[]|e2] eqn:Htls.
      * split; [done|]. intros (a' & [[= <-] _] & e & ? & _). congruence.
      * destruct (isinstance e2 SSLError) eqn:Hi.
        -- split; [|done]. intros _. exists a. split; [done|]. by exists e2.
        -- split; [done|].
           intros (a' & [[= <-] _] & e & He & ?). congruence.
    + split; [done|]. intros (a' & [[= <-] ?] & _). congruence.
  - split; [done|]. by intros (a' & [? _] & _).
  - intros e. destruct (wrap_socket E a domain) as [[]|e1] eqn:Hwrap.
    + destruct (connect_localhost_443 E a domain) as [[]|e2] eqn:Htls.
      * split; [done|].
        intros [?|[(a' & [= <-] & ?)|(a' & [[= <-] _] & ? & _)]]; congruence.
      * destruct (isinstance e2 SSLError) eqn:Hi.
        -- split; [done|].
           intros [?|[(a' & [= <-] & ?)|(a' & [[= <-] _] & ? & ?)]];
             congruence.
        -- split.
           ++ intros [= <-]. right. right. by exists a.
           ++ intros [?|[(a' & [= <-] & ?)|(a' & [[= <-] _] & ? & ?)]];
                congruence.
    + split.
      * intros [= <-]. right. left. by exists a.
      * intros [?|[(a' & [= <-] & ?)|(a' & [[= <-] ?] & _)]]; congruence.
  - intros e. split.
    + intros [= <-]. by left.
    + intros [[= <-]|[(a' & ? & _)|(a' & [? _] & _)]]; done.
Qed.

(** C3 as stated fails: a refused connection is an exception of the
    caller, not the answer [False]. *)
Lemma has_valid_cert_connection_refused :
  has_valid_cert
    (sample_env [] dns_self (fun _ _ => Raise connection_refused) [])
    sample_config "a.example" None empty_world
  = (mk_world ∅ ∅ (Some [system_ca_bundle])
       [Connect [system_ca_bundle] "a.example"] ∅,
     Raise connection_refused).
Proof. reflexivity. Qed.

(** ** get_all_domains: failures *)

Lemma add_lines_app d l1 l2 :
  add_lines d (l1 ++ l2)%list =
  match add_lines d l1 with
  | Ok d' => add_lines d' l2
  | Raise e => Raise e
  end.
Proof.
  revert d. induction l1 as [|x l1 IH]; intros d; simpl; [done|].
  destruct (add_line d x); [apply IH | done].
Qed.

Lemma span_word_no_space s : has_space s = false -> span_word s = (s, "").
Proof.
  induction s as [|c r IH]; simpl; [done|].
  intros [Hc Hr]%orb_false_elim. rewrite Hc, (IH Hr). done.
Qed.

Lemma lstrip_no_space s : has_space s = false -> lstrip s = s.
Proof. destruct s as [|c r]; simpl; [done|]. by intros [-> _]%orb_false_elim. Qed.

Lemma split_none_1_no_space s :
  s <> "" -> has_space s = false -> split_none_1 s = [s].
Proof.
  intros Hne Hs. unfold split_none_1. rewrite (lstrip_no_space _ Hs).
  destruct s as [|c r]; [done|]. by rewrite (span_word_no_space _ Hs).
Qed.

Lemma add_line_no_separator d line :
  no_separator line -> add_line d line = Raise (unpack_error 1).
Proof.
  intros (Hne & Hhash & Hsp). unfold add_line.
  rewrite bool_decide_eq_false_2, Hhash by done. simpl.
  by rewrite (split_none_1_no_space _ Hne Hsp).
Qed.

Lemma get_all_domains_pure (E : env) cfg w :
  get_all_domains E cfg w =
  (w, match open_lines E (haproxy_backend_map cfg) with
      | Ok lines => add_lines [] lines
      | Raise e => Raise e
      end).
Proof.
  unfold get_all_domains, bind, lift.
  by destruct (open_lines E (haproxy_backend_map cfg)).
Qed.

Lemma load_failure_raises (E : env) cfg e w :
  load_failure E cfg e -> get_all_domains E cfg w = (w, Raise e).
Proof.
  rewrite get_all_domains_pure.
  intros [e' -> | before line after -> Hok Hline]; [done|].
  rewrite add_lines_app. destruct (add_lines [] before) as [d|]; [|done].
  simpl. by rewrite (add_line_no_separator _ _ Hline).
Qed.

(** C5, as amended.  When the backend map cannot be opened the exception
    of [open] (an [OSError]) leaves [main], and when a line has no white
    space between a domain and a backend the [ValueError] of the failed
    unpacking does, with a message that does not name the line.  Either
    way [main] ends there: no name has been resolved, no connection
    opened, no command run and no file changed. *)
Theorem main_load_failure (E : env) cfg w e :
  load_failure E cfg e -> main E cfg w = (w, Raise e).
Proof.
  intros H. unfold main. by apply bind_raise, load_failure_raises.
Qed.

Lemma main_load_failure_witness :
  no_separator "a.example"
  /\ main (sample_env ["b.example b1"; "a.example"] dns_self (fun _ _ => Ok tt) [])
          sample_config empty_world
     = (empty_world, Raise (unpack_error 1)).
Proof.
  assert (H : no_separator "a.example") by (by repeat split).
  split; [exact H|].
  apply main_load_failure.
  by apply (malformed_line _ _ ["b.example b1"] "a.example" []).
Defined.

(** C5 as stated fails: the exception for a line without separator is the
    same [ValueError] whatever the line is, so the line at fault cannot be
    read off it. *)
Lemma malformed_line_not_identified :
  ~ exists line_of : exn -> string,
      forall line e,
        no_separator line ->
        (main (sample_env [line] dns_self (fun _ _ => Ok tt) [])
              sample_config empty_world).2 = Raise e ->
        line_of e = line.
Proof.
  intros [line_of H].
  assert (Ha : line_of (unpack_error 1) = "a.example")
    by (apply H; [by repeat split | reflexivity]).
  assert (Hb : line_of (unpack_error 1) = "b.example")
    by (apply H; [by repeat split | reflexivity]).
  congruence.
Qed.

(** ** get_all_domains: the mapping *)

Lemma append_cons c (a b : string) : String c a ++ b = String c (a ++ b).
Proof. reflexivity. Qed.

Lemma append_nil_l (b : string) : "" ++ b = b.
Proof. reflexivity. Qed.

Lemma lstrip_all_space s : all_space s = true -> lstrip s = "".
Proof.
  induction s as [|c r IH]; simpl; [done|].
  intros [-> Hr]%andb_prop. by apply IH.
Qed.

Lemma lstrip_head s :
  lstrip s = "" \/ exists c r, lstrip s = String c r /\ isspace c = false.
Proof.
  induction s as [|c r IH]; simpl; [by left|].
  destruct (isspace c) eqn:Hc; [done|]. right. by exists c, r.
Qed.

Lemma rstrip_head c r :
  isspace c = false -> exists r', rstrip (String c r) = String c r'.
Proof. intros Hc. simpl. rewrite Hc. destruct (rstrip r); eauto. Qed.

Lemma strip_head line :
  strip line = "" \/ exists c r, strip line = String c r /\ isspace c = false.
Proof.
  unfold strip. destruct (lstrip_head line) as [-> | (c & r & -> & Hc)].
  - by left.
  - right. destruct (rstrip_head c r Hc) as [r' ->]. by exists c, r'.
Qed.

Lemma lstrip_strip line : lstrip (strip line) = strip line.
Proof.
  destruct (strip_head line) as [-> | (c & r & -> & Hc)]; [done|].
  simpl. by rewrite Hc.
Qed.

Lemma strip_blank line : all_space line = true -> strip line = "".
Proof. intros H. unfold strip. by rewrite (lstrip_all_space _ H). Qed.

Lemma strip_comment line :
  startswith line "#" = true -> startswith (strip line) "#" = true.
Proof.
  destruct line as [|c r]; simpl; [done|].
  intros [<-%bool_decide_eq_true _]%andb_prop.
  unfold strip. simpl. destruct (rstrip r); done.
Qed.

Lemma span_word_spec s w rest :
  span_word s = (w, rest) ->
  s = w ++ rest /\ has_space w = false
  /\ (rest = "" \/ exists c r, rest = String c r /\ isspace c = true).
Proof.
  revert w rest. induction s as [|c r IH]; intros w rest; simpl.
  - intros [= <- <-]. auto.
  - destruct (isspace c) eqn:Hc.
    + intros [= <- <-]. split; [done|]. split; [done|]. right. eauto.
    + destruct (span_word r) as [w' rest'] eqn:Hs. intros [= <- <-].
      destruct (IH _ _ eq_refl) as (-> & Hw & Hrest).
      split; [done|]. split; [|done]. simpl. by rewrite Hc.
Qed.

Lemma lstrip_spec s :
  exists ws, s = ws ++ lstrip s /\ all_space ws = true.
Proof.
  induction s as [|c r IH]; simpl; [by exists ""|].
  destruct (isspace c) eqn:Hc.
  - destruct IH as (ws & Hr & Hws). exists (String c ws). simpl.
    rewrite Hc, Hws. split; [|done]. rewrite append_cons. by f_equal.
  - by exists "".
Qed.

Lemma lstrip_idemp s : lstrip (lstrip s) = lstrip s.
Proof.
  destruct (lstrip_head s) as [-> | (c & r & -> & Hc)]; [done|].
  simpl. by rewrite Hc.
Qed.

Lemma span_word_app w rest :
  has_space w = false ->
  (rest = "" \/ exists c r, rest = String c r /\ isspace c = true) ->
  span_word (w ++ rest) = (w, rest).
Proof.
  intros Hw Hrest. induction w as [|c w IH]; simpl in *.
  - destruct Hrest as [-> | (c & r & -> & Hc)]; simpl; [done|]. by rewrite Hc.
  - apply orb_false_elim in Hw as [Hc Hw]. rewrite Hc, (IH Hw). done.
Qed.

Lemma lstrip_app ws s :
  all_space ws = true -> lstrip (ws ++ s) = lstrip s.
Proof.
  induction ws as [|c ws IH]; simpl; [done|].
  intros [-> Hws]%andb_prop. by apply IH.
Qed.

Lemma lstrip_length s : String.length (lstrip s) <= String.length s.
Proof.
  induction s as [|c r IH]; simpl; [lia|].
  destruct (isspace c); simpl; lia.
Qed.

Lemma lstrip_fixed_head c r : isspace c = true -> lstrip (String c r) <> String c r.
Proof.
  intros Hc H. simpl in H. rewrite Hc in H.
  pose proof (lstrip_length r) as Hlen. rewrite H in Hlen. simpl in Hlen. lia.
Qed.

Lemma split_none_1_spec s domain backend :
  s <> "" -> lstrip s = s ->
  split_none_1 s = [domain; backend] <-> first_ws_split s domain backend.
Proof.
  intros Hne Hl. unfold split_none_1. rewrite Hl. split.
  - destruct s as [|c0 r0] eqn:Hs; [done|]. rewrite <- Hs in *.
    destruct (span_word s) as [w rest] eqn:Hsp.
    destruct (span_word_spec _ _ _ Hsp) as (Hcat & Hw & Hrest).
    destruct (lstrip rest) as [|c1 r1] eqn:Hlr; [by intros [=]|].
    intros [= <- <-].
    destruct (lstrip_spec rest) as (ws & Hr & Hws). rewrite Hlr in Hr.
    exists ws. split; [rewrite Hcat at 1; by f_equal|].
    split.
    { intros ->. rewrite append_nil_l in Hcat.
      destruct Hrest as [Hrest | (c & r & Hcr & Hc)]; [congruence|].
      rewrite Hcat, Hcr in Hl. by apply lstrip_fixed_head in Hl. }
    split; [done|]. split.
    { intros ->. rewrite append_nil_l in Hr.
      destruct Hrest as [Hrest | (c & r & Hcr & Hc)]; [congruence|].
      rewrite Hcr in Hlr, Hr. rewrite <- Hr in Hlr.
      by apply lstrip_fixed_head in Hlr. }
    split; [done|]. split; [done|].
    rewrite <- Hlr. apply lstrip_idemp.
  - intros (ws & -> & Hd & Hsd & Hws & Hall & Hb & Hlb).
    destruct (domain ++ ws ++ backend) as [|c0 r0] eqn:Hs; [done|].
    rewrite <- Hs.
    rewrite (span_word_app domain (ws ++ backend) Hsd).
    + rewrite (lstrip_app _ _ Hall), Hlb. by destruct backend.
    + right. destruct ws as [|c ws]; [done|]. rewrite append_cons.
      simpl in Hall. apply andb_prop in Hall as [Hc _]. eauto.
Qed.

Lemma line_entry_spec line domain backend :
  line_entry line = Some (domain, backend) <-> entry line domain backend.
Proof.
  unfold line_entry, entry.
  destruct (bool_decide_reflect (strip line = "")) as [He|Hne]; simpl.
  { split; [done | by intros [? _]]. }
  destruct (startswith (strip line) "#") eqn:Hhash; simpl.
  { split; [done | by intros (_ & ? & _)]. }
  rewrite <- (split_none_1_spec _ _ _ Hne (lstrip_strip line)).
  split.
  - destruct (split_none_1 (strip line)) as [|a [|b [|? ?]]]; try done.
    by intros [= -> ->].
  - by intros (_ & _ & ->).
Qed.

Lemma add_line_entry d line d' :
  add_line d line = Ok d' ->
  match line_entry line with
  | Some (domain, backend) => d' = od_set d domain backend
  | None => d' = d
  end.
Proof.
  unfold add_line, line_entry.
  destruct (negb (bool_decide (strip line = "")) && negb (startswith (strip line) "#"));
    [|by intros [= <-]].
  destruct (split_none_1 (strip line)) as [|a [|b [|? ?]]]; simpl; try done.
  by intros [= <-].
Qed.

Lemma od_get_set {V} (d : odict V) k v k' :
  od_get (od_set d k v) k' = if bool_decide (k = k') then Some v else od_get d k'.
Proof.
  induction d as [|[k0 v0] d IH]; simpl.
  - done.
  - destruct (bool_decide_reflect (k0 = k)) as [->|Hne]; simpl.
    + by destruct (bool_decide_reflect (k = k')).
    + rewrite IH. destruct (bool_decide_reflect (k0 = k')) as [->|?]; [|done].
      by rewrite bool_decide_eq_false_2 by done.
Qed.

Lemma add_lines_get d0 lines d k :
  add_lines d0 lines = Ok d ->
  od_get d k = match last_entry lines k with
               | Some b => Some b
               | None => od_get d0 k
               end.
Proof.
  revert d0. induction lines as [|line rest IH]; intros d0; simpl.
  - by intros [= <-].
  - destruct (add_line d0 line) as [d1|] eqn:Hline; [|done].
    intros Hrest. rewrite (IH _ Hrest).
    destruct (last_entry rest k); [done|].
    apply add_line_entry in Hline.
    destruct (line_entry line) as [[dom b]|]; subst d1; [|done].
    rewrite od_get_set. by destruct (bool_decide (dom = k)).
Qed.

Lemma last_entry_later l1 l l2 k b :
  line_entry l = Some (k, b) -> last_entry (l1 ++ l :: l2) k <> None.
Proof.
  intros Hl. induction l1 as [|y l1 IH]; simpl.
  - destruct (last_entry l2 k); [done|]. rewrite Hl.
    by rewrite bool_decide_eq_true_2.
  - by destruct (last_entry (l1 ++ l :: l2) k).
Qed.

Lemma last_entry_spec lines k b :
  last_entry lines k = Some b <->
  exists before line after,
    lines = (before ++ line :: after)%list
    /\ line_entry line = Some (k, b)
    /\ forall l b', l ∈ after -> line_entry l <> Some (k, b').
Proof.
  revert b. induction lines as [|x rest IH]; intros b; simpl.
  - split; [done|]. intros (before & ? & ? & H & _). by destruct before.
  - split.
    + destruct (last_entry rest k) as [b0|] eqn:Hlast.
      * intros [= ->].
        destruct (proj1 (IH b) eq_refl) as (before & line & after & -> & ? & ?).
        by exists (x :: before), line, after.
      * intros Hx. exists [], x, rest. split; [done|].
        destruct (line_entry x) as [[d b1]|]; [|done].
        destruct (bool_decide_reflect (d = k)) as [->|]; [|done].
        injection Hx as ->. split; [done|].
        intros l b' (l1 & l2 & ->)%list_elem_of_split Hl.
        by apply (last_entry_later l1 l l2) in Hl.
    + intros (before & line & after & Heq & Hline & Hafter).
      destruct before as [|y before]; simpl in Heq; injection Heq as -> ->.
      * destruct (last_entry after k) as [b0|] eqn:Hlast.
        -- destruct (proj1 (IH b0) eq_refl) as (? & l & ? & Heq & Hl & _).
           exfalso. eapply Hafter; [|done]. rewrite Heq.
           apply elem_of_app. right. by left.
        -- rewrite Hline. by rewrite bool_decide_eq_true_2.
      * assert (last_entry (before ++ line :: after) k = Some b) as ->; [|done].
        apply IH. eauto 10.
Qed.

(** C7.  Loading the backend map leaves a line that is blank or begins
    with ["#"] out; of the other lines, taken without the white space
    around them, each is cut at its first run of white space into a
    domain and a backend; and the mapping gives a domain the backend of
    the last line that names it. *)
Theorem get_all_domains_mapping :
  (forall d line,
     all_space line = true \/ startswith line "#" = true ->
     add_line d line = Ok d)
  /\ (forall lines domains,
        add_lines [] lines = Ok domains ->
        forall k b,
          od_get domains k = Some b <->
          exists before line after,
            lines = (before ++ line :: after)%list
            /\ entry line k b
            /\ forall l b', l ∈ after -> ~ entry l k b').
Proof.
  split.
  - intros d line H. unfold add_line.
    destruct H as [H%strip_blank | H%strip_comment].
    + by rewrite H.
    + rewrite H. by rewrite andb_false_r.
  - intros lines domains Hload k b.
    rewrite (add_lines_get _ _ _ k Hload). simpl.
    assert (Hiff : last_entry lines k = Some b <->
                   match last_entry lines k with
                   | Some b0 => Some b0 | None => None end = Some b)
      by (by destruct (last_entry lines k)).
    rewrite <- Hiff, last_entry_spec.
    split; intros (before & line & after & -> & Hline & Hafter);
      exists before, line, after; (split; [done|]); split.
    + by apply line_entry_spec.
    + intros l b' Hl He%line_entry_spec. by eapply Hafter.
    + by apply line_entry_spec.
    + intros l b' Hl He%line_entry_spec. by eapply Hafter.
Qed.

Lemma get_all_domains_mapping_witness :
  od_get [("a.example", "b2"); ("b.example", "b1")] "a.example" = Some "b2"
  <-> exists before line after,
        ["a.example b1"; ""; "# note"; "b.example  b1"; "a.example b2"]
          = (before ++ line :: after)%list
        /\ entry line "a.example" "b2"
        /\ forall l b', l ∈ after -> ~ entry l "a.example" b'.
Proof.
  apply (proj2 get_all_domains_mapping
           ["a.example b1"; ""; "# note"; "b.example  b1"; "a.example b2"]).
  reflexivity.
Defined.

(** ** get_certless_domains *)

Lemma has_valid_dns_record_run (E : env) cfg domain w :
  has_valid_dns_record E cfg domain w =
    (add_event w (Resolve domain),
     match gethostbyname E domain with
     | Ok ip => Ok (bool_decide (ip = server_ip cfg))
     | Raise e => if isinstance e gaierror then Ok false else Raise e
     end).
Proof.
  unfold has_valid_dns_record, bind, try_except, ret.
  destruct (gethostbyname E domain) as [ip|e]; [done|].
  by destruct (isinstance e gaierror).
Qed.

Lemma add_event_anchors cfg w ev :
  trust_anchors cfg None (add_event w ev) = trust_anchors cfg None w.
Proof. reflexivity. Qed.

Lemma commands_run_probe w w' ev :
  log w' = (log w ++ [ev])%list ->
  match ev with Run _ => False | _ => True end ->
  commands_run w' = commands_run w.
Proof.
  unfold commands_run. intros -> Hev. rewrite omap_app.
  destruct ev; [| |done]; simpl; by rewrite app_nil_r.
Qed.

Lemma probe_frame_refl w : probe_frame w w.
Proof. by repeat split. Qed.

Lemma probe_frame_trans w1 w2 w3 :
  probe_frame w1 w2 -> probe_frame w2 w3 -> probe_frame w1 w3.
Proof.
  intros (? & ? & ? & ?) (? & ? & ? & ?). repeat split; congruence.
Qed.

Lemma probe_frame_event w ev :
  match ev with Run _ => False | _ => True end ->
  probe_frame w (add_event w ev).
Proof.
  intros Hev. repeat split. by apply (commands_run_probe _ _ ev).
Qed.

Lemma probe_frame_context (E : env) cfg w w1 r :
  get_ssl_context E cfg w = (w1, r) -> probe_frame w w1.
Proof.
  intros (Hfs & Hro & Hlog & Hdirs & _)%get_ssl_context_frame.
  repeat split; try done. unfold commands_run. by rewrite Hlog.
Qed.

(** What [get_ssl_context] answers depends on the memoised context
    only. *)
Lemma get_ssl_context_same (E : env) cfg w w' :
  ssl_ctx w' = ssl_ctx w ->
  (get_ssl_context E cfg w').2 = (get_ssl_context E cfg w).2.
Proof.
  intros H. rewrite !get_ssl_context_run, H.
  destruct (ssl_ctx w); [done|].
  destruct (load_verify_locations E system_ca_bundle) as [[]|e]; [|done].
  destruct (letsencrypt_use_staging cfg); [|done].
  destruct (letsencrypt_fake_cert cfg) as [fake|]; [|done].
  by destruct (load_verify_locations E fake) as [[]|e].
Qed.

Lemma same_context_ctx (E : env) cfg w w1 :
  ssl_ctx w1 = ssl_ctx w -> same_context E cfg w w1.
Proof.
  intros H. split; [by apply get_ssl_context_same|].
  unfold trust_anchors. by rewrite H.
Qed.

Lemma same_context_trans (E : env) cfg w1 w2 w3 :
  same_context E cfg w1 w2 -> same_context E cfg w2 w3 ->
  same_context E cfg w1 w3.
Proof. intros [? ?] [? ?]. split; congruence. Qed.

Lemma has_valid_cert_step (E : env) cfg domain w w1 r :
  has_valid_cert E cfg domain None w = (w1, r) ->
  probe_frame w w1
  /\ r = live_check E (get_ssl_context E cfg w).2 domain
  /\ (forall valid,
        r = Ok valid ->
        same_context E cfg w w1
        /\ log w1 = (log w ++ [Connect (trust_anchors cfg None w) domain])%list)
  /\ (forall anchors d,
        Connect anchors d ∈ log w1 -> Connect anchors d ∈ log w \/ d = domain).
Proof.
  intros Hrun.
  pose proof (has_valid_cert_result E cfg domain None w) as Hres.
  rewrite Hrun in Hres. simpl in Hres. unfold context_for in Hres.
  rewrite has_valid_cert_run in Hrun.
  destruct (get_ssl_context E cfg w) as [w0 [a|e]] eqn:Hctx.
  2:{ injection Hrun as <- <-.
      destruct (get_ssl_context_frame _ _ _ _ _ Hctx) as (_ & _ & Hlog & _).
      split_and!; [by eapply probe_frame_context|done|done|].
      intros anchors d. rewrite Hlog. by left. }
  destruct (get_ssl_context_frame _ _ _ _ _ Hctx)
    as (_ & _ & Hlog & _ & _ & Ha).
  destruct (Ha a eq_refl) as [Hmemo ->].
  pose proof (probe_frame_context _ _ _ _ _ Hctx) as Hfr.
  assert (same_context E cfg w w0) as Hsame.
  { split.
    - by rewrite (get_ssl_context_memo _ _ _ _ Hmemo), Hctx.
    - unfold trust_anchors at 1. by rewrite Hmemo. }
  destruct (wrap_socket E (trust_anchors cfg None w) domain) as [[]|e].
  2:{ injection Hrun as <- <-. split_and!; [done|done|done|].
      intros anchors d. rewrite Hlog. by left. }
  injection Hrun as <- <-. split_and!; [|done| |].
  - apply (probe_frame_trans _ _ _ Hfr).
    by apply (probe_frame_event w0 (Connect _ domain)).
  - intros valid _. split; [|by simpl; rewrite Hlog].
    apply (same_context_trans _ _ _ _ _ Hsame). by apply same_context_ctx.
  - intros anchors d. simpl. rewrite Hlog.
    intros [?|[= _ <-]%list_elem_of_singleton]%elem_of_app; auto.
Qed.

Lemma certless_condition_step (E : env) cfg domain w w1 r :
  certless_condition E cfg domain w = (w1, r) ->
  probe_frame w w1
  /\ r = needs_certificate E cfg (get_ssl_context E cfg w).2 domain
  /\ (forall keep,
        r = Ok keep ->
        same_context E cfg w w1
        /\ log w1 =
           (log w ++ probe_events E cfg (trust_anchors cfg None w) domain)%list)
  /\ (forall anchors d,
        Connect anchors d ∈ log w1 ->
        Connect anchors d ∈ log w
        \/ (d = domain /\ resolves_to_self E cfg domain)).
Proof.
  unfold certless_condition, bind. rewrite has_valid_dns_record_run.
  unfold needs_certificate, probe_events, resolves_to_self.
  pose proof (probe_frame_event w (Resolve domain) I) as Hres.
  assert (forall anchors d,
            Connect anchors d ∈ log (add_event w (Resolve domain)) ->
            Connect anchors d ∈ log w) as Hold.
  { intros anchors d. simpl.
    by intros [?|[=]%list_elem_of_singleton]%elem_of_app. }
  assert (same_context E cfg w (add_event w (Resolve domain))) as Hsame
    by (by apply same_context_ctx).
  destruct (gethostbyname E domain) as [ip|e].
  2:{ destruct (isinstance e gaierror); intros [= <- <-];
        (split_and!; [done|done| |by left; apply Hold]);
        [by intros keep _|done]. }
  destruct (bool_decide_reflect (ip = server_ip cfg)) as [->|Hne].
  2:{ intros [= <- <-]. split_and!; [done|done| |by left; apply Hold].
      by intros keep _. }
  destruct (has_valid_cert E cfg domain None (add_event w (Resolve domain)))
    as [w2 r2] eqn:Hcert.
  destruct (has_valid_cert_step _ _ _ _ _ _ Hcert) as (Hfr & Hr2 & Hok & Hconn).
  rewrite (proj1 Hsame) in Hr2.
  assert (probe_frame w w2) as Hfr' by (by apply (probe_frame_trans _ _ _ Hres)).
  assert (forall anchors d,
            Connect anchors d ∈ log w2 ->
            Connect anchors d ∈ log w \/ d = domain /\ Ok (server_ip cfg)
                                                     = Ok (server_ip cfg)) as Hc.
  { intros anchors d [?%Hold| ->]%Hconn; auto. }
  destruct r2 as [valid|e]; intros [= <- <-]; rewrite <- Hr2;
    (split_and!; [done|done| |done]); [|done].
  intros keep _. destruct (Hok valid eq_refl) as [Hsame2 Hlog].
  split; [by apply (same_context_trans _ _ _ _ _ Hsame)|].
  rewrite Hlog, add_event_anchors. simpl. by rewrite <- app_assoc.
Qed.

Lemma certless_condition_result (E : env) cfg domain w :
  (certless_condition E cfg domain w).2
  = needs_certificate E cfg (get_ssl_context E cfg w).2 domain.
Proof.
  destruct (certless_condition E cfg domain w) as [w1 r] eqn:Hrun.
  by destruct (certless_condition_step _ _ _ _ _ _ Hrun) as (_ & ? & _).
Qed.

Lemma certless_run (E : env) cfg domains w w' r :
  certless E cfg domains w = (w', r) ->
  probe_frame w w'
  /\ r = select_certless E cfg (get_ssl_context E cfg w).2 domains
  /\ (forall l,
        r = Ok l ->
        log w' =
        (log w ++ concat (List.map (probe_events E cfg (trust_anchors cfg None w))
                                   domains))%list)
  /\ (forall anchors d,
        Connect anchors d ∈ log w' ->
        Connect anchors d ∈ log w
        \/ (d ∈ domains /\ resolves_to_self E cfg d)).
Proof.
  revert w w' r. induction domains as [|domain rest IH]; intros w w' r;
    cbn [certless select_certless].
  { intros [= <- <-]. split_and!; [apply probe_frame_refl|done| |by left].
    intros l _. simpl. by rewrite app_nil_r. }
  unfold bind at 1.
  destruct (certless_condition E cfg domain w) as [w1 r1] eqn:Hc.
  destruct (certless_condition_step _ _ _ _ _ _ Hc) as (Hfr1 & Hr1 & Hok1 & Hconn1).
  rewrite <- Hr1.
  assert (forall anchors d,
            Connect anchors d ∈ log w1 ->
            Connect anchors d ∈ log w
            \/ (d ∈ domain :: rest /\ resolves_to_self E cfg d)) as Hc1.
  { intros anchors d [?|[-> ?]]%Hconn1; [by left|right].
    split; [apply elem_of_cons; by left | done]. }
  destruct r1 as [keep|e]; [|by intros [= <- <-]].
  destruct (Hok1 keep eq_refl) as [[Hctx Hanch] Hlog1].
  unfold bind at 1.
  destruct (certless E cfg rest w1) as [w2 r2] eqn:Hrest.
  destruct (IH _ _ _ Hrest) as (Hfr2 & Hr2 & Hok2 & Hconn2).
  rewrite Hctx in Hr2. rewrite <- Hr2.
  assert (probe_frame w w2) as Hfr by (by apply (probe_frame_trans _ w1)).
  assert (forall anchors d,
            Connect anchors d ∈ log w2 ->
            Connect anchors d ∈ log w
            \/ (d ∈ domain :: rest /\ resolves_to_self E cfg d)) as Hc2.
  { intros anchors d [?%Hc1|[? ?]]%Hconn2; [done|right].
    split; [apply elem_of_cons; by right | done]. }
  destruct r2 as [tail|e]; intros [= <- <-]; (split_and!; [done|done| |done]);
    [|done].
  intros l _. rewrite (Hok2 tail eq_refl), Hlog1, Hanch. simpl.
  by rewrite <- app_assoc.
Qed.

Lemma needs_certificate_true (E : env) cfg context domain :
  needs_certificate E cfg context domain = Ok true <->
  resolves_to_self E cfg domain
  /\ exists a, attempted E context domain a /\ handshake_rejected E a domain.
Proof.
  unfold needs_certificate, live_check, resolves_to_self, attempted,
    handshake_rejected.
  destruct (gethostbyname E domain) as [ip|e].
  2:{ split; [by destruct (isinstance e gaierror)|]. by intros [? _]. }
  destruct (bool_decide_reflect (ip = server_ip cfg)) as [->|Hne].
  2:{ split; [done|]. intros [[= ?] _]. done. }
  destruct context as [a|e0].
  2:{ split; [done|]. by intros (_ & a & [? _] & _). }
  destruct (wrap_socket E a domain) as [[]|e1] eqn:Hwrap.
  2:{ split; [done|]. intros (_ & a' & [[= <-] ?] & _). congruence. }
  destruct (connect_localhost_443 E a domain) as [[]|e2] eqn:Htls.
  { split; [done|]. intros (_ & a' & [[= <-] _] & e & ? & _). congruence. }
  destruct (isinstance e2 SSLError) eqn:Hi.
  - split; [|done]. intros _. split; [done|]. exists a. split; [done|].
    by exists e2.
  - split; [done|]. intros (_ & a' & [[= <-] _] & e & ? & ?). congruence.
Qed.

Lemma needs_certificate_raise (E : env) cfg context domain e :
  needs_certificate E cfg context domain = Raise e <->
  (gethostbyname E domain = Raise e /\ isinstance e gaierror = false)
  \/ (resolves_to_self E cfg domain /\ live_check E context domain = Raise e).
Proof.
  unfold needs_certificate, resolves_to_self.
  destruct (gethostbyname E domain) as [ip|e0].
  - destruct (bool_decide_reflect (ip = server_ip cfg)) as [->|Hne].
    + destruct (live_check E context domain) as [valid|e1].
      * split; [done|]. by intros [[? _]|[_ ?]].
      * split; [intros [= <-]; by right|]. by intros [[? _]|[_ [= <-]]].
    + split; [done|]. intros [[? _]|[[= ?] _]]; done.
  - destruct (isinstance e0 gaierror) eqn:Hi.
    + split; [done|]. intros [[[= <-] ?]|[? _]]; congruence.
    + split; [intros [= <-]; by left|]. by intros [[[= <-] _]|[? _]].
Qed.

Lemma select_certless_ok (E : env) cfg context domains l :
  select_certless E cfg context domains = Ok l ->
  sublist l domains
  /\ forall d, d ∈ l <-> d ∈ domains /\ needs_certificate E cfg context d = Ok true.
Proof.
  revert l. induction domains as [|domain rest IH]; intros l; simpl.
  - intros [= <-]. split; [done|]. intros d.
    split; [by intros ?%elem_of_nil | by intros [?%elem_of_nil _]].
  - destruct (needs_certificate E cfg context domain) as [keep|] eqn:Hneed; [|done].
    destruct (select_certless E cfg context rest) as [tail|]; [|done].
    intros [= <-]. destruct (IH tail eq_refl) as [Hsub Hmem].
    destruct keep.
    + split; [by constructor|]. intros d. rewrite !elem_of_cons, Hmem.
      split; [intros [->|[? ?]]; auto | intros [[->|?] ?]; auto].
    + split; [by constructor|]. intros d. rewrite elem_of_cons, Hmem.
      split; [intros [? ?]; auto | intros [[->|?] ?]; [congruence | auto]].
Qed.

(** The comprehension raises what the first probe that raises does. *)
Lemma select_certless_raise (E : env) cfg context domains e :
  select_certless E cfg context domains = Raise e <->
  exists before domain after,
    domains = (before ++ domain :: after)%list
    /\ (forall d, d ∈ before ->
          is_ok (needs_certificate E cfg context d) = true)
    /\ needs_certificate E cfg context domain = Raise e.
Proof.
  induction domains as [|domain rest IH]; simpl.
  - split; [done|]. intros (before & d & after & H & _). by destruct before.
  - destruct (needs_certificate E cfg context domain) as [keep|e0] eqn:Hneed.
    + destruct (select_certless E cfg context rest) as [tail|e1].
      * split; [done|]. intros (before & d & after & Heq & Hbefore & Hd).
        destruct before as [|b before]; injection Heq as -> ->; [congruence|].
        assert (Ok tail = (Raise e : result (list string))) as Habs; [|done].
        apply IH. exists before, d, after. split; [done|]. split; [|done].
        intros d' Hd'. apply Hbefore. by right.
      * split.
        -- intros [= <-]. destruct (proj1 IH eq_refl)
             as (before & d & after & -> & Hbefore & Hd).
           exists (domain :: before), d, after. split; [done|]. split; [|done].
           intros d' [->|?]%elem_of_cons; [by rewrite Hneed | by apply Hbefore].
        -- intros (before & d & after & Heq & Hbefore & Hd).
           destruct before as [|b before]; injection Heq as -> ->; [congruence|].
           apply IH. exists before, d, after. split; [done|]. split; [|done].
           intros d' Hd'. apply Hbefore. by right.
    + split.
      * intros [= <-]. exists [], domain, rest. split; [done|]. split; [|done].
        by intros d ?%elem_of_nil.
      * intros (before & d & after & Heq & Hbefore & Hd).
        destruct before as [|b before]; injection Heq as -> ->; [congruence|].
        specialize (Hbefore b). rewrite Hneed in Hbefore.
        discriminate Hbefore. by left.
Qed.

Lemma get_certless_domains_result (E : env) cfg all_domains w :
  (get_certless_domains E cfg all_domains w).2
  = select_certless E cfg (get_ssl_context E cfg w).2 (od_keys all_domains).
Proof.
  unfold get_certless_domains.
  destruct (certless E cfg (od_keys all_domains) w) as [w' r] eqn:Hrun.
  by destruct (certless_run _ _ _ _ _ _ Hrun) as (_ & ? & _).
Qed.

Lemma get_certless_domains_member (E : env) cfg all_domains w w' l d :
  get_certless_domains E cfg all_domains w = (w', Ok l) ->
  d ∈ l <->
  d ∈ od_keys all_domains
  /\ resolves_to_self E cfg d
  /\ exists a, attempted E (get_ssl_context E cfg w).2 d a
               /\ handshake_rejected E a d.
Proof.
  intros Hrun. pose proof (get_certless_domains_result E cfg all_domains w) as H.
  rewrite Hrun in H. symmetry in H.
  apply select_certless_ok in H as [_ Hmem].
  by rewrite Hmem, needs_certificate_true.
Qed.

Lemma get_certless_domains_keys (E : env) cfg all_domains w w' l d :
  get_certless_domains E cfg all_domains w = (w', Ok l) ->
  d ∈ l -> d ∈ od_keys all_domains.
Proof.
  intros Hrun Hd. by apply (get_certless_domains_member _ _ _ _ _ _ _ Hrun) in Hd
    as [? _].
Qed.

(** A domain of the returned list was probed with the trust anchors of
    the context, and its connection was rejected. *)
Lemma get_certless_domains_rejected (E : env) cfg all_domains w w' l d :
  get_certless_domains E cfg all_domains w = (w', Ok l) ->
  d ∈ l ->
  resolves_to_self E cfg d
  /\ handshake_rejected E (trust_anchors cfg None w) d.
Proof.
  intros Hrun Hd.
  apply (get_certless_domains_member _ _ _ _ _ _ _ Hrun) in Hd
    as (_ & Hres & a & [Hctx _] & Hrej).
  split; [done|].
  by rewrite <- (context_for_ok E cfg None w a Hctx).
Qed.

Lemma needs_certificate_check (E : env) cfg context domain :
  needs_certificate E cfg context domain = Ok true <->
  resolves_to_self E cfg domain /\ live_check E context domain = Ok false.
Proof.
  unfold needs_certificate, resolves_to_self.
  destruct (gethostbyname E domain) as [ip|e].
  2:{ split; [by destruct (isinstance e gaierror)|]. by intros [? _]. }
  destruct (bool_decide_reflect (ip = server_ip cfg)) as [->|Hne].
  2:{ split; [done|]. intros [[= ?] _]. done. }
  destruct (live_check E context domain) as [[]|e]; split; try done;
    by intros [_ ?].
Qed.

Lemma select_certless_probed (E : env) cfg context domains l d :
  select_certless E cfg context domains = Ok l ->
  d ∈ domains ->
  is_ok (needs_certificate E cfg context d) = true.
Proof.
  revert l. induction domains as [|domain rest IH]; intros l; simpl.
  - by intros _ ?%elem_of_nil.
  - destruct (needs_certificate E cfg context domain) as [keep|] eqn:Hneed; [|done].
    destruct (select_certless E cfg context rest) as [tail|]; [|done].
    intros _ [->|Hd]%elem_of_cons; [by rewrite Hneed | by apply (IH tail)].
Qed.

(** In a run that returns, the connection for a domain that resolves to
    the server has been attempted, with the trust anchors of the
    context. *)
Lemma get_certless_domains_attempted (E : env) cfg all_domains w w' l d :
  get_certless_domains E cfg all_domains w = (w', Ok l) ->
  d ∈ od_keys all_domains ->
  resolves_to_self E cfg d ->
  attempted E (get_ssl_context E cfg w).2 d (trust_anchors cfg None w).
Proof.
  intros Hrun Hd Hres.
  pose proof (get_certless_domains_result E cfg all_domains w) as H.
  rewrite Hrun in H. symmetry in H.
  pose proof (select_certless_probed _ _ _ _ _ _ H Hd) as Hok.
  unfold needs_certificate in Hok. unfold resolves_to_self in Hres.
  rewrite Hres, bool_decide_eq_true_2 in Hok by done.
  unfold live_check, attempted in *.
  destruct (get_ssl_context E cfg w).2 as [a|e] eqn:Hctx; [|done].
  rewrite <- (context_for_ok E cfg None w a Hctx).
  split; [done|]. by destruct (wrap_socket E a d) as [[]|e].
Qed.

(** C2, as amended.  The condition under which [get_certless_domains]
    keeps a domain is true exactly when the name resolves to the
    configured address of the server and the live certificate check
    answers [False]; it raises exactly when the lookup raises something
    else than [socket.gaierror], or when the name resolves to the server
    and the live certificate check raises.  When [get_certless_domains]
    returns a list, a domain is in it exactly when it is one of the
    configured domains, resolves to the server and has its TLS connection
    rejected; so a domain that does not resolve to the server is not in
    it, whatever certificate is served for it.  It raises, and then
    returns no list at all, exactly when the condition raises for one of
    the configured domains; the exception is that of the first such
    domain. *)
Theorem get_certless_domains_spec (E : env) cfg all_domains w :
  let condition := fun domain => (certless_condition E cfg domain w).2 in
  let r := (get_certless_domains E cfg all_domains w).2 in
  (forall domain,
     condition domain = Ok true <->
     resolves_to_self E cfg domain
     /\ (has_valid_cert E cfg domain None w).2 = Ok false)
  /\ (forall domain e,
        condition domain = Raise e <->
        (gethostbyname E domain = Raise e /\ isinstance e gaierror = false)
        \/ (resolves_to_self E cfg domain
            /\ (has_valid_cert E cfg domain None w).2 = Raise e))
  /\ (forall l,
        r = Ok l ->
        forall domain,
          domain ∈ l <->
          domain ∈ od_keys all_domains
          /\ resolves_to_self E cfg domain
          /\ handshake_rejected E (trust_anchors cfg None w) domain)
  /\ (forall e,
        r = Raise e <->
        exists before domain after,
          od_keys all_domains = (before ++ domain :: after)%list
          /\ (forall d, d ∈ before -> is_ok (condition d) = true)
          /\ condition domain = Raise e).
Proof.
  cbv zeta. split_and!.
  - intros domain. rewrite certless_condition_result, has_valid_cert_result.
    apply needs_certificate_check.
  - intros domain e.
    rewrite certless_condition_result, has_valid_cert_result.
    apply needs_certificate_raise.
  - intros l Hl domain.
    destruct (get_certless_domains E cfg all_domains w) as [w' r] eqn:Hrun.
    simpl in Hl. subst r. split.
    + intros Hd. split; [by eapply get_certless_domains_keys|].
      by eapply get_certless_domains_rejected.
    + intros (Hd & Hres & Hrej).
      apply (get_certless_domains_member _ _ _ _ _ _ _ Hrun).
      split; [done|]. split; [done|].
      exists (trust_anchors cfg None w). split; [|done].
      by eapply get_certless_domains_attempted.
  - intros e. rewrite get_certless_domains_result, select_certless_raise.
    split; intros (before & domain & after & Heq & Hbefore & Hd);
      exists before, domain, after; (split; [done|]); split.
    + intros d Hd'. rewrite certless_condition_result. by apply Hbefore.
    + by rewrite certless_condition_result.
    + intros d Hd'. rewrite <- certless_condition_result. by apply Hbefore.
    + by rewrite <- certless_condition_result.
Qed.

Lemma get_certless_domains_spec_witness :
  "b.example" ∈ ["a.example"] <->
  "b.example" ∈ od_keys sample_domains
  /\ resolves_to_self (sample_env [] dns_only_a tls_reject_all []) sample_config
                      "b.example"
  /\ handshake_rejected (sample_env [] dns_only_a tls_reject_all [])
                        (trust_anchors sample_config None empty_world)
                        "b.example".
Proof.
  apply (proj1 (proj2 (proj2 (get_certless_domains_spec
                                (sample_env [] dns_only_a tls_reject_all [])
                                sample_config sample_domains empty_world)))
           ["a.example"]).
  vm_compute. reflexivity.
Defined.

(** C2 as stated fails: [a.example] resolves to the server and its
    connection is rejected, but it is not queued, because the lookup of
    the name after it raises and no list is returned. *)
Lemma get_certless_domains_not_queued :
  let E := sample_env [] dns_a_or_error tls_reject_all [] in
  resolves_to_self E sample_config "a.example"
  /\ (has_valid_cert E sample_config "a.example" None empty_world).2 = Ok false
  /\ (get_certless_domains E sample_config domains_bad_name empty_world).2
     = Raise idna_error.
Proof. repeat split. Qed.

(** The list is returned unless a probe raises an exception that its
    function does not catch. *)
Lemma get_certless_domains_returns (E : env) cfg all_domains w :
  (forall domain,
     domain ∈ od_keys all_domains ->
     is_ok (needs_certificate E cfg (get_ssl_context E cfg w).2 domain) = true) ->
  exists w' l, get_certless_domains E cfg all_domains w = (w', Ok l).
Proof.
  intros Hok.
  destruct (get_certless_domains E cfg all_domains w) as [w' [l|e]] eqn:Hrun;
    [by eauto|].
  pose proof (get_certless_domains_result E cfg all_domains w) as H.
  rewrite Hrun in H. symmetry in H.
  apply select_certless_raise in H as (before & d & after & Heq & _ & Hd).
  specialize (Hok d). rewrite Hd in Hok. discriminate Hok.
  rewrite Heq. apply elem_of_app. right. by left.
Qed.

(** ** request_new_certs *)

Lemma od_get_None {V} (d : odict V) k : od_get d k = None <-> k ∉ od_keys d.
Proof.
  unfold od_keys. induction d as [|[k0 v0] d IH]; simpl.
  - split; [intros _; apply not_elem_of_nil | done].
  - rewrite not_elem_of_cons.
    destruct (bool_decide_reflect (k0 = k)) as [->|Hne].
    + split; [done | by intros [? _]].
    + rewrite IH. split; [by intros ? | by intros [_ ?]]; auto.
Qed.

Lemma od_get_elem {V} (d : odict V) k v :
  NoDup (od_keys d) -> (k, v) ∈ d <-> od_get d k = Some v.
Proof.
  unfold od_keys. induction d as [|[k0 v0] d IH]; simpl.
  - intros _. split; [by intros ?%elem_of_nil | done].
  - intros [Hk0 Hnd]%NoDup_cons. rewrite elem_of_cons.
    destruct (bool_decide_reflect (k0 = k)) as [->|Hne].
    + split.
      * intros [[= ->] | Hin]; [done|]. exfalso. apply Hk0.
        apply list_elem_of_fmap. by exists (k, v).
      * intros [= ->]. by left.
    + rewrite <- (IH Hnd). split; [intros [[= ? ?]|?]; [done|done] | by right].
Qed.

Lemma od_set_keys {V} (d : odict V) k v :
  od_keys (od_set d k v) =
  match od_get d k with
  | Some _ => od_keys d
  | None => (od_keys d ++ [k])%list
  end.
Proof.
  induction d as [|[k0 v0] d IH]; [done|].
  cbn [od_set od_get].
  destruct (bool_decide_reflect (k0 = k)) as [->|Hne]; [done|].
  change (od_keys ((k0, v0) :: od_set d k v)) with (k0 :: od_keys (od_set d k v)).
  rewrite IH. by destruct (od_get d k).
Qed.

Lemma od_set_NoDup {V} (d : odict V) k v :
  NoDup (od_keys d) -> NoDup (od_keys (od_set d k v)).
Proof.
  intros Hnd. rewrite od_set_keys.
  destruct (od_get d k) eqn:Hget; [done|].
  apply NoDup_app. split; [done|]. split; [|apply NoDup_singleton].
  intros x Hx ->%list_elem_of_singleton. by apply od_get_None in Hget.
Qed.

Lemma backend_group_snoc all_domains l d b :
  backend_group all_domains (l ++ [d]) b =
  if bool_decide (od_get all_domains d = Some b)
  then (backend_group all_domains l b ++ [d])%list
  else backend_group all_domains l b.
Proof.
  unfold backend_group. rewrite filter_app. simpl.
  rewrite filter_cons, filter_nil.
  destruct (bool_decide_reflect (od_get all_domains d = Some b)) as [H|H].
  - by rewrite decide_True.
  - rewrite decide_False by done. by rewrite app_nil_r.
Qed.

Lemma backend_group_nil all_domains l b :
  (forall d, d ∈ l -> od_get all_domains d <> Some b) ->
  backend_group all_domains l b = [].
Proof.
  unfold backend_group. induction l as [|x l IH]; intros H; [done|].
  rewrite filter_cons, decide_False by (apply H; by left).
  apply IH. intros d Hd. apply H. by right.
Qed.

Lemma setdefault_append_groups all_domains l groups d b :
  od_get all_domains d = Some b ->
  groups_of all_domains l groups ->
  groups_of all_domains (l ++ [d]) (setdefault_append groups b d).
Proof.
  intros Hb (Hnd & Hgroups & Hcover). unfold setdefault_append.
  assert (Hkeep : forall v b' g,
            od_get (od_set groups b v) b' = Some g ->
            v = (backend_group all_domains l b ++ [d])%list ->
            g <> [] /\ g = backend_group all_domains (l ++ [d]) b').
  { intros v b' g. rewrite od_get_set, backend_group_snoc.
    destruct (bool_decide_reflect (b = b')) as [<-|Hne].
    - intros [= <-] ->. rewrite bool_decide_eq_true_2 by done.
      split; [|done]. by destruct (backend_group all_domains l b).
    - intros Hg _. rewrite bool_decide_eq_false_2 by congruence.
      by apply Hgroups. }
  assert (Hcov : forall v d',
            d' ∈ (l ++ [d])%list ->
            exists b', od_get all_domains d' = Some b'
                       /\ is_Some (od_get (od_set groups b v) b')).
  { intros v d' [Hd' | ->%list_elem_of_singleton]%elem_of_app.
    - destruct (Hcover d' Hd') as (b' & Hb' & Hsome). exists b'. split; [done|].
      rewrite od_get_set. by destruct (bool_decide (b = b')).
    - exists b. split; [done|]. rewrite od_get_set.
      by rewrite bool_decide_eq_true_2. }
  destruct (od_get groups b) as [g0|] eqn:Hget.
  - split; [by apply od_set_NoDup|]. split; [|apply Hcov].
    intros b' g Hg. apply (Hkeep _ _ _ Hg).
    by destruct (Hgroups b g0 Hget) as [_ <-].
  - split; [by apply od_set_NoDup|]. split; [|apply Hcov].
    intros b' g Hg. apply (Hkeep _ _ _ Hg).
    assert (backend_group all_domains l b = []) as ->; [|done].
    apply backend_group_nil. intros d' Hd' Hb'.
    destruct (Hcover d' Hd') as (b0 & Hb0 & [g' Hsome]). congruence.
Qed.

Lemma group_by_backend_groups all_domains l done_ acc :
  (forall d, d ∈ l -> d ∈ od_keys all_domains) ->
  groups_of all_domains done_ acc ->
  exists groups,
    group_by_backend all_domains l acc = Ok groups
    /\ groups_of all_domains (done_ ++ l) groups.
Proof.
  revert done_ acc. induction l as [|d l IH]; intros done_ acc Hkeys Hacc; simpl.
  - exists acc. by rewrite app_nil_r.
  - destruct (od_get all_domains d) as [b|] eqn:Hb.
    2:{ apply od_get_None in Hb. exfalso. apply Hb, Hkeys. by left. }
    destruct (IH (done_ ++ [d])%list (setdefault_append acc b d)) as (groups & Hrun & Hg).
    + intros d' Hd'. apply Hkeys. by right.
    + by apply setdefault_append_groups.
    + exists groups. split; [done|]. by rewrite <- app_assoc in Hg.
Qed.

Lemma groups_of_nil all_domains : groups_of all_domains [] [].
Proof.
  split; [constructor|]. split; [done|]. by intros d ?%elem_of_nil.
Qed.

Lemma request_cert_run (E : env) cfg domains w :
  exists w' r,
    request_cert E cfg domains w = (w', r)
    /\ log w' = (log w ++ [Run (request_cert_command cfg domains)])%list
    /\ readonly w' = readonly w.
Proof.
  unfold request_cert.
  destruct (subprocess_run E (request_cert_command cfg domains) (fs w)) as [f r].
  by eexists _, _.
Qed.

Lemma issue_loop_run (E : env) cfg groups w :
  exists w',
    for_each
      (fun domains =>
         try_except (request_cert E cfg domains ;;; ret tt) Exception
                    (fun _ => ret tt))
      groups w = (w', Ok tt)
    /\ log w' = (log w ++ List.map (fun g => Run (request_cert_command cfg g)) groups)%list.
Proof.
  revert w. induction groups as [|g groups IH]; intros w; simpl.
  - exists w. by rewrite app_nil_r.
  - destruct (request_cert_run E cfg g w) as (w1 & r & Hrun & Hlog & _).
    destruct (IH w1) as (w2 & Hloop & Hlog2).
    exists w2. unfold bind at 1, try_except, bind. rewrite Hrun.
    destruct r as [z|e].
    + simpl. split; [done|]. by rewrite Hlog2, Hlog, <- app_assoc.
    + unfold isinstance. rewrite issubclass_Exception. simpl.
      split; [done|]. by rewrite Hlog2, Hlog, <- app_assoc.
Qed.

Lemma get_certless_domains_frame (E : env) cfg all_domains w w1 r :
  get_certless_domains E cfg all_domains w = (w1, r) -> probe_frame w w1.
Proof.
  unfold get_certless_domains. intros Hrun.
  by destruct (certless_run _ _ _ _ _ _ Hrun) as (? & _).
Qed.

Lemma commands_run_app w w' l :
  log w' = (log w ++ List.map Run l)%list ->
  commands_run w' = (commands_run w ++ l)%list.
Proof.
  unfold commands_run. intros ->. rewrite omap_app. f_equal.
  induction l as [|c l IH]; [done|]. cbn. by f_equal.
Qed.

(** What [request_new_certs] does when the domains that need a
    certificate have been found. *)
Lemma request_new_certs_run (E : env) cfg all_domains w w1 l :
  get_certless_domains E cfg all_domains w = (w1, Ok l) ->
  exists w2 groups,
    request_new_certs E cfg all_domains w = (w2, Ok tt)
    /\ groups_of all_domains l groups
    /\ commands_run w2 =
       (commands_run w
        ++ List.map (request_cert_command cfg) (od_values groups))%list.
Proof.
  intros Hcertless.
  assert (Hkeys : forall d, d ∈ l -> d ∈ od_keys all_domains).
  { intros d Hd. by apply (get_certless_domains_keys E cfg all_domains w w1 l). }
  destruct (group_by_backend_groups all_domains l [] [] Hkeys
              (groups_of_nil all_domains)) as (groups & Hgroup & Hg).
  destruct (issue_loop_run E cfg (od_values groups) w1) as (w2 & Hloop & Hlog).
  exists w2, groups. split; [|split; [done|]].
  - unfold request_new_certs. rewrite (bind_ok _ _ _ _ _ Hcertless).
    unfold bind, lift. by rewrite Hgroup.
  - destruct (get_certless_domains_frame _ _ _ _ _ _ Hcertless)
      as (_ & _ & _ & <-).
    apply commands_run_app. by rewrite Hlog, map_map.
Qed.

(** C4, as amended.  When looking for the domains that need a
    certificate returns them, they are sorted by backend (every backend
    of such a domain once, with all of these domains that it serves, in
    their order, and no backend without one) and the letsencrypt client
    is run once for each of these groups, whether or not an earlier call
    failed, with the command line [letsencrypt certonly], the options and
    one [-d domain] for every domain of the group, in the order of the
    group.  When looking for these domains raises, the exception is
    passed on and the client is not run. *)
Theorem request_new_certs_groups (E : env) cfg all_domains w :
  let command := fun domains : list string =>
    (["letsencrypt"; "certonly";
      "--email"; contact_email cfg;
      "--authenticator"; "standalone";
      "--standalone-supported-challenges"; "http-01";
      "--http-01-port"; "8080";
      "--non-interactive"; "--agree-tos"; "--keep"; "--expand"]
     ++ (if letsencrypt_use_staging cfg then ["--staging"] else [])
     ++ concat (List.map (fun domain => ["-d"; domain]) domains))%list in
  match get_certless_domains E cfg all_domains w with
  | (w1, Ok l) =>
      exists w2 groups,
        request_new_certs E cfg all_domains w = (w2, Ok tt)
        /\ groups_of all_domains l groups
        /\ commands_run w2 =
           (commands_run w ++ List.map command (od_values groups))%list
  | (w1, Raise e) =>
      request_new_certs E cfg all_domains w = (w1, Raise e)
      /\ commands_run w1 = commands_run w
  end.
Proof.
  cbv zeta.
  destruct (get_certless_domains E cfg all_domains w) as [w1 [l|e]] eqn:Hcertless.
  - exact (request_new_certs_run _ _ _ _ _ _ Hcertless).
  - split.
    + unfold request_new_certs. by rewrite (bind_raise _ _ _ _ _ Hcertless).
    + by destruct (get_certless_domains_frame _ _ _ _ _ _ Hcertless)
        as (_ & _ & _ & ?).
Qed.

(** The scenario of the backend map [a.example b1], [b.example b1],
    [c.example b2] where only [c.example] has a valid certificate: one
    run of the client, for [a.example] and [b.example]. *)
Lemma request_new_certs_scenario :
  commands_run
    (request_new_certs (sample_env [] dns_self tls_only_c []) sample_config
                       sample_domains empty_world).1
  = [["letsencrypt"; "certonly"; "--email"; "ops@example.org";
      "--authenticator"; "standalone";
      "--standalone-supported-challenges"; "http-01";
      "--http-01-port"; "8080";
      "--non-interactive"; "--agree-tos"; "--keep"; "--expand";
      "-d"; "a.example"; "-d"; "b.example"]].
Proof. vm_compute. reflexivity. Qed.

(** C4 as stated fails: [a.example], on backend [b1], resolves to the
    server and its connection is rejected, so it needs a certificate; but
    the lookup of the name after it raises, and the client is not run at
    all. *)
Lemma request_new_certs_none_issued :
  let E := sample_env [] dns_a_or_error tls_reject_all [] in
  od_get domains_bad_name "a.example" = Some "b1"
  /\ (certless_condition E sample_config "a.example" empty_world).2 = Ok true
  /\ request_new_certs E sample_config domains_bad_name empty_world
     = (mk_world ∅ ∅ (Some [system_ca_bundle])
          [Resolve "a.example"; Connect [system_ca_bundle] "a.example";
           Resolve "bad..example"] ∅,
        Raise idna_error)
  /\ commands_run
       (request_new_certs E sample_config domains_bad_name empty_world).1 = [].
Proof. repeat split. Qed.

(** ** Paths *)

Lemma length_append (a b : string) :
  String.length (a ++ b) = String.length a + String.length b.
Proof. induction a as [|c a IH]; [done|]. rewrite append_cons. simpl. lia. Qed.

Lemma endswith_app a b p :
  String.length p <= String.length b ->
  endswith (a ++ b) p = endswith b p.
Proof.
  intros Hlen. induction a as [|c a IH]; [done|].
  rewrite append_cons. cbn [endswith]. rewrite IH.
  rewrite bool_decide_eq_false_2; [done|].
  intros H. apply (f_equal String.length) in H.
  simpl in H. rewrite length_append in H. lia.
Qed.

Lemma pem_not_conf s : endswith (s ++ ".conf") ".pem" = false.
Proof. rewrite endswith_app by (simpl; lia). reflexivity. Qed.

Lemma pem_not_disabled s : endswith (s ++ ".disabled") ".pem" = false.
Proof. rewrite endswith_app by (simpl; lia). reflexivity. Qed.

Lemma pem_path_not_config q p :
  pem_path q -> q <> renewal_config p /\ q <> disabled_config p.
Proof.
  unfold pem_path. intros Hq.
  split; intros ->; simpl in Hq.
  - by rewrite pem_not_conf in Hq.
  - by rewrite pem_not_disabled in Hq.
Qed.

Lemma split_last_dot_conf s :
  split_last_dot (s ++ ".conf") = Some (s, "conf").
Proof.
  induction s as [|c s IH]; [done|].
  rewrite append_cons. cbn [split_last_dot]. by rewrite IH.
Qed.

Lemma stem_conf s : s <> "" -> stem (s ++ ".conf") = s.
Proof.
  intros Hs. unfold stem. rewrite split_last_dot_conf. by destruct s.
Qed.

Lemma stem_nonempty name : name <> "" -> stem name <> "".
Proof.
  intros Hne. unfold stem.
  destruct (split_last_dot name) as [[[|b before] [|a after]]|]; done.
Qed.

Lemma with_suffix_renewal_config p :
  name_of p <> "" ->
  with_suffix (renewal_config p) ".disabled" = disabled_config p.
Proof.
  intros Hne. unfold with_suffix, renewal_config, disabled_config. simpl.
  by rewrite stem_conf by by apply stem_nonempty.
Qed.

Lemma pem_path_name p : pem_path p -> name_of p <> "".
Proof. unfold pem_path. intros H Hn. by rewrite Hn in H. Qed.

(** ** remove_cert *)

(** What [remove_cert] does in every case. *)
Lemma remove_cert_run p w :
  remove_cert p w =
  match fs w !! p with
  | None =>
      (w, Raise (if bool_decide (p ∈ dirs w) then is_a_directory p
                 else no_such_file p))
  | Some _ =>
      if bool_decide (parent_of p ∈ readonly w)
      then (w, Raise (permission_denied p))
      else
        let f1 := delete p (fs w) in
        match f1 !! renewal_config p with
        | None => (set_fs w f1, Ok tt)
        | Some d =>
            if bool_decide (renewal_dir ∈ readonly w)
            then (set_fs w f1,
                  Raise (rename_denied (renewal_config p)
                           (with_suffix (renewal_config p) ".disabled")))
            else (set_fs w (<[with_suffix (renewal_config p) ".disabled" := d]>
                              (delete (renewal_config p) f1)),
                  Ok tt)
        end
  end.
Proof.
  unfold remove_cert, bind, unlink, is_file, rename, ret.
  fold (renewal_config p).
  destruct (fs w !! p) as [c|]; [|done].
  destruct (bool_decide (parent_of p ∈ readonly w)); [done|]. simpl.
  destruct (delete p (fs w) !! renewal_config p) as [d|] eqn:Hconf.
  - rewrite bool_decide_eq_true_2 by done. cbn beta. simpl. rewrite Hconf.
    rewrite orb_diag. by destruct (bool_decide (renewal_dir ∈ readonly w)).
  - rewrite bool_decide_eq_false_2; [done|]. by intros [? ?].
Qed.

(** C10.  [remove_cert] unlinks the certificate file.  If, once that is
    done, there is no file [<stem>.conf] in the renewal directory, nothing
    else happens: every other path holds what it held.  If there is one,
    it is renamed to [<stem>.disabled], and every path other than these
    three holds what it held. *)
Theorem remove_cert_effect p w c :
  fs w !! p = Some c ->
  parent_of p ∉ readonly w ->
  name_of p <> "" ->
  match delete p (fs w) !! renewal_config p with
  | None => remove_cert p w = (set_fs w (delete p (fs w)), Ok tt)
  | Some d =>
      renewal_dir ∉ readonly w ->
      remove_cert p w =
        (set_fs w (<[disabled_config p := d]>
                     (delete (renewal_config p) (delete p (fs w)))),
         Ok tt)
  end.
Proof.
  intros Hp Hdir Hname. rewrite remove_cert_run, Hp.
  rewrite bool_decide_eq_false_2 by done. simpl.
  destruct (delete p (fs w) !! renewal_config p); [|done].
  intros Hren. rewrite bool_decide_eq_false_2 by done.
  by rewrite with_suffix_renewal_config.
Qed.

Lemma remove_cert_effect_witness :
  remove_cert (certs_dir, "old.pem") world_old =
    (set_fs world_old
       (<[(renewal_dir, "old.disabled") := Bytes "renew old.example" no_start_line]>
          (delete (renewal_dir, "old.conf")
             (delete (certs_dir, "old.pem") (fs world_old)))),
     Ok tt).
Proof.
  assert (Hro : forall d, d ∉ readonly world_old)
    by (intros d; apply not_elem_of_empty).
  exact (remove_cert_effect (certs_dir, "old.pem") world_old (Pem cert_old)
           eq_refl (Hro _) ltac:(done) (Hro _)).
Defined.

(** ** clean_up_certs: one file *)

Lemma unpack2_raises l e :
  unpack2 l = Raise e -> isinstance e ValueError = true.
Proof.
  destruct l as [|a [|b [|c l]]]; simpl; try done; by intros [= <-].
Qed.

Lemma san_dns_names_raises components acc e :
  san_dns_names components acc = Raise e -> isinstance e ValueError = true.
Proof.
  revert acc. induction components as [|c rest IH]; intros acc; simpl; [done|].
  destruct (unpack2 (split_colon_1 c)) as [[name_type name]|e'] eqn:Hu.
  - destruct (bool_decide (name_type = "DNS")); apply IH.
  - intros [= <-]. by apply unpack2_raises in Hu.
Qed.

Lemma common_name_raises components e :
  common_name components = Raise e -> isinstance e ValueError = true.
Proof.
  induction components as [|[label value] rest IH]; simpl.
  - by intros [= <-].
  - destruct (bool_decide (label = "CN")); [|done].
    destruct value; [done|]. by intros [= <-].
Qed.

(** Whatever [get_dns_names] raises is caught by [except ValueError]. *)
Lemma get_dns_names_raises cert e :
  get_dns_names cert = Raise e -> isinstance e ValueError = true.
Proof.
  unfold get_dns_names. destruct (find_san (get_extensions cert)).
  - apply san_dns_names_raises.
  - apply common_name_raises.
Qed.

Lemma clean_up_cert_pem active p w cert :
  p ∉ dirs w ->
  fs w !! p = Some (Pem cert) ->
  clean_up_cert active p w =
    if orphaned active cert then remove_cert p w else (w, Ok tt).
Proof.
  intros Hdir Hp. unfold clean_up_cert, bind, read_bytes, lift, orphaned.
  rewrite bool_decide_eq_false_2 by done. rewrite Hp. simpl.
  destruct (get_dns_names cert) as [names|e] eqn:Hnames.
  - destruct (has_wildcard (list_to_set names)); [done|]. simpl.
    by destruct (isdisjoint (list_to_set names) active).
  - by rewrite (get_dns_names_raises _ _ Hnames).
Qed.

Lemma clean_up_cert_dir active p w :
  p ∈ dirs w ->
  clean_up_cert active p w = (w, Raise (is_a_directory p)).
Proof.
  intros Hdir. unfold clean_up_cert, bind, read_bytes.
  by rewrite bool_decide_eq_true_2.
Qed.

Lemma clean_up_cert_unreadable active p w held :
  p ∉ dirs w ->
  fs w !! p = Some (Unreadable held) ->
  clean_up_cert active p w = (w, Raise (permission_denied p)).
Proof.
  intros Hdir Hp. unfold clean_up_cert, bind, read_bytes.
  rewrite bool_decide_eq_false_2 by done. by rewrite Hp.
Qed.

Lemma clean_up_cert_bytes active p w raw errors :
  p ∉ dirs w ->
  fs w !! p = Some (Bytes raw errors) ->
  clean_up_cert active p w = (w, Raise (mk_exn CryptoError errors)).
Proof.
  intros Hdir Hp. unfold clean_up_cert, bind, read_bytes, lift.
  rewrite bool_decide_eq_false_2 by done. by rewrite Hp.
Qed.

Lemma clean_up_cert_missing active p w :
  p ∉ dirs w ->
  fs w !! p = None ->
  clean_up_cert active p w = (w, Raise (no_such_file p)).
Proof.
  intros Hdir Hp. unfold clean_up_cert, bind, read_bytes.
  rewrite bool_decide_eq_false_2 by done. by rewrite Hp.
Qed.

(** The body of the loop deals with a certificate file that it can read,
    and raises for every other entry, which it leaves as it is. *)
Lemma clean_up_cert_cases active p w :
  (exists cert, (p ∉ dirs w) /\ fs w !! p = Some (Pem cert))
  \/ exists e, clean_up_cert active p w = (w, Raise e).
Proof.
  destruct (decide (p ∈ dirs w)) as [Hdir|Hdir].
  { right. eexists. by apply clean_up_cert_dir. }
  destruct (fs w !! p) as [[cert|raw errors|held]|] eqn:Hp.
  - left. by exists cert.
  - right. eexists. by eapply clean_up_cert_bytes.
  - right. eexists. by eapply clean_up_cert_unreadable.
  - right. eexists. by apply clean_up_cert_missing.
Qed.

(** A pass that has gone through for [p] has found a certificate file
    there. *)
Lemma clean_up_cert_returned active p w w' :
  clean_up_cert active p w = (w', Ok tt) ->
  exists cert, (p ∉ dirs w) /\ fs w !! p = Some (Pem cert).
Proof.
  intros Hrun. destruct (clean_up_cert_cases active p w) as [?|[e He]]; [done|].
  by rewrite He in Hrun.
Qed.

Lemma pem_path_not_renamed q p :
  pem_path q ->
  q <> renewal_config p /\ q <> with_suffix (renewal_config p) ".disabled".
Proof.
  unfold pem_path. intros Hq.
  split; intros ->; simpl in Hq.
  - by rewrite pem_not_conf in Hq.
  - by rewrite pem_not_disabled in Hq.
Qed.

Lemma remove_cert_frame p w w' r q :
  remove_cert p w = (w', r) -> pem_path q -> q <> p ->
  fs w' !! q = fs w !! q.
Proof.
  rewrite remove_cert_run. intros Hrun Hq Hne.
  destruct (pem_path_not_renamed q p Hq) as [Hconf Hdis].
  destruct (fs w !! p); [|by injection Hrun as <- _].
  destruct (bool_decide (parent_of p ∈ readonly w)); [by injection Hrun as <- _|].
  simpl in Hrun.
  destruct (delete p (fs w) !! renewal_config p).
  - destruct (bool_decide (renewal_dir ∈ readonly w)); injection Hrun as <- _; simpl.
    + by rewrite lookup_delete_ne.
    + by rewrite lookup_insert_ne, !lookup_delete_ne.
  - injection Hrun as <- _. simpl. by rewrite lookup_delete_ne.
Qed.

Lemma remove_cert_dirs p w w' r :
  remove_cert p w = (w', r) -> dirs w' = dirs w.
Proof.
  rewrite remove_cert_run. intros Hrun.
  destruct (fs w !! p); [|by injection Hrun as <- _].
  destruct (bool_decide (parent_of p ∈ readonly w)); [by injection Hrun as <- _|].
  simpl in Hrun.
  destruct (delete p (fs w) !! renewal_config p);
    [destruct (bool_decide (renewal_dir ∈ readonly w))|];
    by injection Hrun as <- _.
Qed.

Lemma remove_cert_self p w w' r c :
  remove_cert p w = (w', r) -> pem_path p -> fs w !! p = Some c ->
  (w' = w /\ r <> Ok tt) \/ fs w' !! p = None.
Proof.
  rewrite remove_cert_run. intros Hrun Hp Hc. rewrite Hc in Hrun.
  destruct (pem_path_not_renamed p p Hp) as [Hconf Hdis].
  destruct (bool_decide (parent_of p ∈ readonly w)).
  { injection Hrun as <- <-. by left. }
  simpl in Hrun. right.
  destruct (delete p (fs w) !! renewal_config p).
  - destruct (bool_decide (renewal_dir ∈ readonly w)); injection Hrun as <- _; simpl.
    + by rewrite lookup_delete_eq.
    + by rewrite lookup_insert_ne, lookup_delete_ne, lookup_delete_eq.
  - injection Hrun as <- _. simpl. by rewrite lookup_delete_eq.
Qed.

Lemma clean_up_cert_frame active p w w' r q :
  clean_up_cert active p w = (w', r) -> pem_path q -> q <> p ->
  fs w' !! q = fs w !! q.
Proof.
  intros Hrun Hq Hne.
  destruct (clean_up_cert_cases active p w) as [(cert & Hdir & Hp)|[e He]].
  - rewrite (clean_up_cert_pem _ _ _ _ Hdir Hp) in Hrun.
    destruct (orphaned active cert); [by eapply remove_cert_frame|].
    by injection Hrun as <- _.
  - rewrite He in Hrun. by injection Hrun as <- _.
Qed.

Lemma clean_up_cert_dirs active p w w' r :
  clean_up_cert active p w = (w', r) -> dirs w' = dirs w.
Proof.
  intros Hrun.
  destruct (clean_up_cert_cases active p w) as [(cert & Hdir & Hp)|[e He]].
  - rewrite (clean_up_cert_pem _ _ _ _ Hdir Hp) in Hrun.
    destruct (orphaned active cert); [by eapply remove_cert_dirs|].
    by injection Hrun as <- _.
  - rewrite He in Hrun. by injection Hrun as <- _.
Qed.

Lemma clean_up_cert_self active p w w' r cert :
  clean_up_cert active p w = (w', r) -> pem_path p ->
  fs w !! p = Some (Pem cert) ->
  (w' = w /\ (r = Ok tt -> orphaned active cert = false))
  \/ (fs w' !! p = None /\ orphaned active cert = true).
Proof.
  intros Hrun Hpem Hp.
  destruct (decide (p ∈ dirs w)) as [Hdir|Hdir].
  { rewrite (clean_up_cert_dir _ _ _ Hdir) in Hrun.
    injection Hrun as <- <-. by left. }
  rewrite (clean_up_cert_pem _ _ _ _ Hdir Hp) in Hrun.
  destruct (orphaned active cert).
  - destruct (remove_cert_self _ _ _ _ _ Hrun Hpem Hp) as [[-> Hr]|Hgone].
    + left. split; [done|]. by intros ->.
    + by right.
  - injection Hrun as <- _. by left.
Qed.

(** ** clean_up_certs: the pass *)

Lemma clean_up_loop_gone active dir globbed w w' r name :
  for_each (fun x => clean_up_cert active (dir, x)) globbed w = (w', r) ->
  pem_path (dir, name) ->
  fs w !! (dir, name) = None ->
  fs w' !! (dir, name) = None.
Proof.
  revert w. induction globbed as [|x rest IH]; intros w; simpl.
  - by intros [= <- _].
  - intros Hrun Hpem Hgone. unfold bind in Hrun.
    destruct (clean_up_cert active (dir, x) w) as [w1 r1] eqn:Hx.
    assert (fs w1 !! (dir, name) = None) as Hgone1.
    { destruct (decide (x = name)) as [->|Hne].
      - destruct (clean_up_cert_cases active (dir, name) w)
          as [(cert & _ & Hp)|[e He]].
        + discriminate (eq_trans (eq_sym Hp) Hgone).
        + rewrite He in Hx. by injection Hx as <- _.
      - etrans; [|exact Hgone].
        eapply clean_up_cert_frame; [exact Hx | exact Hpem | congruence]. }
    destruct r1 as [[]|e]; [by eapply IH | by injection Hrun as <- _].
Qed.

Lemma clean_up_loop_file active dir globbed w w' r name cert :
  for_each (fun x => clean_up_cert active (dir, x)) globbed w = (w', r) ->
  pem_path (dir, name) ->
  fs w !! (dir, name) = Some (Pem cert) ->
  (fs w' !! (dir, name) = Some (Pem cert) \/ fs w' !! (dir, name) = None)
  /\ (fs w' !! (dir, name) = None ->
      name ∈ globbed /\ orphaned active cert = true)
  /\ (r = Ok tt -> name ∈ globbed -> orphaned active cert = true ->
      fs w' !! (dir, name) = None).
Proof.
  revert w. induction globbed as [|x rest IH]; intros w; simpl.
  - intros [= <- <-] _ Hp. rewrite Hp. split; [by left|].
    split; [done|]. by intros _ ?%elem_of_nil.
  - intros Hrun Hpem Hp. unfold bind in Hrun.
    destruct (clean_up_cert active (dir, x) w) as [w1 r1] eqn:Hx.
    destruct (decide (x = name)) as [->|Hne].
    + destruct (clean_up_cert_self _ _ _ _ _ _ Hx Hpem Hp)
        as [[-> Hkeep] | [Hgone Horph]].
      * destruct r1 as [[]|e].
        -- destruct (IH _ Hrun Hpem Hp) as (H1 & H2 & H3).
           rewrite (Hkeep eq_refl) in *.
           split; [done|]. split; [|done].
           intros Hg. by destruct (H2 Hg).
        -- injection Hrun as <- <-. rewrite Hp.
           split; [by left|]. by split.
      * assert (fs w' !! (dir, name) = None) as Hgone'.
        { destruct r1 as [[]|e]; [|by injection Hrun as <- _].
          by eapply clean_up_loop_gone. }
        split; [by right|]. split; [|done].
        intros _. split; [by left | done].
    + assert (fs w1 !! (dir, name) = Some (Pem cert)) as Hp1.
      { etrans; [|exact Hp].
        eapply clean_up_cert_frame; [exact Hx | exact Hpem | congruence]. }
      destruct r1 as [[]|e].
      * destruct (IH _ Hrun Hpem Hp1) as (H1 & H2 & H3).
        split; [done|]. split.
        -- intros Hg. destruct (H2 Hg). split; [by right | done].
        -- intros Hr [?|Hin]%elem_of_cons; [done|]. by apply H3.
      * injection Hrun as <- <-. rewrite Hp1.
        split; [by left|]. by split.
Qed.


Lemma has_wildcard_false (names : list string) :
  has_wildcard (list_to_set names) = false <->
  forall n, n ∈ names -> contains_char "*" n = false.
Proof.
  unfold has_wildcard. split.
  - intros H n Hn. destruct (contains_char "*" n) eqn:Hc; [|done].
    rewrite <- H. symmetry. apply existsb_exists. exists n. split; [|done].
    apply list_elem_of_In, elem_of_elements, elem_of_list_to_set, Hn.
  - intros H. apply not_true_is_false. intros (n & Hn & Hc)%existsb_exists.
    apply list_elem_of_In, elem_of_elements, elem_of_list_to_set in Hn.
    by rewrite (H n Hn) in Hc.
Qed.

Lemma isdisjoint_true (names keys : list string) :
  isdisjoint (list_to_set names) (list_to_set keys) = true <->
  forall n, n ∈ names -> n ∉ keys.
Proof.
  unfold isdisjoint. rewrite bool_decide_eq_true, elem_of_disjoint.
  split.
  - intros H n Hn Hk. apply (H n); by apply elem_of_list_to_set.
  - intros H n Hn%elem_of_list_to_set Hk%elem_of_list_to_set. by apply (H n).
Qed.

Lemma orphaned_spec (keys : list string) cert names :
  get_dns_names cert = Ok names ->
  orphaned (list_to_set keys) cert = true <->
  forall n, n ∈ names -> contains_char "*" n = false /\ n ∉ keys.
Proof.
  intros Hnames. unfold orphaned. rewrite Hnames.
  rewrite andb_true_iff, negb_true_iff, has_wildcard_false, isdisjoint_true.
  split; [intros [H1 H2] n Hn; auto | intros H; split; intros n Hn; by apply H].
Qed.

(** C1, as amended.  In every run of the cleanup pass, also one that an
    exception cuts short, a certificate file that is gone afterwards was
    listed, has no name with a ["*"] and no name among the active domains;
    and when the pass has gone through the whole listing, a listed
    certificate file is gone exactly when its names have no ["*"] and
    none is an active domain.  So a certificate with a wildcard name, or
    with an active name, is never deleted. *)
Theorem clean_up_certs_deletes cfg all_domains globbed w w' r name cert names :
  clean_up_certs cfg all_domains globbed w = (w', r) ->
  endswith name ".pem" = true ->
  fs w !! (haproxy_certs_dir cfg, name) = Some (Pem cert) ->
  get_dns_names cert = Ok names ->
  let deleted := fs w' !! (haproxy_certs_dir cfg, name) = None in
  let orphan := forall n, n ∈ names ->
                  contains_char "*" n = false /\ n ∉ od_keys all_domains in
  (deleted -> name ∈ globbed /\ orphan)
  /\ (r = Ok tt -> name ∈ globbed -> (deleted <-> orphan)).
Proof.
  unfold clean_up_certs. intros Hrun Hpem Hp Hnames. simpl.
  destruct (clean_up_loop_file _ _ _ _ _ _ _ _ Hrun Hpem Hp) as (_ & H2 & H3).
  rewrite (orphaned_spec _ _ _ Hnames) in H2, H3.
  split; [done|]. intros Hr Hin. split; [by intros [_ ?]%H2 | by apply H3].
Qed.

Lemma clean_up_certs_deletes_witness :
  fs (clean_up_certs sample_config sample_domains ["old.pem"; "live.pem"]
                     world_old).1 !! (certs_dir, "old.pem") = None
  <-> (forall n, n ∈ ["old.example"] ->
         contains_char "*" n = false /\ n ∉ od_keys sample_domains).
Proof.
  assert (Hin : "old.pem" ∈ ["old.pem"; "live.pem"]) by (by left).
  refine (proj2 (clean_up_certs_deletes sample_config sample_domains
                   ["old.pem"; "live.pem"] world_old _ (Ok tt) "old.pem"
                   cert_old ["old.example"] _ _ _ _) eq_refl Hin);
    vm_compute; reflexivity.
Defined.

(** C1 as stated fails: [old.pem] has no wildcard name and no active
    name, and the pass leaves it in place, because it ends at the file
    listed before it, which is not a certificate. *)
Lemma clean_up_certs_orphan_kept :
  let w' := (clean_up_certs sample_config sample_domains ["bad.pem"; "old.pem"]
                            world_bad).1 in
  fs world_bad !! (certs_dir, "old.pem") = Some (Pem cert_old)
  /\ get_dns_names cert_old = Ok ["old.example"]
  /\ contains_char "*" "old.example" = false
  /\ ("old.example" ∉ od_keys sample_domains)
  /\ fs w' !! (certs_dir, "old.pem") = Some (Pem cert_old).
Proof.
  repeat split; try (vm_compute; reflexivity).
  intros H. apply list_elem_of_In in H. simpl in H. intuition discriminate.
Qed.

(** C6, as amended.  A certificate from which no name can be taken is
    skipped: the pass goes on with the entries after it as if it had not
    been listed, and no run of the pass removes the file.  Every other
    failure ends the pass with its exception, and the entries listed
    after it are not looked at: an entry that cannot be read (a
    directory, a file without read permission, a file that is no longer
    there) and a file that is not a certificate stay as they are; so does
    a certificate file that is to be removed but cannot be unlinked; and
    a renewal configuration that cannot be renamed ends the pass when the
    certificate file has been unlinked. *)
Theorem clean_up_certs_file_failure cfg all_domains name rest w outcome :
  file_failure (list_to_set (od_keys all_domains)) w
               (haproxy_certs_dir cfg, name) outcome ->
  clean_up_certs cfg all_domains (name :: rest) w =
    match outcome with
    | None => clean_up_certs cfg all_domains rest w
    | Some (w', e) => (w', Raise e)
    end
  /\ (outcome = None -> endswith name ".pem" = true ->
      forall globbed w' r,
        clean_up_certs cfg all_domains globbed w = (w', r) ->
        fs w' !! (haproxy_certs_dir cfg, name)
        = fs w !! (haproxy_certs_dir cfg, name)).
Proof.
  unfold clean_up_certs. cbn [for_each]. unfold bind at 1.
  intros [cert e Hdir Hp Hnames | Hdir | held Hdir Hp | Hdir Hp
         | raw errors Hdir Hp | cert Hdir Hp Horph Hro
         | cert d Hdir Hp Horph Hro Hconf Hren].
  - split.
    + rewrite (clean_up_cert_pem _ _ _ _ Hdir Hp). unfold orphaned.
      by rewrite Hnames.
    + intros _ Hpem globbed w' r Hrun.
      destruct (clean_up_loop_file _ _ _ _ _ _ _ _ Hrun Hpem Hp) as (H1 & H2 & _).
      destruct H1 as [H1|H1]; [exact (eq_trans H1 (eq_sym Hp))|].
      destruct (H2 H1) as [_ Horph]. unfold orphaned in Horph.
      by rewrite Hnames in Horph.
  - split; [|done]. by rewrite (clean_up_cert_dir _ _ _ Hdir).
  - split; [|done]. by rewrite (clean_up_cert_unreadable _ _ _ _ Hdir Hp).
  - split; [|done]. by rewrite (clean_up_cert_missing _ _ _ Hdir Hp).
  - split; [|done]. by rewrite (clean_up_cert_bytes _ _ _ _ _ Hdir Hp).
  - split; [|done].
    rewrite (clean_up_cert_pem _ _ _ _ Hdir Hp), Horph, remove_cert_run, Hp.
    by rewrite bool_decide_eq_true_2.
  - split; [|done].
    rewrite (clean_up_cert_pem _ _ _ _ Hdir Hp), Horph, remove_cert_run, Hp.
    rewrite bool_decide_eq_false_2 by done. simpl. rewrite Hconf.
    by rewrite bool_decide_eq_true_2.
Qed.

Lemma clean_up_certs_file_failure_witness :
  clean_up_certs sample_config sample_domains ["anon.pem"; "old.pem"]
                 world_nameless
  = clean_up_certs sample_config sample_domains ["old.pem"] world_nameless.
Proof.
  apply (clean_up_certs_file_failure sample_config sample_domains "anon.pem"
           ["old.pem"] world_nameless None).
  apply (no_dns_names _ _ _ cert_nameless
           (mk_exn ValueError
              ("the certificate does not contain a valid Common Name, "
                 ++ "nor valid Subject Alternative Names")));
    [apply not_elem_of_empty | vm_compute; reflexivity..].
Defined.

(** C6 as stated fails: a file that is not a certificate ends the pass,
    and [old.pem], which comes after it, is not dealt with. *)
Lemma clean_up_certs_aborts :
  clean_up_certs sample_config sample_domains ["bad.pem"; "old.pem"] world_bad
  = (world_bad, Raise (mk_exn CryptoError no_start_line)).
Proof. vm_compute. reflexivity. Qed.

(** ** get_dns_names *)

Lemma split_comma_space_cons c c2 r2 :
  split_comma_space (String c (String c2 r2)) =
  if bool_decide (c = ","%char) && bool_decide (c2 = " "%char)
  then EmptyString :: split_comma_space r2
  else cons_head c (split_comma_space (String c2 r2)).
Proof. reflexivity. Qed.

Lemma has_comma_space_cons c c2 r2 :
  has_comma_space (String c (String c2 r2)) =
  (bool_decide (c = ","%char) && bool_decide (c2 = " "%char))
  || has_comma_space (String c2 r2).
Proof. reflexivity. Qed.

Lemma split_comma_space_plain a :
  has_comma_space a = false -> split_comma_space a = [a].
Proof.
  induction a as [|c r IH]; [done|].
  destruct r as [|c2 r2]; [done|].
  rewrite has_comma_space_cons, split_comma_space_cons.
  intros [-> Hr]%orb_false_elim. by rewrite (IH Hr).
Qed.

Lemma has_comma_space_tail c r :
  has_comma_space (String c r) = false -> has_comma_space r = false.
Proof.
  destruct r as [|c2 r2]; [done|]. rewrite has_comma_space_cons.
  by intros [_ ?]%orb_false_elim.
Qed.

Lemma split_comma_space_app a rest :
  has_comma_space a = false ->
  split_comma_space (a ++ ", " ++ rest) = a :: split_comma_space rest.
Proof.
  induction a as [|c r IH]; [done|].
  intros Ha. pose proof (has_comma_space_tail _ _ Ha) as Hr.
  specialize (IH Hr). rewrite append_cons.
  destruct r as [|c2 r2].
  - rewrite append_nil_l in *.
    change (", " ++ rest) with (String "," (String " " rest)) in *.
    rewrite split_comma_space_cons.
    rewrite (bool_decide_eq_false_2 ("," = " ")%char) by done.
    rewrite andb_false_r. by rewrite IH.
  - rewrite append_cons in *. rewrite split_comma_space_cons.
    rewrite has_comma_space_cons in Ha.
    apply orb_false_elim in Ha as [-> _]. by rewrite IH.
Qed.

Lemma split_join_comma_space items :
  items <> [] ->
  Forall (fun item => has_comma_space item = false) items ->
  split_comma_space (join_comma_space items) = items.
Proof.
  induction items as [|x [|y rest] IH]; [done| |].
  - intros _ [Hx _]%Forall_cons. by apply split_comma_space_plain.
  - intros _ [Hx Hrest]%Forall_cons. cbn [join_comma_space].
    rewrite (split_comma_space_app _ _ Hx). f_equal. by apply IH.
Qed.

Lemma split_colon_1_item t v :
  contains_char ":" t = false -> split_colon_1 (t ++ ":" ++ v) = [t; v].
Proof.
  induction t as [|c t IH]; [done|].
  cbn [contains_char]. intros [Hc Ht]%orb_false_elim.
  rewrite append_cons. cbn [split_colon_1]. rewrite Hc. by rewrite (IH Ht).
Qed.

Lemma san_dns_names_items entries acc :
  Forall plain_entry entries ->
  san_dns_names (List.map san_item entries) acc = Ok (acc ++ dns_values entries)%list.
Proof.
  unfold dns_values. revert acc.
  induction entries as [|[t v] rest IH]; intros acc; simpl.
  - intros _. by rewrite app_nil_r.
  - intros [[Ht _] Hrest]%Forall_cons. simpl in Ht.
    unfold san_item at 1. simpl. rewrite (split_colon_1_item _ _ Ht). simpl.
    rewrite filter_cons. simpl.
    destruct (bool_decide_reflect (t = "DNS")) as [->|Hne].
    + rewrite decide_True by done. rewrite (IH _ Hrest).
      by rewrite <- app_assoc.
    + rewrite decide_False by done. by apply IH.
Qed.

Lemma get_dns_names_rendered cert ext entries :
  find_san (get_extensions cert) = Some ext ->
  subjectAltNameString ext = render_san entries ->
  entries <> [] ->
  Forall plain_entry entries ->
  get_dns_names cert = Ok (dns_values entries).
Proof.
  intros Hsan Hstr Hne Hplain. unfold get_dns_names.
  rewrite Hsan, Hstr. unfold render_san.
  rewrite split_join_comma_space.
  - by rewrite (san_dns_names_items _ [] Hplain).
  - by destruct entries.
  - apply Forall_fmap. eapply Forall_impl; [exact Hplain|].
    by intros e [_ He].
Qed.

Lemma orphaned_no_names active cert :
  get_dns_names cert = Ok [] -> orphaned active cert = true.
Proof.
  intros Hnames. unfold orphaned. rewrite Hnames.
  unfold has_wildcard, isdisjoint. simpl. rewrite elements_empty. simpl.
  apply bool_decide_eq_true. set_solver.
Qed.

Lemma remove_cert_unlinks p w c :
  pem_path p -> fs w !! p = Some c -> parent_of p ∉ readonly w ->
  fs (remove_cert p w).1 !! p = None.
Proof.
  intros Hpem Hp Hro.
  destruct (remove_cert p w) as [w' r] eqn:Hrun.
  destruct (remove_cert_self _ _ _ _ _ Hrun Hpem Hp) as [[-> _]|Hgone]; [|done].
  rewrite remove_cert_run, Hp in Hrun.
  rewrite bool_decide_eq_false_2 in Hrun by done. simpl in Hrun.
  destruct (delete p (fs w) !! renewal_config p);
    [destruct (bool_decide (renewal_dir ∈ readonly w))|];
    injection Hrun as Hw _; apply (f_equal fs) in Hw; simpl in Hw;
    exfalso.
  - assert (delete p (fs w) !! p = Some c) by (by rewrite Hw).
    by rewrite lookup_delete_eq in *.
  - destruct (pem_path_not_renamed p p Hpem) as [Hconf Hdis].
    assert ((<[with_suffix (renewal_config p) ".disabled":=c0]>
               (delete (renewal_config p) (delete p (fs w)))) !! p = Some c)
      as Hl by (by rewrite Hw).
    rewrite lookup_insert_ne, lookup_delete_ne, lookup_delete_eq in Hl; done.
  - assert (delete p (fs w) !! p = Some c) by (by rewrite Hw).
    by rewrite lookup_delete_eq in *.
Qed.

Lemma split_colon_1_none item :
  contains_char ":" item = false -> split_colon_1 item = [item].
Proof.
  induction item as [|c r IH]; [done|].
  cbn [contains_char split_colon_1]. intros [-> Hr]%orb_false_elim.
  by rewrite (IH Hr).
Qed.

Lemma split_colon_1_some item :
  contains_char ":" item = true ->
  exists t v, item = t ++ ":" ++ v /\ contains_char ":" t = false.
Proof.
  induction item as [|c r IH]; [done|]. cbn [contains_char].
  destruct (bool_decide_reflect (c = ":"%char)) as [->|Hc].
  - intros _. by exists "", r.
  - intros Hr. destruct (IH Hr) as (t & v & -> & Ht).
    exists (String c t), v. split; [done|].
    cbn [contains_char]. by rewrite bool_decide_eq_false_2.
Qed.

Lemma startswith_nil s : startswith s "" = true.
Proof. by destruct s. Qed.

Lemma dns_name_item t v :
  contains_char ":" t = false ->
  dns_name (t ++ ":" ++ v) = if bool_decide (t = "DNS") then Some v else None.
Proof.
  intros Ht. unfold dns_name.
  destruct t as [|c1 [|c2 [|c3 [|c4 t]]]];
    rewrite ?append_cons, ?append_nil_l;
    change (":" ++ v) with (String ":" v);
    cbn [startswith drop_chars]; rewrite ?startswith_nil;
    cbn [contains_char] in Ht;
    repeat (apply orb_false_elim in Ht as [? Ht]);
    repeat case_bool_decide; simplify_eq; done.
Qed.

Lemma omap_cons_eq {A B} (f : A -> option B) x l :
  omap f (x :: l) =
  match f x with Some y => y :: omap f l | None => omap f l end.
Proof. reflexivity. Qed.

Lemma san_dns_names_any items acc :
  san_dns_names items acc =
  if forallb (contains_char ":") items
  then Ok (acc ++ omap dns_name items)%list
  else Raise (unpack_error 1).
Proof.
  revert acc. induction items as [|item rest IH]; intros acc.
  - simpl. by rewrite app_nil_r.
  - cbn [san_dns_names forallb].
    destruct (contains_char ":" item) eqn:Hitem.
    + destruct (split_colon_1_some _ Hitem) as (t & v & -> & Ht).
      rewrite (split_colon_1_item _ _ Ht). cbn [unpack2 andb].
      rewrite omap_cons_eq, (dns_name_item _ _ Ht), !IH.
      destruct (forallb (contains_char ":") rest); [|by case_bool_decide].
      case_bool_decide; [|done]. by rewrite <- app_assoc.
    + by rewrite (split_colon_1_none _ Hitem).
Qed.

(** C9, as amended.  For a certificate with a subjectAltName extension,
    name extraction looks at the extension only, never at the subject.
    When every item of the text that the extension prints as has a colon,
    it returns what follows ["DNS:"] in the items that begin with it,
    which for an extension printed as the items [type:value] of its names
    are the values of the names of type DNS; otherwise it raises the
    [ValueError] of the failed unpacking.  When the result is empty, the
    cleanup pass removes the certificate file whatever the active domains
    are; when name extraction raises, the pass keeps the file. *)
Theorem get_dns_names_san cert ext :
  find_san (get_extensions cert) = Some ext ->
  let items := split_comma_space (subjectAltNameString ext) in
  get_dns_names cert =
    (if forallb (contains_char ":") items
     then Ok (omap dns_name items)
     else Raise (unpack_error 1))
  /\ (forall subject,
        get_dns_names (mk_x509 (get_extensions cert) subject)
        = get_dns_names cert)
  /\ (forall entries,
        subjectAltNameString ext = render_san entries ->
        entries <> [] ->
        Forall plain_entry entries ->
        get_dns_names cert = Ok (dns_values entries))
  /\ (forall active p w,
        pem_path p ->
        p ∉ dirs w ->
        fs w !! p = Some (Pem cert) ->
        (get_dns_names cert = Ok [] ->
         parent_of p ∉ readonly w ->
         fs (clean_up_cert active p w).1 !! p = None)
        /\ (forall e, get_dns_names cert = Raise e ->
                      clean_up_cert active p w = (w, Ok tt))).
Proof.
  intros Hsan. cbv zeta. split_and!.
  - unfold get_dns_names. rewrite Hsan. by rewrite san_dns_names_any.
  - intros subject. unfold get_dns_names. simpl. by rewrite Hsan.
  - intros entries Hstr Hne Hplain. by apply (get_dns_names_rendered _ ext).
  - intros active p w Hpem Hdir Hp. split.
    + intros Hnames Hro.
      rewrite (clean_up_cert_pem _ _ _ _ Hdir Hp), (orphaned_no_names _ _ Hnames).
      by eapply remove_cert_unlinks.
    + intros e Hnames. rewrite (clean_up_cert_pem _ _ _ _ Hdir Hp).
      unfold orphaned. by rewrite Hnames.
Qed.

Lemma get_dns_names_san_witness :
  get_dns_names cert_ip_only =
    (if forallb (contains_char ":") (split_comma_space "IP Address:192.0.2.9")
     then Ok (omap dns_name (split_comma_space "IP Address:192.0.2.9"))
     else Raise (unpack_error 1))
  /\ (forall subject,
        get_dns_names (mk_x509 (get_extensions cert_ip_only) subject)
        = get_dns_names cert_ip_only)
  /\ (forall entries,
        "IP Address:192.0.2.9" = render_san entries ->
        entries <> [] ->
        Forall plain_entry entries ->
        get_dns_names cert_ip_only = Ok (dns_values entries))
  /\ (forall active p w,
        pem_path p ->
        p ∉ dirs w ->
        fs w !! p = Some (Pem cert_ip_only) ->
        (get_dns_names cert_ip_only = Ok [] ->
         parent_of p ∉ readonly w ->
         fs (clean_up_cert active p w).1 !! p = None)
        /\ (forall e, get_dns_names cert_ip_only = Raise e ->
                      clean_up_cert active p w = (w, Ok tt))).
Proof.
  apply (get_dns_names_san cert_ip_only
           (mk_ext "subjectAltName" "IP Address:192.0.2.9")).
  reflexivity.
Defined.

(** C9 as stated fails: the subjectAltName extension of this certificate
    has a directory name and no name of type DNS; it is printed with a
    [", "] inside the item, name extraction raises instead of returning
    no name, and the cleanup pass keeps the file although no domain is
    active. *)
Lemma get_dns_names_san_dirname :
  find_san (get_extensions cert_dirname)
  = Some (mk_ext "subjectAltName" "DirName:C = US, O = Example")
  /\ get_dns_names cert_dirname = Raise (unpack_error 1)
  /\ clean_up_certs sample_config [] ["dirname.pem"] world_dirname
     = (world_dirname, Ok tt).
Proof. repeat split. Qed.

(** ** clean_up_certs: the files a completed pass leaves *)

Lemma set_fs_same w : set_fs w (fs w) = w.
Proof. by destruct w. Qed.

Lemma set_fs_set_fs w f g : set_fs (set_fs w f) g = set_fs w g.
Proof. done. Qed.

Lemma clean_up_cert_ok active p w w' :
  clean_up_cert active p w = (w', Ok tt) ->
  name_of p <> "" ->
  w' = set_fs w (clean_fs active p (fs w)).
Proof.
  intros Hrun Hname. unfold clean_fs.
  destruct (clean_up_cert_returned _ _ _ _ Hrun) as (cert & Hdir & Hp).
  rewrite Hp. rewrite (clean_up_cert_pem _ _ _ _ Hdir Hp) in Hrun.
  destruct (orphaned active cert).
  - rewrite remove_cert_run, Hp in Hrun. unfold remove_fs.
    destruct (bool_decide (parent_of p ∈ readonly w)); [done|].
    simpl in Hrun. rewrite (with_suffix_renewal_config _ Hname) in Hrun.
    destruct (delete p (fs w) !! renewal_config p);
      [destruct (bool_decide (renewal_dir ∈ readonly w))|]; congruence.
  - rewrite set_fs_same. congruence.
Qed.

Lemma clean_up_loop_ok active dir globbed w w' :
  for_each (fun x => clean_up_cert active (dir, x)) globbed w = (w', Ok tt) ->
  Forall (fun x => pem_path (dir, x)) globbed ->
  w' = set_fs w (foldl (fun f x => clean_fs active (dir, x) f) (fs w) globbed).
Proof.
  revert w. induction globbed as [|x rest IH]; intros w; simpl.
  - intros [= <-] _. by rewrite set_fs_same.
  - intros Hrun [Hx Hrest]%Forall_cons. unfold bind in Hrun.
    destruct (clean_up_cert active (dir, x) w) as [w1 [[]|e]] eqn:Hstep; [|done].
    apply clean_up_cert_ok in Hstep; [|by apply pem_path_name].
    rewrite (IH _ Hrun Hrest). by rewrite Hstep.
Qed.

(** Lookups at keys that are known to be equal or different, and then at
    any key. *)
Ltac lookup_known :=
  repeat first
    [ rewrite lookup_delete_eq
    | rewrite lookup_insert_eq
    | rewrite lookup_delete_ne by congruence
    | rewrite lookup_insert_ne by congruence ].

Ltac lookup_any :=
  repeat first
    [ progress lookup_known
    | rewrite lookup_insert
    | rewrite lookup_delete
    | case_decide
    | progress subst ];
  try congruence.

Lemma append_inj_r (s t u : string) : s ++ u = t ++ u -> s = t.
Proof.
  revert t. induction s as [|c s IH]; intros [|c' t] H.
  - done.
  - apply (f_equal String.length) in H. rewrite append_nil_l, append_cons in H.
    simpl in H. rewrite length_append in H. lia.
  - apply (f_equal String.length) in H. rewrite append_nil_l, append_cons in H.
    simpl in H. rewrite length_append in H. lia.
  - rewrite !append_cons in H. injection H as -> H. f_equal. by apply IH.
Qed.

Lemma conf_not_disabled p q : renewal_config p <> disabled_config q.
Proof.
  unfold renewal_config, disabled_config. intros [= H].
  assert (endswith (stem (name_of p) ++ ".conf") ".conf" = true) as Hc.
  { rewrite endswith_app by (simpl; lia). reflexivity. }
  rewrite H, endswith_app in Hc by (simpl; lia). done.
Qed.

Lemma conf_eq_disabled_eq p q :
  renewal_config p = renewal_config q <-> disabled_config p = disabled_config q.
Proof.
  unfold renewal_config, disabled_config.
  split; intros [= H]; apply append_inj_r in H; by rewrite H.
Qed.

Lemma remove_fs_comm x y f :
  pem_path x -> pem_path y -> x <> y ->
  remove_fs x (remove_fs y f) = remove_fs y (remove_fs x f).
Proof.
  intros Hx Hy Hne.
  destruct (pem_path_not_config x x Hx) as [Hxcx Hxdx].
  destruct (pem_path_not_config x y Hx) as [Hxcy Hxdy].
  destruct (pem_path_not_config y x Hy) as [Hycx Hydx].
  destruct (pem_path_not_config y y Hy) as [Hycy Hydy].
  pose proof (conf_not_disabled x x) as Hcxdx.
  pose proof (conf_not_disabled x y) as Hcxdy.
  pose proof (conf_not_disabled y x) as Hcydx.
  pose proof (conf_not_disabled y y) as Hcydy.
  pose proof (conf_eq_disabled_eq x y) as Hiff.
  unfold remove_fs.
  generalize dependent (renewal_config x). intros cx.
  generalize dependent (renewal_config y). intros cy.
  generalize dependent (disabled_config x). intros dx.
  generalize dependent (disabled_config y). intros dy.
  intros. apply map_eq. intros q.
  destruct (decide (cx = cy)) as [->|Hc].
  - assert (dx = dy) as -> by (by apply Hiff).
    rewrite !(lookup_delete_ne f) by done.
    destruct (f !! cy) as [v|] eqn:Hv; lookup_known; [|rewrite Hv];
      lookup_any.
  - assert (dx <> dy) as Hd by (by intros ?%Hiff).
    rewrite !(lookup_delete_ne f) by done.
    destruct (f !! cx) as [vx|] eqn:Hvx, (f !! cy) as [vy|] eqn:Hvy;
      lookup_known; rewrite ?Hvx, ?Hvy; lookup_any.
Qed.

Lemma remove_fs_frame p f q :
  pem_path q -> q <> p -> remove_fs p f !! q = f !! q.
Proof.
  intros Hq Hne. destruct (pem_path_not_config q p Hq) as [Hc Hd].
  unfold remove_fs. destruct (delete p f !! renewal_config p); lookup_known; done.
Qed.

Lemma clean_fs_frame active p f q :
  pem_path q -> q <> p -> clean_fs active p f !! q = f !! q.
Proof.
  intros Hq Hne. unfold clean_fs.
  destruct (f !! p) as [[cert|raw errors|held]|]; [|done..].
  destruct (orphaned active cert); [by apply remove_fs_frame | done].
Qed.

Lemma clean_fs_comm active x y f :
  pem_path x -> pem_path y ->
  clean_fs active x (clean_fs active y f) = clean_fs active y (clean_fs active x f).
Proof.
  intros Hx Hy. destruct (decide (x = y)) as [->|Hne]; [done|].
  unfold clean_fs at 1 3.
  rewrite (clean_fs_frame active y f x Hx Hne).
  rewrite (clean_fs_frame active x f y Hy) by congruence.
  unfold clean_fs.
  destruct (f !! x) as [[certx|rawx errorsx|heldx]|] eqn:Hfx,
           (f !! y) as [[certy|rawy errorsy|heldy]|] eqn:Hfy; try done.
  destruct (orphaned active certx), (orphaned active certy); try done.
  by apply remove_fs_comm.
Qed.

Lemma foldl_clean_fs_perm active dir l1 l2 f :
  l1 ≡ₚ l2 ->
  Forall (fun x => pem_path (dir, x)) l1 ->
  foldl (fun f x => clean_fs active (dir, x) f) f l1
  = foldl (fun f x => clean_fs active (dir, x) f) f l2.
Proof.
  intros Hperm. revert f.
  induction Hperm as [|x l l' _ IH|x y l|l l' l'' H1 IH1 H2 IH2]; intros f Hpem.
  - done.
  - apply Forall_cons in Hpem as [_ Hl]. simpl. by apply IH.
  - apply Forall_cons in Hpem as [Hy [Hx _]%Forall_cons]. simpl.
    by rewrite (clean_fs_comm active (dir, x) (dir, y)).
  - rewrite IH1 by done. apply IH2. by rewrite <- H1.
Qed.

Lemma clean_up_certs_same_end cfg all_domains l1 l2 w w1 w2 :
  l1 ≡ₚ l2 ->
  Forall (fun x => endswith x ".pem" = true) l1 ->
  clean_up_certs cfg all_domains l1 w = (w1, Ok tt) ->
  clean_up_certs cfg all_domains l2 w = (w2, Ok tt) ->
  w1 = w2.
Proof.
  unfold clean_up_certs. intros Hperm Hpem Hrun1 Hrun2.
  apply clean_up_loop_ok in Hrun1; [|done].
  apply clean_up_loop_ok in Hrun2; [|by rewrite <- Hperm].
  rewrite Hrun1, Hrun2. f_equal. by apply foldl_clean_fs_perm.
Qed.

(** C8, as amended.  When the cleanup pass completes for a listing of
    the certificate directory and for a rearrangement of it, both from
    the same state, it ends in the same state: the same files are kept,
    the same are removed and the same renewal configurations are
    disabled. *)
Theorem clean_up_certs_order cfg all_domains l1 l2 w w1 w2 :
  l1 ≡ₚ l2 ->
  Forall (fun x => endswith x ".pem" = true) l1 ->
  clean_up_certs cfg all_domains l1 w = (w1, Ok tt) ->
  clean_up_certs cfg all_domains l2 w = (w2, Ok tt) ->
  w1 = w2.
Proof. apply clean_up_certs_same_end. Qed.

Lemma clean_up_certs_order_witness :
  (clean_up_certs sample_config sample_domains ["old.pem"; "live.pem"] world_old).1
  = (clean_up_certs sample_config sample_domains ["live.pem"; "old.pem"] world_old).1.
Proof.
  apply (clean_up_certs_order sample_config sample_domains
           ["old.pem"; "live.pem"] ["live.pem"; "old.pem"] world_old).
  - apply perm_swap.
  - by repeat apply Forall_cons_2.
  - vm_compute. reflexivity.
  - vm_compute. reflexivity.
Defined.

Lemma clean_up_cert_completes active p w cert :
  p ∉ dirs w ->
  fs w !! p = Some (Pem cert) ->
  parent_of p ∉ readonly w ->
  renewal_dir ∉ readonly w ->
  exists w', clean_up_cert active p w = (w', Ok tt) /\ readonly w' = readonly w.
Proof.
  intros Hnodir Hp Hdir Hren. rewrite (clean_up_cert_pem _ _ _ _ Hnodir Hp).
  destruct (orphaned active cert); [|by exists w].
  rewrite remove_cert_run, Hp. rewrite bool_decide_eq_false_2 by done. simpl.
  destruct (delete p (fs w) !! renewal_config p).
  - rewrite bool_decide_eq_false_2 by done. by eexists.
  - by eexists.
Qed.

(** The pass completes when every listed entry is a certificate file
    that can be read and nothing keeps the files from being changed. *)
Lemma clean_up_certs_completes cfg all_domains globbed w :
  NoDup globbed ->
  Forall (fun x => endswith x ".pem" = true
                   /\ ((haproxy_certs_dir cfg, x) ∉ dirs w)
                   /\ exists cert,
                        fs w !! (haproxy_certs_dir cfg, x) = Some (Pem cert))
         globbed ->
  haproxy_certs_dir cfg ∉ readonly w ->
  renewal_dir ∉ readonly w ->
  exists w', clean_up_certs cfg all_domains globbed w = (w', Ok tt).
Proof.
  unfold clean_up_certs. revert w.
  induction globbed as [|x rest IH]; intros w Hnd Hfiles Hdir Hren.
  { by exists w. }
  apply NoDup_cons in Hnd as [Hx Hnd].
  apply Forall_cons in Hfiles as [(Hpem & Hnodir & cert & Hcert) Hrest].
  destruct (clean_up_cert_completes (list_to_set (od_keys all_domains))
              (haproxy_certs_dir cfg, x) w cert Hnodir Hcert Hdir Hren)
    as (w1 & Hstep & Hro).
  assert (Hrest1 : Forall (fun y => endswith y ".pem" = true
                     /\ ((haproxy_certs_dir cfg, y) ∉ dirs w1)
                     /\ exists cert,
                          fs w1 !! (haproxy_certs_dir cfg, y) = Some (Pem cert))
                     rest).
  { apply Forall_forall. intros y Hy.
    rewrite Forall_forall in Hrest.
    destruct (Hrest y Hy) as (Hypem & Hynodir & certy & Hcerty).
    split; [done|]. split; [by rewrite (clean_up_cert_dirs _ _ _ _ _ Hstep)|].
    exists certy. rewrite <- Hcerty.
    eapply clean_up_cert_frame; [exact Hstep | exact Hypem |].
    intros [= ->]. done. }
  rewrite <- Hro in Hdir, Hren.
  destruct (IH w1 Hnd Hrest1 Hdir Hren) as [w' Hrun].
  exists w'. cbn [for_each]. unfold bind at 1. by rewrite Hstep.
Qed.

(** For a listing of distinct certificate files, each of which can be
    read and loads, in directories whose entries can be changed, the pass
    completes, and with the same end for every rearrangement of the
    listing. *)
Lemma clean_up_certs_order_total cfg all_domains l1 l2 w :
  l1 ≡ₚ l2 ->
  NoDup l1 ->
  Forall (fun x => endswith x ".pem" = true
                   /\ ((haproxy_certs_dir cfg, x) ∉ dirs w)
                   /\ exists cert,
                        fs w !! (haproxy_certs_dir cfg, x) = Some (Pem cert))
         l1 ->
  haproxy_certs_dir cfg ∉ readonly w ->
  renewal_dir ∉ readonly w ->
  exists w',
    clean_up_certs cfg all_domains l1 w = (w', Ok tt)
    /\ clean_up_certs cfg all_domains l2 w = (w', Ok tt).
Proof.
  intros Hperm Hnd Hfiles Hdir Hren.
  destruct (clean_up_certs_completes cfg all_domains l1 w) as [w1 Hrun1];
    [done..|].
  destruct (clean_up_certs_completes cfg all_domains l2 w) as [w2 Hrun2];
    [by rewrite <- Hperm | by rewrite <- Hperm | done..|].
  exists w1. split; [done|].
  rewrite (clean_up_certs_same_end cfg all_domains l1 l2 w w1 w2);
    [done..| |done|done].
  eapply Forall_impl; [exact Hfiles|]. by intros x [? _].
Qed.

(** C8 as stated fails: when the entries of the renewal directory cannot
    be changed, the pass ends at the first certificate that it removes,
    so which of [old.pem] and [older.pem] is removed depends on which is
    listed first. *)
Lemma clean_up_certs_order_matters :
  let first := (clean_up_certs sample_config sample_domains
                  ["old.pem"; "older.pem"] world_locked).1 in
  let second := (clean_up_certs sample_config sample_domains
                   ["older.pem"; "old.pem"] world_locked).1 in
  fs first !! (certs_dir, "old.pem") = None
  /\ fs first !! (certs_dir, "older.pem") = Some (Pem cert_older)
  /\ fs second !! (certs_dir, "old.pem") = Some (Pem cert_old)
  /\ fs second !! (certs_dir, "older.pem") = None.
Proof. repeat split; vm_compute; reflexivity. Qed.

(** * Further properties *)

(** ** ArgumentParser.convert_arg_line_to_args *)

Lemma append_nil_r (s : string) : s ++ "" = s.
Proof. induction s as [|c s IH]; [done|]. rewrite append_cons. by f_equal. Qed.

Lemma split_words_words s :
  has_space (split_words s).1 = false /\ Forall is_word (split_words s).2.
Proof.
  induction s as [|c r [IHw IHl]]; [done|].
  cbn [split_words]. destruct (split_words r) as [w l]. simpl in *.
  destruct (isspace c) eqn:Hc; simpl.
  - split; [done|]. destruct w as [|c' w']; [done|].
    apply Forall_cons. by repeat split.
  - by rewrite Hc, IHw.
Qed.

Lemma split_words_chars s :
  (split_words s).1 ++ foldr append "" (split_words s).2 = without_space s.
Proof.
  induction s as [|c r IH]; [done|].
  cbn [split_words without_space]. destruct (split_words r) as [w l]. simpl in *.
  destruct (isspace c); simpl.
  - rewrite append_nil_l. by destruct w.
  - rewrite append_cons. by f_equal.
Qed.

(** X1.  The arguments that a line of an argument file gives are words:
    none is empty and none has white space in it; put one after the other
    they are the line without its white space, so no other character is
    lost or added; and a line of white space gives no argument. *)
Theorem convert_arg_line_to_args_words arg_line :
  Forall is_word (convert_arg_line_to_args arg_line)
  /\ foldr append "" (convert_arg_line_to_args arg_line) = without_space arg_line
  /\ (convert_arg_line_to_args arg_line = [] <-> all_space arg_line = true).
Proof.
  unfold convert_arg_line_to_args, split_none.
  pose proof (split_words_words arg_line) as [Hw Hl].
  pose proof (split_words_chars arg_line) as Hc.
  destruct (split_words arg_line) as [w l]. simpl in *.
  assert (Hspace : forall s, without_space s = "" <-> all_space s = true).
  { clear. induction s as [|c r IH]; [done|]. simpl.
    destruct (isspace c); [done|]. split; done. }
  split; [|split].
  - destruct w as [|c w']; [done|]. apply Forall_cons. by repeat split.
  - by destruct w.
  - rewrite <- Hspace, <- Hc. destruct w as [|c w'].
    + rewrite append_nil_l. split; [by intros ->|].
      destruct l as [|t l']; [done|]. apply Forall_cons in Hl as [[Ht _] _].
      simpl. destruct t; [done|]. by rewrite append_cons.
    + split; [done|]. by rewrite append_cons.
Qed.

Lemma split_words_app_word word s :
  has_space word = false ->
  split_words (word ++ s) = (word ++ (split_words s).1, (split_words s).2).
Proof.
  intros Hw. induction word as [|c word IH].
  - rewrite !append_nil_l. by destruct (split_words s).
  - simpl in Hw. apply orb_false_elim in Hw as [Hc Hw].
    rewrite append_cons. cbn [split_words]. rewrite (IH Hw), Hc.
    by rewrite append_cons.
Qed.

Lemma split_none_word_space word s :
  is_word word -> split_none (word ++ " " ++ s) = word :: split_none s.
Proof.
  intros [Hne Hw]. unfold split_none.
  rewrite (split_words_app_word _ _ Hw).
  change (" " ++ s) with (String " " s). cbn [split_words].
  destruct (split_words s) as [w l]. simpl.
  rewrite append_nil_r. by destruct word.
Qed.

Lemma split_none_word word : is_word word -> split_none word = [word].
Proof.
  intros [Hne Hw]. unfold split_none.
  rewrite <- (append_nil_r word) at 1.
  rewrite (split_words_app_word _ _ Hw). simpl.
  rewrite append_nil_r. by destruct word.
Qed.

(** X2.  Words that are written on one line with a space between them
    are read back as the same arguments. *)
Theorem convert_arg_line_to_args_join words :
  Forall is_word words ->
  convert_arg_line_to_args (join_space words) = words.
Proof.
  unfold convert_arg_line_to_args.
  induction words as [|word [|next rest] IH]; [done| |].
  - intros [Hw _]%Forall_cons. by apply split_none_word.
  - intros [Hw Hrest]%Forall_cons. cbn [join_space].
    rewrite (split_none_word_space _ _ Hw). f_equal. by apply IH.
Qed.

Lemma convert_arg_line_to_args_join_witness :
  convert_arg_line_to_args (join_space ["--server-ip"; "192.0.2.10"])
  = ["--server-ip"; "192.0.2.10"].
Proof.
  apply convert_arg_line_to_args_join.
  repeat apply Forall_cons_2; [| |apply Forall_nil_2]; by split.
Defined.

(** ** get_ssl_context *)

(** X3.  After a call of [get_ssl_context], whether it has returned or
    raised, a context is memoised, and every later call, whatever
    configuration it is given, returns that context and changes nothing:
    the context is made once, and when loading the trust anchors into it
    raised, later calls return it without them.  A call raises exactly
    when no context is memoised and loading a file of trust anchors
    fails; a context that is returned holds the trust anchors of the
    memoised one, else of a fresh one.  No call touches the files or the
    record of external calls. *)
Theorem get_ssl_context_memoised (E : env) cfg w :
  let w1 := (get_ssl_context E cfg w).1 in
  let r := (get_ssl_context E cfg w).2 in
  fs w1 = fs w /\ readonly w1 = readonly w /\ log w1 = log w
  /\ (exists ctx,
        ssl_ctx w1 = Some ctx
        /\ (forall a, r = Ok a -> a = ctx)
        /\ forall cfg', get_ssl_context E cfg' w1 = (w1, Ok ctx))
  /\ (forall e, r = Raise e <-> ssl_ctx w = None /\ loading_fails E cfg e)
  /\ (forall a, r = Ok a -> a = trust_anchors cfg None w).
Proof.
  cbv zeta. destruct (get_ssl_context E cfg w) as [w1 r] eqn:Hrun. simpl.
  destruct (get_ssl_context_frame _ _ _ _ _ Hrun)
    as (Hfs & Hro & Hlog & _ & [ctx Hctx] & Hok).
  split_and!; try done.
  - exists ctx. split_and!; [done| |].
    + intros a Ha. destruct (Hok a Ha) as [Hmemo _]. congruence.
    + intros cfg'. by apply get_ssl_context_memo.
  - intros e. rewrite get_ssl_context_run in Hrun. unfold loading_fails.
    destruct (ssl_ctx w) as [c|].
    { injection Hrun as _ <-. split; [done|]. by intros [? _]. }
    destruct (load_verify_locations E system_ca_bundle) as [[]|e0].
    2:{ injection Hrun as _ <-. split.
        - intros [= <-]. split; [done|]. by left.
        - intros [_ [[= <-]|[? _]]]; done. }
    destruct (letsencrypt_use_staging cfg).
    2:{ injection Hrun as _ <-. split; [done|].
        intros [_ [?|(_ & ? & _)]]; done. }
    destruct (letsencrypt_fake_cert cfg) as [fake|].
    2:{ injection Hrun as _ <-. split; [done|].
        intros [_ [?|(_ & _ & fake & ? & _)]]; done. }
    destruct (load_verify_locations E fake) as [[]|e1] eqn:Hfake;
      injection Hrun as _ <-.
    + split; [done|].
      intros [_ [?|(_ & _ & fake' & [= <-] & ?)]]; congruence.
    + split.
      * intros [= <-]. split; [done|]. right. split_and!; try done.
        by exists fake.
      * intros [_ [?|(_ & _ & fake' & [= <-] & ?)]]; congruence.
  - intros a Ha. by destruct (Hok a Ha).
Qed.

(** On a machine without the file of system trust anchors the first call
    raises, and the second returns the context into which nothing has
    been loaded. *)
Lemma get_ssl_context_without_anchors :
  let E := env_no_ca (sample_env [] dns_self tls_reject_all []) in
  let w1 := (get_ssl_context E sample_config empty_world).1 in
  get_ssl_context E sample_config empty_world = (w1, Raise no_ca_bundle)
  /\ get_ssl_context E sample_config w1 = (w1, Ok []).
Proof. repeat split. Qed.

(** ** has_valid_dns_record *)

(** X4.  [has_valid_dns_record] answers [True] exactly when the name
    resolves to the configured address, answers [False] exactly when it
    resolves to another address or the lookup raises [socket.gaierror],
    and lets every other exception of the lookup through. *)
Theorem has_valid_dns_record_outcomes (E : env) cfg domain w :
  let r := (has_valid_dns_record E cfg domain w).2 in
  (r = Ok true <-> resolves_to_self E cfg domain)
  /\ (r = Ok false <->
      (exists ip, gethostbyname E domain = Ok ip /\ ip <> server_ip cfg)
      \/ (exists e, gethostbyname E domain = Raise e
                    /\ isinstance e gaierror = true))
  /\ (forall e, r = Raise e <->
        gethostbyname E domain = Raise e /\ isinstance e gaierror = false).
Proof.
  simpl. rewrite has_valid_dns_record_run. simpl. unfold resolves_to_self.
  destruct (gethostbyname E domain) as [ip|e].
  - destruct (bool_decide_reflect (ip = server_ip cfg)) as [->|Hne].
    + split; [done|]. split.
      * split; [done|]. intros [(ip & [= <-] & ?) | (e & ? & _)]; done.
      * intros e. split; [done|]. by intros [? _].
    + split; [split; [done|by intros [= ?]]|]. split.
      * split; [|done]. intros _. left. by exists ip.
      * intros e. split; [done|]. by intros [? _].
  - destruct (isinstance e gaierror) eqn:Hi.
    + split; [done|]. split.
      * split; [|done]. intros _. right. by exists e.
      * intros e'. split; [done|]. intros [[= ->] ?]. congruence.
    + split; [done|]. split.
      * split; [done|].
        intros [(ip & ? & _) | (e' & [= <-] & ?)]; [done|congruence].
      * intros e'. split; [by intros [= ->]|]. by intros [[= ->] _].
Qed.

(** ** get_certless_domains: the probes *)

(** X5.  When [get_certless_domains] returns, the external calls it has
    made are these, in this order: for every configured domain, in the
    order of the backend map, one lookup of the name, followed by one TLS
    connection if and only if the name resolves to the configured
    address; all connections are made with the same trust anchors. *)
Theorem get_certless_domains_probes (E : env) cfg all_domains w w' l :
  get_certless_domains E cfg all_domains w = (w', Ok l) ->
  log w' =
  (log w ++ concat (List.map (probe_events E cfg (trust_anchors cfg None w))
                             (od_keys all_domains)))%list.
Proof.
  unfold get_certless_domains. intros Hrun.
  destruct (certless_run _ _ _ _ _ _ Hrun) as (_ & _ & Hlog & _).
  by apply (Hlog l).
Qed.

Lemma get_certless_domains_probes_witness :
  log (get_certless_domains (sample_env [] dns_only_a tls_reject_all [])
         sample_config sample_domains empty_world).1
  = [Resolve "a.example"; Connect [system_ca_bundle] "a.example";
     Resolve "b.example"; Resolve "c.example"].
Proof.
  eapply (get_certless_domains_probes
            (sample_env [] dns_only_a tls_reject_all []) sample_config
            sample_domains empty_world).
  vm_compute. reflexivity.
Defined.

(** X6.  In every run of [get_certless_domains], also one that ends with
    an exception, a TLS connection is opened only for a configured
    domain whose name resolves to the configured address: the
    certificate of a domain that points elsewhere is never asked for. *)
Theorem get_certless_domains_connects (E : env) cfg all_domains w w' r anchors domain :
  get_certless_domains E cfg all_domains w = (w', r) ->
  Connect anchors domain ∈ log w' ->
  Connect anchors domain ∈ log w
  \/ (domain ∈ od_keys all_domains /\ resolves_to_self E cfg domain).
Proof.
  unfold get_certless_domains. intros Hrun.
  destruct (certless_run _ _ _ _ _ _ Hrun) as (_ & _ & _ & Hconn).
  apply Hconn.
Qed.

Lemma get_certless_domains_connects_witness :
  Connect [system_ca_bundle] "a.example" ∈ []
  \/ ("a.example" ∈ od_keys sample_domains
      /\ resolves_to_self (sample_env [] dns_only_a tls_reject_all [])
                          sample_config "a.example").
Proof.
  eapply (get_certless_domains_connects
            (sample_env [] dns_only_a tls_reject_all []) sample_config
            sample_domains empty_world).
  - reflexivity.
  - vm_compute. right. left.
Defined.

(** X7.  The domains that [get_certless_domains] returns stand in the
    order of the backend map, each at most as often as there: the list is
    the backend map's list of domains with some of them left out. *)
Theorem get_certless_domains_order (E : env) cfg all_domains w w' l :
  get_certless_domains E cfg all_domains w = (w', Ok l) ->
  sublist l (od_keys all_domains)
  /\ (NoDup (od_keys all_domains) -> NoDup l).
Proof.
  intros Hrun. pose proof (get_certless_domains_result E cfg all_domains w) as Hsel.
  rewrite Hrun in Hsel. symmetry in Hsel.
  apply select_certless_ok in Hsel as [Hsub _].
  split; [done|]. intros Hnd. by eapply sublist_NoDup.
Qed.

Lemma get_certless_domains_order_witness :
  sublist ["a.example"; "b.example"] (od_keys sample_domains)
  /\ (NoDup (od_keys sample_domains) -> NoDup ["a.example"; "b.example"]).
Proof.
  eapply (get_certless_domains_order
            (sample_env [] dns_self tls_only_c []) sample_config
            sample_domains empty_world).
  vm_compute. reflexivity.
Defined.

(** X8.  Looking for the domains that need a certificate only asks: in
    every run, also one that ends with an exception, no file is changed
    and no command is run. *)
Theorem get_certless_domains_read_only (E : env) cfg all_domains w w' r :
  get_certless_domains E cfg all_domains w = (w', r) ->
  fs w' = fs w /\ readonly w' = readonly w /\ commands_run w' = commands_run w.
Proof.
  intros Hrun.
  by destruct (get_certless_domains_frame _ _ _ _ _ _ Hrun) as (? & ? & _ & ?).
Qed.

Lemma get_certless_domains_read_only_witness :
  fs (get_certless_domains (sample_env [] dns_self tls_only_c [])
        sample_config sample_domains world_old).1 = fs world_old
  /\ readonly (get_certless_domains (sample_env [] dns_self tls_only_c [])
        sample_config sample_domains world_old).1 = readonly world_old
  /\ commands_run (get_certless_domains (sample_env [] dns_self tls_only_c [])
        sample_config sample_domains world_old).1 = commands_run world_old.
Proof.
  eapply (get_certless_domains_read_only
            (sample_env [] dns_self tls_only_c []) sample_config
            sample_domains world_old).
  apply surjective_pairing.
Defined.

(** ** request_cert and request_new_certs *)

Lemma concat_domain_args_inj (l1 l2 : list string) :
  concat (List.map (fun domain => ["-d"; domain]) l1)
  = concat (List.map (fun domain => ["-d"; domain]) l2) ->
  l1 = l2.
Proof.
  revert l2. induction l1 as [|d l1 IH]; intros [|d' l2]; simpl; try done.
  intros [= -> H]. f_equal. by apply IH.
Qed.

(** X9.  The command line of the letsencrypt client names the domains it
    is built for, each after its own [-d] and in their order: two lists
    of domains that give the same command line under one configuration
    are the same list. *)
Theorem request_cert_command_inj cfg domains1 domains2 :
  request_cert_command cfg domains1 = request_cert_command cfg domains2 ->
  domains1 = domains2.
Proof.
  unfold request_cert_command. intros H.
  apply app_inv_head in H. apply app_inv_head in H.
  by apply concat_domain_args_inj.
Qed.

Lemma request_cert_command_inj_witness :
  ["a.example"; "b.example"] = ["a.example"; "b.example"].
Proof.
  by apply (request_cert_command_inj sample_config).
Defined.

Lemma od_values_get {V} (d : odict V) v :
  NoDup (od_keys d) -> v ∈ od_values d -> exists k, od_get d k = Some v.
Proof.
  unfold od_values. intros Hnd ([k v'] & -> & Hin)%list_elem_of_fmap.
  exists k. by apply od_get_elem.
Qed.

Lemma backend_group_elem all_domains l b d :
  d ∈ backend_group all_domains l b -> d ∈ l.
Proof. unfold backend_group. by intros [_ ?]%list_elem_of_filter. Qed.

(** X10.  Whatever the run, the letsencrypt client is only started by
    [request_new_certs] with a list of domains that is not empty, and
    every domain in such a list is a configured domain whose name
    resolves to the configured address and for which the TLS connection
    was rejected.  When no domain is like that, the client is not
    started. *)
Theorem request_new_certs_commands (E : env) cfg all_domains w w2 r :
  request_new_certs E cfg all_domains w = (w2, r) ->
  exists lists,
    commands_run w2
    = (commands_run w ++ List.map (request_cert_command cfg) lists)%list
    /\ Forall (fun domains =>
                 domains <> []
                 /\ forall d, d ∈ domains ->
                      d ∈ od_keys all_domains
                      /\ resolves_to_self E cfg d
                      /\ handshake_rejected E (trust_anchors cfg None w) d)
              lists.
Proof.
  intros Hrun.
  destruct (get_certless_domains E cfg all_domains w) as [w1 [l|e]] eqn:Hcertless.
  - destruct (request_new_certs_run _ _ _ _ _ _ Hcertless)
      as (w2' & groups & Hrun' & Hg & Hcmd).
    rewrite Hrun in Hrun'. injection Hrun' as -> _.
    exists (od_values groups). split; [done|].
    apply Forall_forall. intros g Hin.
    destruct Hg as (Hnd & Hgr & _).
    destruct (od_values_get _ _ Hnd Hin) as [b Hb].
    destruct (Hgr b g Hb) as [Hne ->]. split; [done|].
    intros d Hd%backend_group_elem.
    split; [by eapply get_certless_domains_keys|].
    by eapply get_certless_domains_rejected.
  - unfold request_new_certs in Hrun.
    rewrite (bind_raise _ _ _ _ _ Hcertless) in Hrun. injection Hrun as <- _.
    exists []. split; [|done]. simpl. rewrite app_nil_r.
    by destruct (get_certless_domains_frame _ _ _ _ _ _ Hcertless)
      as (_ & _ & _ & ?).
Qed.

Lemma request_new_certs_commands_witness :
  exists lists,
    commands_run (request_new_certs (sample_env [] dns_self tls_only_c [])
                    sample_config sample_domains empty_world).1
    = (commands_run empty_world
       ++ List.map (request_cert_command sample_config) lists)%list
    /\ Forall (fun domains =>
                 domains <> []
                 /\ forall d, d ∈ domains ->
                      d ∈ od_keys sample_domains
                      /\ resolves_to_self (sample_env [] dns_self tls_only_c [])
                                          sample_config d
                      /\ handshake_rejected
                           (sample_env [] dns_self tls_only_c [])
                           (trust_anchors sample_config None empty_world) d)
              lists.
Proof.
  eapply (request_new_certs_commands (sample_env [] dns_self tls_only_c [])
            sample_config sample_domains empty_world).
  apply surjective_pairing.
Defined.

(** ** get_all_domains: what the mapping holds *)

Lemma rstrip_cons c r :
  rstrip (String c r) =
  match rstrip r with
  | EmptyString => if isspace c then EmptyString else String c EmptyString
  | r' => String c r'
  end.
Proof. reflexivity. Qed.

Lemma rstrip_idemp s : rstrip (rstrip s) = rstrip s.
Proof.
  induction s as [|c r IH]; [done|]. rewrite rstrip_cons.
  destruct (rstrip r) as [|c' r'] eqn:Hr.
  - destruct (isspace c) eqn:Hc; [done|]. simpl. by rewrite Hc.
  - rewrite rstrip_cons, IH. done.
Qed.

Lemma rstrip_app a b : rstrip b <> "" -> rstrip (a ++ b) = a ++ rstrip b.
Proof.
  intros Hb. induction a as [|c a IH]; [done|].
  rewrite !append_cons, rstrip_cons, IH.
  destruct (a ++ rstrip b) as [|c' r'] eqn:Hab; [|done].
  destruct a; [by rewrite append_nil_l in Hab | by rewrite append_cons in Hab].
Qed.

Lemma strip_fixed_backend line domain backend :
  first_ws_split (strip line) domain backend -> strip backend = backend.
Proof.
  intros (ws & Hline & _ & _ & _ & _ & Hne & Hl).
  unfold strip at 1. rewrite Hl.
  assert (rstrip backend <> "") as Hr.
  { destruct backend as [|c r]; [done|].
    destruct (isspace c) eqn:Hc.
    - by destruct (lstrip_fixed_head c r Hc).
    - destruct (rstrip_head c r Hc) as [r' ->]. done. }
  assert (rstrip (strip line) = strip line) as Hfix by apply rstrip_idemp.
  rewrite Hline in Hfix.
  assert (rstrip (ws ++ backend) = ws ++ rstrip backend) as Hws
    by (by apply rstrip_app).
  rewrite (rstrip_app domain), Hws in Hfix.
  - by apply String.app_inj, String.app_inj in Hfix.
  - rewrite Hws. destruct ws; [done|]. by rewrite append_cons.
Qed.

Lemma add_lines_NoDup d0 lines d :
  NoDup (od_keys d0) -> add_lines d0 lines = Ok d -> NoDup (od_keys d).
Proof.
  revert d0. induction lines as [|line rest IH]; intros d0 Hnd; simpl.
  - by intros [= <-].
  - destruct (add_line d0 line) as [d1|] eqn:Hline; [|done].
    apply add_line_entry in Hline.
    destruct (line_entry line) as [[k b]|]; subst d1; apply IH;
      [by apply od_set_NoDup | done].
Qed.

(** X11.  Reading the backend map changes nothing, and the mapping it
    returns has every domain once; a domain in it is a word that does not
    begin with ["#"], and its backend is not empty and has no white space
    at either end. *)
Theorem get_all_domains_entries (E : env) cfg w w' domains :
  get_all_domains E cfg w = (w', Ok domains) ->
  w' = w
  /\ NoDup (od_keys domains)
  /\ forall k b, od_get domains k = Some b ->
       is_word k /\ startswith k "#" = false
       /\ b <> "" /\ strip b = b.
Proof.
  rewrite get_all_domains_pure.
  destruct (open_lines E (haproxy_backend_map cfg)) as [lines|]; [|done].
  intros [= <- Hload]. split; [done|]. split.
  - eapply add_lines_NoDup; [|exact Hload]. constructor.
  - intros k b Hget. rewrite (add_lines_get _ _ _ k Hload) in Hget. simpl in Hget.
    assert (last_entry lines k = Some b) as Hlast
      by (by destruct (last_entry lines k)).
    apply last_entry_spec in Hlast as (_ & line & _ & _ & Hline & _).
    apply line_entry_spec in Hline as (_ & Hhash & Hsplit).
    pose proof (strip_fixed_backend _ _ _ Hsplit) as Hb.
    destruct Hsplit as (ws & Hline & Hk & Hks & _ & _ & Hbne & _).
    repeat split; try done.
    rewrite Hline in Hhash. destruct k as [|c k']; [done|].
    rewrite append_cons in Hhash. cbn [startswith] in *.
    assert (forall s, startswith s "" = true) as Hnil by (by intros [|]).
    by rewrite Hnil in Hhash |- *.
Qed.

Lemma get_all_domains_entries_witness :
  empty_world = empty_world
  /\ NoDup (od_keys [("a.example", "b2"); ("b.example", "b1 extra")])
  /\ forall k b,
       od_get [("a.example", "b2"); ("b.example", "b1 extra")] k = Some b ->
       is_word k /\ startswith k "#" = false
       /\ b <> "" /\ strip b = b.
Proof.
  apply (get_all_domains_entries
           (sample_env ["a.example b1"; "  # note"; "b.example   b1 extra ";
                        "a.example b2"]
                       dns_self tls_reject_all [])
           sample_config empty_world).
  vm_compute. reflexivity.
Defined.

(** ** remove_cert: the names of the renewal configurations *)

Lemma split_last_dot_pem s :
  split_last_dot (s ++ ".pem") = Some (s, "pem").
Proof.
  induction s as [|c s IH]; [done|].
  rewrite append_cons. cbn [split_last_dot]. by rewrite IH.
Qed.

Lemma stem_pem s : s <> "" -> stem (s ++ ".pem") = s.
Proof.
  intros Hs. unfold stem. rewrite split_last_dot_pem. by destruct s.
Qed.

Lemma remove_cert_done p w c :
  fs w !! p = Some c ->
  parent_of p ∉ readonly w ->
  renewal_dir ∉ readonly w ->
  name_of p <> "" ->
  remove_cert p w = (set_fs w (remove_fs p (fs w)), Ok tt).
Proof.
  intros Hp Hdir Hren Hname. rewrite remove_cert_run, Hp.
  rewrite bool_decide_eq_false_2 by done. unfold remove_fs. simpl.
  destruct (delete p (fs w) !! renewal_config p); [|done].
  rewrite bool_decide_eq_false_2 by done.
  by rewrite with_suffix_renewal_config.
Qed.

(** X12.  Removing the certificate file [s.pem] of any directory, for a
    name [s] that is not empty, unlinks it and renames the renewal
    configuration [/etc/letsencrypt/renewal/s.conf], when that file
    exists, to [s.disabled] in the same directory, with its content;
    [s] may itself contain dots.  With no such configuration only the
    certificate file is unlinked. *)
Theorem remove_cert_renewal_names dir s w c :
  s <> "" ->
  fs w !! (dir, s ++ ".pem") = Some c ->
  dir ∉ readonly w ->
  renewal_dir ∉ readonly w ->
  remove_cert (dir, s ++ ".pem") w =
    (set_fs w
       match fs w !! (renewal_dir, s ++ ".conf") with
       | Some d =>
           <[(renewal_dir, s ++ ".disabled") := d]>
             (delete (renewal_dir, s ++ ".conf")
                (delete (dir, s ++ ".pem") (fs w)))
       | None => delete (dir, s ++ ".pem") (fs w)
       end,
     Ok tt).
Proof.
  intros Hs Hp Hdir Hren.
  assert (name_of (dir, s ++ ".pem") <> "") as Hname
    by (simpl; destruct s; [done | by rewrite append_cons]).
  rewrite (remove_cert_done _ _ c Hp Hdir Hren Hname). f_equal. f_equal.
  unfold remove_fs, renewal_config, disabled_config. simpl name_of.
  rewrite (stem_pem s Hs).
  assert (delete (dir, s ++ ".pem") (fs w) !! (renewal_dir, s ++ ".conf")
          = fs w !! (renewal_dir, s ++ ".conf")) as Hl.
  { apply lookup_delete_ne. intros [= _ H%String.app_inj]. done. }
  exact (f_equal (fun o : option content =>
                    match o with
                    | Some d =>
                        <[(renewal_dir, s ++ ".disabled") := d]>
                          (delete (renewal_dir, s ++ ".conf")
                             (delete (dir, s ++ ".pem") (fs w)))
                    | None => delete (dir, s ++ ".pem") (fs w)
                    end) Hl).
Qed.

Lemma remove_cert_renewal_names_witness :
  remove_cert (certs_dir, "old" ++ ".pem") world_old =
    (set_fs world_old
       match fs world_old !! (renewal_dir, "old" ++ ".conf") with
       | Some d =>
           <[(renewal_dir, "old" ++ ".disabled") := d]>
             (delete (renewal_dir, "old" ++ ".conf")
                (delete (certs_dir, "old" ++ ".pem") (fs world_old)))
       | None => delete (certs_dir, "old" ++ ".pem") (fs world_old)
       end,
     Ok tt).
Proof.
  apply (remove_cert_renewal_names certs_dir "old" world_old
           (Pem cert_old)).
  - done.
  - reflexivity.
  - vm_compute. set_solver.
  - vm_compute. set_solver.
Defined.

(** ** clean_up_certs: what a pass leaves alone *)

Lemma only_touches_refl touched w : only_touches touched w w.
Proof. unfold only_touches. split_and!; eauto. Qed.

Lemma only_touches_trans (t1 t2 t : path -> Prop) w w1 w2 :
  (forall q, t1 q -> t q) -> (forall q, t2 q -> t q) ->
  only_touches t1 w w1 -> only_touches t2 w1 w2 -> only_touches t w w2.
Proof.
  intros H1 H2 (Hl1 & Hc1 & Hr1 & Hf1 & Hk1 & Hd1)
         (Hl2 & Hc2 & Hr2 & Hf2 & Hk2 & Hd2).
  unfold only_touches. split_and!; try congruence.
  - intros q Hq. rewrite Hf2, Hf1; [done|naive_solver..].
  - intros q c Hq. destruct (Hk2 _ _ Hq) as [q1 Hq1]. eauto.
Qed.

Lemma remove_cert_touches p w w' r :
  remove_cert p w = (w', r) -> name_of p <> "" ->
  only_touches (cert_files p) w w'.
Proof.
  intros Hrun Hname. rewrite remove_cert_run in Hrun.
  rewrite (with_suffix_renewal_config _ Hname) in Hrun.
  destruct (fs w !! p) as [c|] eqn:Hp;
    [|injection Hrun as <- _; apply only_touches_refl].
  destruct (bool_decide (parent_of p ∈ readonly w));
    [injection Hrun as <- _; apply only_touches_refl|].
  cbv zeta in Hrun.
  assert (only_touches (cert_files p) w (set_fs w (delete p (fs w)))) as Hdel.
  { unfold only_touches. split_and!; simpl; try done.
    - intros q Hq. apply lookup_delete_ne. intros <-. apply Hq. by left.
    - intros q c' Hq. exists q.
      by apply lookup_delete_Some in Hq as [_ ?]. }
  destruct (delete p (fs w) !! renewal_config p) as [d|] eqn:Hconf;
    [|by injection Hrun as <- _].
  destruct (bool_decide (renewal_dir ∈ readonly w));
    [by injection Hrun as <- _|].
  injection Hrun as <- _. unfold only_touches. split_and!; simpl; try done.
  - intros q Hq. unfold cert_files in Hq.
    rewrite lookup_insert_ne, !lookup_delete_ne; [done|naive_solver..].
  - intros q c' Hq.
    destruct (decide (q = disabled_config p)) as [->|Hne].
    + rewrite lookup_insert_eq in Hq. injection Hq as <-.
      exists (renewal_config p). by apply lookup_delete_Some in Hconf as [_ ?].
    + rewrite lookup_insert_ne in Hq by done. exists q.
      apply lookup_delete_Some in Hq as [_ Hq].
      by apply lookup_delete_Some in Hq as [_ ?].
Qed.

Lemma clean_up_cert_touches active p w w' r :
  clean_up_cert active p w = (w', r) -> name_of p <> "" ->
  only_touches (cert_files p) w w'.
Proof.
  intros Hrun Hname.
  destruct (clean_up_cert_cases active p w) as [(cert & Hdir & Hp)|[e He]].
  - rewrite (clean_up_cert_pem _ _ _ _ Hdir Hp) in Hrun.
    destruct (orphaned active cert).
    + by eapply remove_cert_touches.
    + injection Hrun as <- _. apply only_touches_refl.
  - rewrite He in Hrun. injection Hrun as <- _. apply only_touches_refl.
Qed.

Lemma clean_up_loop_touches active dir globbed w w' r :
  for_each (fun x => clean_up_cert active (dir, x)) globbed w = (w', r) ->
  Forall (fun x => endswith x ".pem" = true) globbed ->
  only_touches (fun q => exists x, x ∈ globbed /\ cert_files (dir, x) q) w w'.
Proof.
  revert w. induction globbed as [|x rest IH]; intros w Hrun Hpem.
  - injection Hrun as <- _. apply only_touches_refl.
  - apply Forall_cons in Hpem as [Hx Hrest]. cbn [for_each] in Hrun.
    unfold bind in Hrun.
    destruct (clean_up_cert active (dir, x) w) as [w1 [[]|e]] eqn:Hone.
    + eapply only_touches_trans;
        [| |eapply clean_up_cert_touches; [exact Hone|by apply pem_path_name]
         |exact (IH _ Hrun Hrest)].
      * intros q Hq. exists x. split; [apply elem_of_cons; by left|done].
      * intros q (y & Hy & Hq). exists y.
        split; [apply elem_of_cons; by right|done].
    + injection Hrun as <- _.
      eapply (only_touches_trans _ (fun _ => False));
        [| |eapply clean_up_cert_touches; [exact Hone|by apply pem_path_name]
         |apply only_touches_refl].
      * intros q Hq. exists x. split; [apply elem_of_cons; by left|done].
      * done.
Qed.

(** X13.  Whatever a cleanup pass over certificate files returns or
    raises, it has made no external call and has left the SSL context,
    the permissions and every file alone that is not a listed
    certificate file, its renewal configuration or its disabled renewal
    configuration; and it has written nothing: every content of a file
    afterwards was the content of a file before. *)
Theorem clean_up_certs_touches cfg all_domains globbed w w' r :
  clean_up_certs cfg all_domains globbed w = (w', r) ->
  Forall (fun x => endswith x ".pem" = true) globbed ->
  only_touches
    (fun q => exists x,
                x ∈ globbed /\ cert_files (haproxy_certs_dir cfg, x) q)
    w w'.
Proof. unfold clean_up_certs. apply clean_up_loop_touches. Qed.

Lemma clean_up_certs_touches_witness :
  only_touches
    (fun q => exists x,
                x ∈ ["old.pem"; "live.pem"]
                /\ cert_files (haproxy_certs_dir sample_config, x) q)
    world_old
    (clean_up_certs sample_config sample_domains ["old.pem"; "live.pem"]
                    world_old).1.
Proof.
  apply (clean_up_certs_touches sample_config sample_domains
           ["old.pem"; "live.pem"] world_old _
           (clean_up_certs sample_config sample_domains
                           ["old.pem"; "live.pem"] world_old).2).
  - by destruct (clean_up_certs sample_config sample_domains
                                ["old.pem"; "live.pem"] world_old).
  - repeat constructor.
Defined.

(** ** clean_up_certs: a second pass *)

Lemma clean_up_loop_dirs active dir globbed w w' r :
  for_each (fun x => clean_up_cert active (dir, x)) globbed w = (w', r) ->
  dirs w' = dirs w.
Proof.
  revert w. induction globbed as [|y rest IH]; intros w Hrun.
  - by injection Hrun as <- _.
  - cbn [for_each] in Hrun. unfold bind in Hrun.
    destruct (clean_up_cert active (dir, y) w) as [w1 [[]|e]] eqn:Hone.
    + rewrite (IH _ Hrun). by eapply clean_up_cert_dirs.
    + injection Hrun as <- _. by eapply clean_up_cert_dirs.
Qed.

Lemma clean_up_loop_listed active dir globbed w w' x :
  for_each (fun x => clean_up_cert active (dir, x)) globbed w = (w', Ok tt) ->
  x ∈ globbed -> pem_path (dir, x) ->
  ((dir, x) ∉ dirs w) /\ exists cert, fs w !! (dir, x) = Some (Pem cert).
Proof.
  revert w. induction globbed as [|y rest IH]; intros w Hrun Hx Hpem.
  - by apply elem_of_nil in Hx.
  - cbn [for_each] in Hrun. unfold bind in Hrun.
    destruct (clean_up_cert active (dir, y) w) as [w1 [[]|e]] eqn:Hone; [|done].
    destruct (decide (x = y)) as [->|Hne].
    + destruct (clean_up_cert_returned _ _ _ _ Hone) as (cert & Hdir & Hp).
      split; [done|]. by exists cert.
    + apply elem_of_cons in Hx as [?|Hx]; [done|].
      destruct (IH _ Hrun Hx Hpem) as [Hdir [cert Hcert]].
      rewrite (clean_up_cert_dirs _ _ _ _ _ Hone) in Hdir. split; [done|].
      exists cert. rewrite <- Hcert. symmetry.
      eapply clean_up_cert_frame; [exact Hone|done|congruence].
Qed.

Lemma for_each_fixed {A} (body : A -> M unit) l w :
  Forall (fun x => body x w = (w, Ok tt)) l -> for_each body l w = (w, Ok tt).
Proof.
  induction l as [|x rest IH]; [done|].
  intros [Hx Hrest]%Forall_cons. cbn [for_each]. unfold bind.
  rewrite Hx. by apply IH.
Qed.

Lemma glob_pem_run (E : env) dir w :
  exists globbed,
    glob_pem E dir w = (w, Ok globbed)
    /\ Forall (fun x => endswith x ".pem" = true) globbed
    /\ forall x, x ∈ globbed <->
                 x ∈ scandir E dir
                 /\ (is_Some (fs w !! (dir, x)) \/ (dir, x) ∈ dirs w)
                 /\ endswith x ".pem" = true.
Proof.
  eexists. split; [reflexivity|]. split.
  - apply Forall_forall. intros x Hx.
    apply list_elem_of_In, filter_In in Hx as [_ Hx].
    by apply andb_true_iff in Hx as [_ ?].
  - intros x. rewrite list_elem_of_In, filter_In, andb_true_iff, orb_true_iff.
    rewrite !bool_decide_eq_true, <- list_elem_of_In. done.
Qed.

(** X14.  When listing the certificate files and cleaning them up has
    returned, doing both again at once changes nothing and returns: the
    files that are left are those which the pass keeps. *)
Theorem clean_up_certs_idempotent (E : env) cfg all_domains w w' :
  (globbed <- glob_pem E (haproxy_certs_dir cfg) ;;
   clean_up_certs cfg all_domains globbed) w = (w', Ok tt) ->
  (globbed <- glob_pem E (haproxy_certs_dir cfg) ;;
   clean_up_certs cfg all_domains globbed) w' = (w', Ok tt).
Proof.
  destruct (glob_pem_run E (haproxy_certs_dir cfg) w) as (g1 & Hg1 & _ & Hin1).
  destruct (glob_pem_run E (haproxy_certs_dir cfg) w') as (g2 & Hg2 & _ & Hin2).
  rewrite (bind_ok _ _ _ _ _ Hg1), (bind_ok _ _ _ _ _ Hg2).
  unfold clean_up_certs. intros Hrun.
  pose proof (clean_up_loop_dirs _ _ _ _ _ _ Hrun) as Hdirs.
  apply for_each_fixed, Forall_forall. intros x Hx.
  apply Hin2 in Hx as (Hscan & Hentry & Hpem).
  assert (x ∈ g1) as Hlisted.
  { apply Hin1. split; [done|]. split; [|done].
    destruct Hentry as [Hfile|Hdir]; [|right; by rewrite <- Hdirs].
    destruct (fs w !! (haproxy_certs_dir cfg, x)) as [c|] eqn:Hp.
    - left. by exists c.
    - pose proof (clean_up_loop_gone _ _ _ _ _ _ _ Hrun Hpem Hp) as Hgone.
      destruct Hfile as [c Hc]. discriminate (eq_trans (eq_sym Hc) Hgone). }
  destruct (clean_up_loop_listed _ _ _ _ _ _ Hrun Hlisted Hpem)
    as [Hnodir [cert Hcert]].
  rewrite <- Hdirs in Hnodir.
  destruct (clean_up_loop_file _ _ _ _ _ _ _ _ Hrun Hpem Hcert)
    as ([Hkept|Hgone] & _ & Hdel).
  - rewrite (clean_up_cert_pem _ _ _ _ Hnodir Hkept).
    destruct (orphaned (list_to_set (od_keys all_domains)) cert) eqn:Horph;
      [|done].
    rewrite (Hdel eq_refl Hlisted eq_refl) in Hkept. done.
  - destruct Hentry as [[c Hc]|Hdir]; [|done].
    discriminate (eq_trans (eq_sym Hc) Hgone).
Qed.

Lemma clean_up_certs_idempotent_witness :
  let E := sample_env [] dns_self tls_reject_all ["old.pem"; "live.pem"] in
  let w' := set_fs world_old
              {[ (certs_dir, "live.pem") := Pem cert_a_c;
                 (renewal_dir, "old.disabled") :=
                   Bytes "renew old.example" no_start_line ]} in
  (globbed <- glob_pem E (haproxy_certs_dir sample_config) ;;
   clean_up_certs sample_config sample_domains globbed) w' = (w', Ok tt).
Proof.
  intros E w'.
  apply (clean_up_certs_idempotent E sample_config sample_domains world_old).
  vm_compute. reflexivity.
Defined.

(** ** main: the stages of a run *)

(** X15.  A run of [main] goes through three stages.  When reading the
    backend map raises, the exception leaves [main] and nothing has
    happened.  When probing the domains raises, the exception leaves
    [main]; no command has been run and no file changed.  Otherwise
    requesting certificates returns, whether or not the letsencrypt
    client failed, and the run ends as the cleanup of the [.pem] files
    then listed in the certificate directory ends, with all domains of
    the backend map as the active ones; the cleanup runs no command. *)
Theorem main_stages (E : env) cfg w :
  match get_all_domains E cfg w with
  | (_, Raise e) => main E cfg w = (w, Raise e)
  | (_, Ok all_domains) =>
      match get_certless_domains E cfg all_domains w with
      | (w1, Raise e) =>
          main E cfg w = (w1, Raise e)
          /\ fs w1 = fs w /\ commands_run w1 = commands_run w
      | (w1, Ok _) =>
          exists w2,
            request_new_certs E cfg all_domains w = (w2, Ok tt)
            /\ main E cfg w =
               (globbed <- glob_pem E (haproxy_certs_dir cfg) ;;
                clean_up_certs cfg all_domains globbed) w2
            /\ commands_run (main E cfg w).1 = commands_run w2
      end
  end.
Proof.
  pose proof (get_all_domains_pure E cfg w) as Hpure.
  destruct (get_all_domains E cfg w) as [w0 [all_domains|e]] eqn:Hload;
    injection Hpure as -> _; unfold main;
    [rewrite (bind_ok _ _ _ _ _ Hload) | by apply bind_raise].
  destruct (get_certless_domains E cfg all_domains w) as [w1 [l|e]] eqn:Hprobe.
  - destruct (request_new_certs_run _ _ _ _ _ _ Hprobe)
      as (w2 & _ & Hreq & _).
    exists w2. split; [done|].
    rewrite (bind_ok _ _ _ _ _ Hreq). split; [done|].
    destruct (glob_pem_run E (haproxy_certs_dir cfg) w2)
      as (globbed & Hglob & Hpem & _).
    rewrite (bind_ok _ _ _ _ _ Hglob).
    destruct (clean_up_certs cfg all_domains globbed w2) as [w3 r] eqn:Hclean.
    destruct (clean_up_loop_touches _ _ _ _ _ _
                Hclean Hpem) as (Hlog & _).
    unfold commands_run. simpl. by rewrite Hlog.
  - pose proof (get_certless_domains_frame _ _ _ _ _ _ Hprobe)
      as (Hfs & _ & _ & Hcmd).
    split; [|done].
    apply bind_raise. unfold request_new_certs.
    by apply bind_raise.
Qed.

(** X16.  In a run of [main], take a [.pem] file of the certificate
    directory as requesting certificates leaves it, holding a certificate
    whose names can be read.  When one of the names has a wildcard or is
    a domain of the backend map, the file is there unchanged at the end
    of the run, however the run ends.  When none is, and the file is
    among the entries of the directory, and the run returns, the file is
    gone. *)
Theorem main_keeps_active (E : env) cfg w all_domains w2 r2 w' r
    name cert names :
  get_all_domains E cfg w = (w, Ok all_domains) ->
  request_new_certs E cfg all_domains w = (w2, r2) ->
  main E cfg w = (w', r) ->
  endswith name ".pem" = true ->
  fs w2 !! (haproxy_certs_dir cfg, name) = Some (Pem cert) ->
  get_dns_names cert = Ok names ->
  let orphan := forall n, n ∈ names ->
                  contains_char "*" n = false /\ n ∉ od_keys all_domains in
  (~ orphan -> fs w' !! (haproxy_certs_dir cfg, name) = Some (Pem cert))
  /\ (r = Ok tt -> name ∈ scandir E (haproxy_certs_dir cfg) -> orphan ->
      fs w' !! (haproxy_certs_dir cfg, name) = None).
Proof.
  intros Hload Hreq Hmain Hpem Hfile Hnames orphan.
  unfold main in Hmain. rewrite (bind_ok _ _ _ _ _ Hload) in Hmain.
  destruct r2 as [[]|e2].
  - rewrite (bind_ok _ _ _ _ _ Hreq) in Hmain.
    destruct (glob_pem_run E (haproxy_certs_dir cfg) w2)
      as (globbed & Hglob & _ & Hlisted).
    rewrite (bind_ok _ _ _ _ _ Hglob) in Hmain. unfold clean_up_certs in Hmain.
    destruct (clean_up_loop_file _ _ _ _ _ _ _ _ Hmain Hpem Hfile)
      as ([Hkept|Hgone] & Hwhy & Hdel).
    + split; [done|]. intros -> Hscan Horph. apply Hdel; [done| |].
      * apply Hlisted. split; [done|]. split; [left; by eexists | done].
      * by apply (orphaned_spec _ _ _ Hnames).
    + split.
      * intros Hact. destruct Hact.
        destruct (Hwhy Hgone) as [_ Horph].
        exact (proj1 (orphaned_spec _ _ _ Hnames) Horph).
      * done.
  - rewrite (bind_raise _ _ _ _ _ Hreq) in Hmain.
    injection Hmain as <- <-. split; [done|]. done.
Qed.

Lemma main_keeps_active_witness :
  let E := sample_env ["a.example b1"; "c.example b2"] dns_only_a tls_only_c
                      ["old.pem"; "live.pem"] in
  let w' := (main E sample_config world_old).1 in
  let orphan := forall n, n ∈ ["a.example"; "c.example"] ->
                  contains_char "*" n = false
                  /\ n ∉ od_keys [("a.example", "b1"); ("c.example", "b2")] in
  (~ orphan ->
   fs w' !! (haproxy_certs_dir sample_config, "live.pem") = Some (Pem cert_a_c))
  /\ ((main E sample_config world_old).2 = Ok tt ->
      "live.pem" ∈ scandir E (haproxy_certs_dir sample_config) -> orphan ->
      fs w' !! (haproxy_certs_dir sample_config, "live.pem") = None).
Proof.
  intros E w'.
  apply (main_keeps_active E sample_config world_old
           [("a.example", "b1"); ("c.example", "b2")]
           (request_new_certs E sample_config
              [("a.example", "b1"); ("c.example", "b2")] world_old).1
           (request_new_certs E sample_config
              [("a.example", "b1"); ("c.example", "b2")] world_old).2
           w' (main E sample_config world_old).2
           "live.pem" cert_a_c ["a.example"; "c.example"]).
  - vm_compute. reflexivity.
  - by destruct (request_new_certs E sample_config
                   [("a.example", "b1"); ("c.example", "b2")] world_old).
  - subst w'. by destruct (main E sample_config world_old).
  - reflexivity.
  - vm_compute. reflexivity.
  - reflexivity.
Defined.

(** ** get_dns_names: any subjectAltName string *)

(** X17.  For a certificate with a subjectAltName extension, whatever it
    prints as: when every item between the separators [", "] has a colon,
    name extraction returns what follows ["DNS:"] in the items that begin
    with it, in their order; otherwise it raises the [ValueError] of the
    failed unpacking, also when items before the one without a colon are
    well formed. *)
Theorem get_dns_names_items cert ext :
  find_san (get_extensions cert) = Some ext ->
  get_dns_names cert =
  let items := split_comma_space (subjectAltNameString ext) in
  if forallb (contains_char ":") items
  then Ok (omap dns_name items)
  else Raise (unpack_error 1).
Proof.
  intros Hsan. unfold get_dns_names. rewrite Hsan.
  by rewrite san_dns_names_any.
Qed.

Lemma get_dns_names_items_witness :
  get_dns_names
    (mk_x509 [mk_ext "subjectAltName"
                     "DNS:a.example, DirName:/C=US, O=Example"] []) =
  let items := split_comma_space "DNS:a.example, DirName:/C=US, O=Example" in
  if forallb (contains_char ":") items
  then Ok (omap dns_name items)
  else Raise (unpack_error 1).
Proof.
  apply (get_dns_names_items
           (mk_x509 [mk_ext "subjectAltName"
                            "DNS:a.example, DirName:/C=US, O=Example"] [])
           (mk_ext "subjectAltName" "DNS:a.example, DirName:/C=US, O=Example")).
  reflexivity.
Defined.

(** ** has_valid_cert: what a call does *)

(** X18.  A call of [has_valid_cert] changes no file and attempts at
    most one connection: one, for the given domain and with the trust anchors
    of its context, when it has a context and the socket is wrapped,
    whether the connection is then set up or raises; none when making the
    context or wrapping the socket raises.  A context that is passed in
    leaves the memoised one as it is; without one a context is memoised
    afterwards, and it is the one that was used when one was used. *)
Theorem has_valid_cert_effects (E : env) cfg domain ctx w :
  let w' := (has_valid_cert E cfg domain ctx w).1 in
  let context := context_for E cfg ctx w in
  fs w' = fs w /\ readonly w' = readonly w
  /\ (forall a, attempted E context domain a ->
                log w' = (log w ++ [Connect a domain])%list)
  /\ ((forall a, ~ attempted E context domain a) -> log w' = log w)
  /\ (forall c, ctx = Some c -> ssl_ctx w' = ssl_ctx w)
  /\ (ctx = None ->
      is_Some (ssl_ctx w')
      /\ forall a, context = Ok a -> ssl_ctx w' = Some a).
Proof.
  cbv zeta. rewrite has_valid_cert_run. unfold context_for, attempted.
  destruct ctx as [c|].
  - destruct (wrap_socket E c domain) as [[]|e] eqn:Hwrap; simpl;
      split_and!; try done.
    + by intros a [[= <-] _].
    + intros Hno. by destruct (Hno c).
    + intros a [[= <-] ?]. congruence.
  - destruct (get_ssl_context E cfg w) as [w0 [a|e]] eqn:Hctx;
      destruct (get_ssl_context_frame _ _ _ _ _ Hctx)
        as (Hfs & Hro & Hlog & _ & Hmemo & Hok); simpl.
    + destruct (Hok a eq_refl) as [Ha _].
      destruct (wrap_socket E a domain) as [[]|e] eqn:Hwrap; simpl;
        split_and!; try done.
      * intros a' [[= <-] _]. by rewrite Hlog.
      * intros Hno. by destruct (Hno a).
      * intros _. split; [done|]. by intros a' [= <-].
      * intros a' [[= <-] ?]. congruence.
      * intros _. split; [done|]. by intros a' [= <-].
    + split_and!; try done. by intros a [? _].
Qed.

